(** * Root-Convert: the JSON persistence layer of [utils/json_utils.py]

    A shallow embedding of the type-preserving JSON layer (the handler
    classes, [JSONMixin] and [SimpleJSON]) together with the parts of the
    Python runtime it drives: [str.split], [int], [timedelta], [dict],
    [sorted], the [json] encoder and decoder, and a small file store.
    From [root_convert.py] it takes the two expressions that name what is
    written: the name of the object of a key and the name of the table
    of a file.

    Conventions of the embedding.
    - A Python [str] is a Rocq [string]; a character is a code point
      below 256.
    - A call either returns, raises, or leaves the modelled fragment of
      Python ([Unmodelled]): floating point numbers, tabular frames, code
      points above 255, mappings keyed by something other than [str].
    - Exceptions keep their class, the key of a [KeyError] and the cause
      given with [raise ... from]; messages are not recorded.
    - [JSONMixin]'s methods are embedded as called by the repository:
      without extra keyword arguments, so that [_set_kwargs] installs
      [indent=2], [default=json_serial] and [object_hook=json_deserial];
      [_set_kwargs] itself is embedded on its own, over keyword arguments
      of any type. *)

From Stdlib Require Import ZArith List String Ascii Bool Lia Permutation.
From Stdlib Require Import DecimalString DecimalN DecimalPos.
Import ListNotations.
Set Warnings "-register-all".
Local Open Scope string_scope.
Local Open Scope Z_scope.

(** ** Python values *)

(** [datetime.date], a naive [datetime.datetime] and [datetime.timedelta]. *)
Record date := mk_date { d_year : Z; d_month : Z; d_day : Z }.

Record datetime := mk_datetime {
  year : Z; month : Z; day : Z;
  hour : Z; minute : Z; second : Z; microsecond : Z }.

Record timedelta := mk_timedelta { days : Z; seconds : Z; microseconds : Z }.

Inductive np_float := float128 | float64 | float32 | float16.
Inductive np_int := int8 | uint8 | int32 | int64 | uint32 | int16 | uint16 | uint64.
Inductive stl := STLVector | STLSet | STLMap.

(** Concrete runtime classes, as [type(obj)] returns them. *)
Inductive pytype :=
| T_NoneType | T_bool | T_int | T_str | T_list | T_dict
| T_datetime | T_date | T_timedelta
| T_DataFrame
| T_ndarray
| T_np_float (w : np_float)
| T_np_int (w : np_int)
| T_stl (k : stl)
| T_other (qualname : string).

(** Objects whose content the embedding does not look into. *)
Inductive opaque := O_np_float (w : np_float) | O_DataFrame | O_other (qualname : string).

Inductive value :=
| VNone
| VBool (b : bool)
| VInt (z : Z)
| VStr (s : string)
| VList (l : list value)
| VDict (d : list (string * value))
| VDatetime (dt : datetime)
| VDate (d : date)
| VTimedelta (td : timedelta)
| VNumpyInt (w : np_int) (n : Z)          (* int(obj) = n *)
| VNdarray (tolist : list value)          (* obj.tolist() *)
| VStl (k : stl) (tolist : value)         (* obj.tolist() *)
| VOpaque (o : opaque).

Definition dict := list (string * value).

Definition type_of (v : value) : pytype :=
  match v with
  | VNone => T_NoneType
  | VBool _ => T_bool
  | VInt _ => T_int
  | VStr _ => T_str
  | VList _ => T_list
  | VDict _ => T_dict
  | VDatetime _ => T_datetime
  | VDate _ => T_date
  | VTimedelta _ => T_timedelta
  | VNumpyInt w _ => T_np_int w
  | VNdarray _ => T_ndarray
  | VStl k _ => T_stl k
  | VOpaque (O_np_float w) => T_np_float w
  | VOpaque O_DataFrame => T_DataFrame
  | VOpaque (O_other q) => T_other q
  end.

(** ** Exceptions and outcomes *)

Inductive pykey := KeyOfType (t : pytype) | KeyOfValue (v : value).

Inductive os_error := FileNotFoundError | IsADirectoryError | PermissionError.

Inductive exn :=
| KeyError (key : pykey)
| TypeError (cause : option exn)
| ValueError
| JSONDecodeError
| UnicodeDecodeError
| OSError (k : os_error)
| OverflowError
| AttributeError
| NameError
| JSONDeserializeError (cause : exn).

(** [class JSONDeserializeError(OSError, ValueError)], and the built-in
    hierarchy below [OSError], [ValueError] and [KeyError]. *)
Definition isinstance_OSError (e : exn) : bool :=
  match e with OSError _ | JSONDeserializeError _ => true | _ => false end.

Definition isinstance_ValueError (e : exn) : bool :=
  match e with
  | ValueError | JSONDecodeError | UnicodeDecodeError | JSONDeserializeError _ => true
  | _ => false
  end.

Definition isinstance_KeyError (e : exn) : bool :=
  match e with KeyError _ => true | _ => false end.

Inductive result (A : Type) :=
| Ok (a : A)
| Raise (e : exn)
| Unmodelled.

Arguments Ok {A} a.
Arguments Raise {A} e.
Arguments Unmodelled {A}.

Definition bind {A B} (m : result A) (f : A -> result B) : result B :=
  match m with
  | Ok a => f a
  | Raise e => Raise e
  | Unmodelled => Unmodelled
  end.

Notation "x <- m ;; k" := (bind m (fun x => k))
  (at level 100, m at next level, right associativity).
Notation "' pat <- m ;; k" := (bind m (fun x => match x with pat => k end))
  (at level 100, pat pattern, m at next level, right associativity).

Section MapM.
Context {A B : Type} (f : A -> result B).

(** The calls [f a] one after the other, up to the first that fails. *)
Fixpoint mapM (l : list A) : result (list B) :=
  match l with
  | [] => Ok []
  | a :: l' => b <- f a ;; bs <- mapM l' ;; Ok (b :: bs)
  end.
End MapM.

(** ** Strings: [str.split], [str(int)], [int(str)] *)

(** [s.split(sep)] for a one-character separator: never the empty list. *)
Fixpoint split (sep : ascii) (s : string) : list string :=
  match s with
  | "" => [""]
  | String c r =>
      if Ascii.eqb c sep then "" :: split sep r
      else match split sep r with
           | h :: t => String c h :: t
           | [] => [String c ""]
           end
  end.

(** [str(n)] for an [int]. *)
Definition str_of_int (z : Z) : string :=
  match z with
  | Z0 => "0"
  | Zpos p => NilEmpty.string_of_uint (Pos.to_uint p)
  | Zneg p => String "-" (NilEmpty.string_of_uint (Pos.to_uint p))
  end.

(** The characters [int] strips: [str.isspace] below code point 256. *)
Definition isspace (c : ascii) : bool :=
  let n := N_of_ascii c in
  (((9 <=? n) && (n <=? 13)) || ((28 <=? n) && (n <=? 32))
   || (n =? 133) || (n =? 160))%N.

Definition isdigit (c : ascii) : bool :=
  let n := N_of_ascii c in ((48 <=? n) && (n <=? 57))%N.

Fixpoint lstrip (s : string) : string :=
  match s with
  | String c r => if isspace c then lstrip r else s
  | "" => ""
  end.

Fixpoint rstrip (s : string) : string :=
  match s with
  | "" => ""
  | String c r =>
      match rstrip r with
      | "" => if isspace c then "" else String c ""
      | r' => String c r'
      end
  end.

Definition strip (s : string) : string := rstrip (lstrip s).

(** Digits with single underscores between them, as [int] takes them:
    [after_digit] tells whether the previous character was a digit. The
    underscores are dropped. *)
Fixpoint int_digits (after_digit : bool) (s : string) : option string :=
  match s with
  | "" => if after_digit then Some "" else None
  | String c r =>
      if isdigit c then option_map (String c) (int_digits true r)
      else if Ascii.eqb c "_" then
        if after_digit then
          match r with
          | "" => None
          | String c' _ => if isdigit c' then int_digits false r else None
          end
        else None
      else None
  end.

Definition nat_of_digits (s : string) : result Z :=
  match int_digits false s with
  | Some ds =>
      match NilEmpty.uint_of_string ds with
      | Some u => Ok (Z.of_N (N.of_uint u))
      | None => Raise ValueError
      end
  | None => Raise ValueError
  end.

(** [int(s)] for a [str]: surrounding white space, a sign, decimal digits.
    The interpreter's optional cap on the number of digits is a run-time
    setting and is not part of the model. *)
Definition int_of_str (s : string) : result Z :=
  match strip s with
  | "" => Raise ValueError
  | String c r =>
      if Ascii.eqb c "+" then nat_of_digits r
      else if Ascii.eqb c "-" then n <- nat_of_digits r ;; Ok (- n)
      else nat_of_digits (String c r)
  end.

(** ** [datetime.timedelta] *)

(** [timedelta(days, seconds, microseconds, milliseconds, minutes, hours,
    weeks)] on integers: everything is brought to microseconds and
    normalised; the day count is limited to nine digits. *)
Definition timedelta_init
    (days seconds microseconds milliseconds minutes hours weeks : Z)
    : result timedelta :=
  let total :=
    ((days + 7 * weeks) * 86400 + seconds + 60 * minutes + 3600 * hours) * 1000000
    + microseconds + 1000 * milliseconds in
  let d := total / 86400000000 in
  let s := (total mod 86400000000) / 1000000 in
  let us := total mod 1000000 in
  if 999999999 <? Z.abs d then Raise OverflowError
  else Ok (mk_timedelta d s us).

(** [timedelta] called on an unpacked argument tuple: at most seven
    positional arguments, the missing ones defaulting to 0. *)
Definition timedelta_call (args : list Z) : result timedelta :=
  match args with
  | [] => timedelta_init 0 0 0 0 0 0 0
  | [a] => timedelta_init a 0 0 0 0 0 0
  | [a; b] => timedelta_init a b 0 0 0 0 0
  | [a; b; c] => timedelta_init a b c 0 0 0 0
  | [a; b; c; d] => timedelta_init a b c d 0 0 0
  | [a; b; c; d; e] => timedelta_init a b c d e 0 0
  | [a; b; c; d; e; f] => timedelta_init a b c d e f 0
  | [a; b; c; d; e; f; g] => timedelta_init a b c d e f g
  | _ => Raise (TypeError None)
  end.

(** The values [timedelta] objects take. *)
Definition timedelta_valid (td : timedelta) : Prop :=
  Z.abs (days td) <= 999999999
  /\ 0 <= seconds td < 86400
  /\ 0 <= microseconds td < 1000000.

(** ** [date.isoformat] and [datetime.isoformat] *)

Fixpoint zeros (n : nat) : string :=
  match n with O => "" | S n' => String "0" (zeros n') end.

(** ["%0<width>d" % z] for a non-negative [z]. *)
Definition zfill (width : nat) (z : Z) : string :=
  let s := str_of_int z in
  zeros (width - String.length s) ++ s.

Definition date_isoformat (d : date) : string :=
  zfill 4 (d_year d) ++ "-" ++ zfill 2 (d_month d) ++ "-" ++ zfill 2 (d_day d).

Definition datetime_isoformat (dt : datetime) : string :=
  zfill 4 (year dt) ++ "-" ++ zfill 2 (month dt) ++ "-" ++ zfill 2 (day dt)
  ++ "T" ++ zfill 2 (hour dt) ++ ":" ++ zfill 2 (minute dt) ++ ":" ++ zfill 2 (second dt)
  ++ (if microsecond dt =? 0 then "" else "." ++ zfill 6 (microsecond dt)).

(** ** Mappings

    A [dict] keeps its keys unique and in insertion order. *)

Section Assoc.
Context {K V : Type} (eqb : K -> K -> bool).

Fixpoint assoc_get (k : K) (l : list (K * V)) : option V :=
  match l with
  | [] => None
  | (k', v) :: l' => if eqb k k' then Some v else assoc_get k l'
  end.

(** [d[k] = v]: in place when the key is there, appended otherwise. *)
Fixpoint assoc_set (k : K) (v : V) (l : list (K * V)) : list (K * V) :=
  match l with
  | [] => [(k, v)]
  | (k', v') :: l' =>
      if eqb k k' then (k', v) :: l' else (k', v') :: assoc_set k v l'
  end.

Fixpoint assoc_del (k : K) (l : list (K * V)) : list (K * V) :=
  match l with
  | [] => []
  | (k', v') :: l' => if eqb k k' then l' else (k', v') :: assoc_del k l'
  end.
End Assoc.

Definition dict_get (k : string) (d : dict) : option value := assoc_get String.eqb k d.
Definition dict_set (k : string) (v : value) (d : dict) : dict := assoc_set String.eqb k v d.
Definition dict_contains (k : string) (d : dict) : bool :=
  match dict_get k d with Some _ => true | None => false end.

(** [d.pop(k)]: the value and the mapping without the key. *)
Definition dict_pop (k : string) (d : dict) : result (value * dict) :=
  match dict_get k d with
  | Some v => Ok (v, assoc_del String.eqb k d)
  | None => Raise (KeyError (KeyOfValue (VStr k)))
  end.

(** [dict(pairs)]: a later pair replaces the value of an earlier one with
    the same key. *)
Definition dict_of_pairs (pairs : list (string * value)) : dict :=
  fold_left (fun d kv => dict_set (fst kv) (snd kv) d) pairs [].

(** [d.update(other)] for a mapping [other]. *)
Definition dict_update (d other : dict) : dict :=
  fold_left (fun d kv => dict_set (fst kv) (snd kv) d) other d.

(** ** The handler classes *)

(** [class JSONSerializer]: type preserved through a string. *)
Record JSONSerializer := {
  s_name : string;
  s_types : list pytype;
  serialize : value -> result string;
  deserialize : value -> result value }.

(** [class JSONConverter]: replaced by a native value, type not kept. *)
Record JSONConverter := {
  c_name : string;
  c_types : list pytype;
  convert : value -> result value }.

Definition np_float_eqb (a b : np_float) : bool :=
  match a, b with
  | float128, float128 | float64, float64 | float32, float32 | float16, float16 => true
  | _, _ => false
  end.

Definition np_int_eqb (a b : np_int) : bool :=
  match a, b with
  | int8, int8 | uint8, uint8 | int32, int32 | int64, int64
  | uint32, uint32 | int16, int16 | uint16, uint16 | uint64, uint64 => true
  | _, _ => false
  end.

Definition stl_eqb (a b : stl) : bool :=
  match a, b with
  | STLVector, STLVector | STLSet, STLSet | STLMap, STLMap => true
  | _, _ => false
  end.

(** Identity of classes: the registry is keyed by the class itself, no
    look at base classes. *)
Definition pytype_eqb (a b : pytype) : bool :=
  match a, b with
  | T_NoneType, T_NoneType | T_bool, T_bool | T_int, T_int | T_str, T_str
  | T_list, T_list | T_dict, T_dict | T_datetime, T_datetime | T_date, T_date
  | T_timedelta, T_timedelta | T_DataFrame, T_DataFrame | T_ndarray, T_ndarray => true
  | T_np_float x, T_np_float y => np_float_eqb x y
  | T_np_int x, T_np_int y => np_int_eqb x y
  | T_stl x, T_stl y => stl_eqb x y
  | T_other x, T_other y => String.eqb x y
  | _, _ => false
  end.

Section Handlers.

(** [dateutil.parser.parse] on a [str]: an external, permissive parser;
    all that is used of it is that what it returns is a [datetime]. *)
Variable dateutil_parse : string -> result datetime.

Definition DatetimeJSON : JSONSerializer := {|
  s_name := "datetime";
  s_types := [T_datetime; T_date];
  serialize := fun obj =>
    match obj with
    | VDatetime dt => Ok (datetime_isoformat dt)
    | VDate d => Ok (date_isoformat d)
    | _ => Unmodelled
    end;
  deserialize := fun r_value =>
    match r_value with
    | VStr s => dt <- dateutil_parse s ;; Ok (VDatetime dt)
    | _ => Raise (TypeError None)
    end |}.

Definition TimedeltaJSON : JSONSerializer := {|
  s_name := "timedelta";
  s_types := [T_timedelta];
  serialize := fun obj =>
    match obj with
    | VTimedelta td =>
        Ok (str_of_int (days td) ++ "," ++ str_of_int (seconds td)
            ++ "," ++ str_of_int (microseconds td))
    | _ => Unmodelled
    end;
  deserialize := fun r_value =>
    match r_value with
    | VStr s =>
        args <- mapM int_of_str (split "," s) ;;
        td <- timedelta_call args ;;
        Ok (VTimedelta td)
    | _ => Raise AttributeError
    end |}.

(** [pandas] frames are not part of the value model. *)
Definition PdDataframe : JSONSerializer := {|
  s_name := "pd_dataframe";
  s_types := [T_DataFrame];
  serialize := fun _ => Unmodelled;
  deserialize := fun _ => Unmodelled |}.

Definition NDArrayJSON : JSONConverter := {|
  c_name := "ndarray";
  c_types := [T_ndarray];
  convert := fun obj =>
    match obj with VNdarray l => Ok (VList l) | _ => Unmodelled end |}.

Definition NumpyFloat : JSONConverter := {|
  c_name := "np_float";
  c_types := [T_np_float float128; T_np_float float64;
              T_np_float float32; T_np_float float16];
  convert := fun _ => Unmodelled |}.

Definition NumpyInt : JSONConverter := {|
  c_name := "np_int";
  c_types := [T_np_int int8; T_np_int uint8; T_np_int int32; T_np_int int64;
              T_np_int uint32; T_np_int int16; T_np_int uint16; T_np_int uint64];
  convert := fun obj =>
    match obj with VNumpyInt _ n => Ok (VInt n) | _ => Unmodelled end |}.

Definition UprootContainer : JSONConverter := {|
  c_name := "uproot_stlc";
  c_types := [T_stl STLVector; T_stl STLSet; T_stl STLMap];
  convert := fun obj =>
    match obj with VStl _ v => Ok v | _ => Unmodelled end |}.

(** ** [JSONMixin]: the registry *)

Definition names_to_serializers : list (string * JSONSerializer) :=
  [ ("datetime", DatetimeJSON);
    ("timedelta", TimedeltaJSON);
    ("pd_dataframe", PdDataframe) ].

Definition names_to_converters : list (string * JSONConverter) :=
  [ ("ndarray", NDArrayJSON);
    ("np_float", NumpyFloat);
    ("np_int", NumpyInt);
    ("uproot_stlc", UprootContainer) ].

(** [__init__]: converters first, then serializers; a class claimed
    twice keeps the name registered last. *)
Definition register (name : string) (types : list pytype)
    (table : list (pytype * string)) : list (pytype * string) :=
  fold_left (fun t d_type => assoc_set pytype_eqb d_type name t) types table.

Definition types_to_names : list (pytype * string) :=
  let after_converters :=
    fold_left (fun t nh => register (fst nh) (c_types (snd nh)) t)
              names_to_converters [] in
  fold_left (fun t nh => register (fst nh) (s_types (snd nh)) t)
            names_to_serializers after_converters.

(** [json_serial]: the [default] hook of the encoder. The last branch
    names an unbound variable [e]. *)
Definition json_serial (obj : value) : result value :=
  match assoc_get pytype_eqb (type_of obj) types_to_names with
  | None => Raise (KeyError (KeyOfType (type_of obj)))
  | Some con_name =>
      match assoc_get String.eqb con_name names_to_converters with
      | Some c => convert c obj
      | None =>
          match assoc_get String.eqb con_name names_to_serializers with
          | Some s =>
              serial_str <- serialize s obj ;;
              Ok (VDict [("__type__", VStr con_name); ("repr", VStr serial_str)])
          | None => Raise NameError
          end
      end
  end.

(** [self.names_to_serializers[recover_type]]: a list or a mapping
    cannot be hashed. *)
Definition serializer_named (recover_type : value) : result JSONSerializer :=
  match recover_type with
  | VStr name =>
      match assoc_get String.eqb name names_to_serializers with
      | Some s => Ok s
      | None => Raise (KeyError (KeyOfValue recover_type))
      end
  | VList _ | VDict _ => Raise (TypeError None)
  | VNone | VBool _ | VInt _ | VDatetime _ | VDate _ | VTimedelta _ =>
      Raise (KeyError (KeyOfValue recover_type))
  | _ => Unmodelled
  end.

(** The [try] block of [json_deserial] with its [except KeyError]. *)
Definition recover (recover_type recover_repr : value) : result value :=
  match (serializer <- serializer_named recover_type ;;
         deserialize serializer recover_repr) with
  | Ok x => Ok x
  | Raise e => if isinstance_KeyError e then Raise (TypeError (Some e)) else Raise e
  | Unmodelled => Unmodelled
  end.

(** The loop of [json_deserial] over [obj.items()]; assigning to a key
    that is there keeps the order of iteration. *)
Fixpoint json_deserial_items (items : dict) (obj : dict) : result dict :=
  match items with
  | [] => Ok obj
  | (recovered_key, recovered_value) :: rest =>
      match recovered_value with
      | VDict inner =>
          if dict_contains "__type__" inner then
            '(recover_type, inner1) <- dict_pop "__type__" inner ;;
            '(recover_repr, _) <- dict_pop "repr" inner1 ;;
            x <- recover recover_type recover_repr ;;
            json_deserial_items rest (dict_set recovered_key x obj)
          else json_deserial_items rest obj
      | _ => json_deserial_items rest obj
      end
  end.

(** [json_deserial]: the [object_hook] of the decoder. *)
Definition json_deserial (obj : value) : result value :=
  match obj with
  | VDict d => d' <- json_deserial_items d d ;; Ok (VDict d')
  | _ => Ok obj
  end.

End Handlers.

(** ** The [json] decoder

    [json.loads(text, object_hook=...)]: one pass over the text; the hook
    runs on every object as soon as its closing brace is read, so a hook
    that raises ends the scan at that point. *)

(** The syntax tree of a JSON text, every member of an object kept. *)
Inductive raw :=
| RNull
| RBool (b : bool)
| RInt (z : Z)
| RStr (s : string)
| RArr (items : list raw)
| RObj (members : list (string * raw)).

(** What the scanner builds from the pieces it reads. *)
Record builder (A : Type) := {
  b_null : A;
  b_bool : bool -> A;
  b_int : Z -> A;
  b_str : string -> A;
  b_arr : list A -> A;
  b_obj : list (string * A) -> result A }.

Arguments b_null {A}.
Arguments b_bool {A}.
Arguments b_int {A}.
Arguments b_str {A}.
Arguments b_arr {A}.
Arguments b_obj {A}.

Definition raw_builder : builder raw := {|
  b_null := RNull; b_bool := RBool; b_int := RInt; b_str := RStr;
  b_arr := RArr; b_obj := fun members => Ok (RObj members) |}.

(** Python objects: [pairs = dict(pairs)], then [object_hook(pairs)]. *)
Definition py_builder (object_hook : value -> result value) : builder value := {|
  b_null := VNone; b_bool := VBool; b_int := VInt; b_str := VStr;
  b_arr := VList;
  b_obj := fun pairs => object_hook (VDict (dict_of_pairs pairs)) |}.

Definition is_ws (c : ascii) : bool :=
  match c with
  | " "%char | "009"%char | "010"%char | "013"%char => true
  | _ => false
  end.

Fixpoint skip_ws (s : string) : string :=
  match s with
  | String c r => if is_ws c then skip_ws r else s
  | "" => ""
  end.

Definition hex_value (c : ascii) : option N :=
  let n := N_of_ascii c in
  if ((48 <=? n) && (n <=? 57))%N then Some (n - 48)%N
  else if ((97 <=? n) && (n <=? 102))%N then Some (n - 87)%N
  else if ((65 <=? n) && (n <=? 70))%N then Some (n - 55)%N
  else None.

Definition hex4 (a b c d : ascii) : option N :=
  match hex_value a, hex_value b, hex_value c, hex_value d with
  | Some x, Some y, Some z, Some w => Some (((x * 16 + y) * 16 + z) * 16 + w)%N
  | _, _, _, _ => None
  end.

Definition backslash (c : ascii) : option ascii :=
  match c with
  | "034"%char => Some "034"%char
  | "\"%char => Some "\"%char
  | "/"%char => Some "/"%char
  | "b"%char => Some "008"%char
  | "f"%char => Some "012"%char
  | "n"%char => Some "010"%char
  | "r"%char => Some "013"%char
  | "t"%char => Some "009"%char
  | _ => None
  end.

(** [scanstring], strict, from just after the opening quote: the decoded
    content and the text after the closing quote. *)
Fixpoint scanstring (s : string) : result (string * string) :=
  match s with
  | "" => Raise JSONDecodeError
  | String c r =>
      if Ascii.eqb c "034" then Ok ("", r)
      else if Ascii.eqb c "\" then
        match r with
        | "" => Raise JSONDecodeError
        | String e r' =>
            if Ascii.eqb e "u" then
              match r' with
              | String h1 (String h2 (String h3 (String h4 r''))) =>
                  match hex4 h1 h2 h3 h4 with
                  | Some n =>
                      if (n <? 256)%N then
                        '(t, rest) <- scanstring r'' ;; Ok (String (ascii_of_N n) t, rest)
                      else Unmodelled
                  | None => Raise JSONDecodeError
                  end
              | _ => Raise JSONDecodeError
              end
            else
              match backslash e with
              | Some ch => '(t, rest) <- scanstring r' ;; Ok (String ch t, rest)
              | None => Raise JSONDecodeError
              end
        end
      else if (N_of_ascii c <? 32)%N then Raise JSONDecodeError
      else '(t, rest) <- scanstring r ;; Ok (String c t, rest)
  end.

Fixpoint span_digits (s : string) : string * string :=
  match s with
  | String c r =>
      if isdigit c then let (ds, rest) := span_digits r in (String c ds, rest)
      else ("", s)
  | "" => ("", "")
  end.

Definition value_of_digits (ds : string) : Z :=
  match NilEmpty.uint_of_string ds with
  | Some u => Z.of_N (N.of_uint u)
  | None => 0
  end.

(** Whether a fraction or an exponent follows the integer part. *)
Definition float_tail (s : string) : bool :=
  match s with
  | String "." (String c _) => isdigit c
  | String e r =>
      if Ascii.eqb e "e" || Ascii.eqb e "E" then
        match r with
        | String sg (String c _) =>
            if Ascii.eqb sg "+" || Ascii.eqb sg "-" then isdigit c else isdigit sg
        | String c "" => isdigit c
        | "" => false
        end
      else false
  | "" => false
  end.

(** The number pattern of the scanner: an optional minus sign, then a
    zero or a digit string without leading zero, then an optional
    fraction and exponent. [None] when no number starts here; a number
    with a fraction or an exponent is a float. *)
Definition match_number (s : string) : option (result Z * string) :=
  let neg := match s with String c _ => Ascii.eqb c "-" | "" => false end in
  let body :=
    match s with
    | String c r => if Ascii.eqb c "-" then r else s
    | "" => s
    end in
  match body with
  | "" => None
  | String c r =>
      if Ascii.eqb c "0" then
        Some (if float_tail r then Unmodelled else Ok 0, r)
      else if isdigit c then
        let (ds, rest) := span_digits body in
        Some (if float_tail rest then Unmodelled
              else Ok (if neg then - value_of_digits ds else value_of_digits ds),
              rest)
      else None
  end.

Fixpoint starts_with (p s : string) : option string :=
  match p, s with
  | "", _ => Some s
  | String a p', String b s' => if Ascii.eqb a b then starts_with p' s' else None
  | _, "" => None
  end.

Section Scanner.
Context {A : Type} (B : builder A).

(** The constants and numbers of [scan_once]. *)
Definition scan_atom (s : string) : result (A * string) :=
  match starts_with "null" s, starts_with "true" s, starts_with "false" s with
  | Some rest, _, _ => Ok (b_null B, rest)
  | _, Some rest, _ => Ok (b_bool B true, rest)
  | _, _, Some rest => Ok (b_bool B false, rest)
  | None, None, None =>
      match match_number s with
      | Some (num, rest) => z <- num ;; Ok (b_int B z, rest)
      | None =>
          match starts_with "NaN" s, starts_with "Infinity" s,
                starts_with "-Infinity" s with
          | None, None, None => Raise JSONDecodeError
          | _, _, _ => Unmodelled
          end
      end
  end.

(** [scan_once] with [JSONObject] and [JSONArray]; [n] bounds the depth
    of the calls: two of them at most for a character read. *)
Fixpoint scan_once (n : nat) (s : string) {struct n} : result (A * string) :=
  match n with
  | O => Unmodelled
  | S n' =>
      match s with
      | "" => Raise JSONDecodeError
      | String c r =>
          if Ascii.eqb c "034" then
            '(str, rest) <- scanstring r ;; Ok (b_str B str, rest)
          else if Ascii.eqb c "{" then
            match skip_ws r with
            | "" => Raise JSONDecodeError
            | String c1 r1 =>
                if Ascii.eqb c1 "}" then v <- b_obj B [] ;; Ok (v, r1)
                else if Ascii.eqb c1 "034" then
                  '(pairs, rest) <- object_members n' r1 ;;
                  v <- b_obj B pairs ;; Ok (v, rest)
                else Raise JSONDecodeError
            end
          else if Ascii.eqb c "[" then
            match skip_ws r with
            | "" => Raise JSONDecodeError
            | String c1 r1 =>
                if Ascii.eqb c1 "]" then Ok (b_arr B [], r1)
                else
                  '(values, rest) <- array_items n' (String c1 r1) ;;
                  Ok (b_arr B values, rest)
            end
          else scan_atom s
      end
  end

(** The members of an object, from just after the opening quote of a
    key up to the closing brace. *)
with object_members (n : nat) (s : string) {struct n}
    : result (list (string * A) * string) :=
  match n with
  | O => Unmodelled
  | S n' =>
      '(key, s1) <- scanstring s ;;
      match skip_ws s1 with
      | "" => Raise JSONDecodeError
      | String c2 s2 =>
          if Ascii.eqb c2 ":" then
            '(value, s3) <- scan_once n' (skip_ws s2) ;;
            match skip_ws s3 with
            | "" => Raise JSONDecodeError
            | String c4 s4 =>
                if Ascii.eqb c4 "}" then Ok ([(key, value)], s4)
                else if Ascii.eqb c4 "," then
                  match skip_ws s4 with
                  | "" => Raise JSONDecodeError
                  | String c5 s5 =>
                      if Ascii.eqb c5 "034" then
                        '(more, rest) <- object_members n' s5 ;;
                        Ok ((key, value) :: more, rest)
                      else Raise JSONDecodeError
                  end
                else Raise JSONDecodeError
            end
          else Raise JSONDecodeError
      end
  end

(** The items of an array, from the start of an item up to the closing
    bracket. *)
with array_items (n : nat) (s : string) {struct n}
    : result (list A * string) :=
  match n with
  | O => Unmodelled
  | S n' =>
      '(value, s1) <- scan_once n' s ;;
      match skip_ws s1 with
      | "" => Raise JSONDecodeError
      | String c2 s2 =>
          if Ascii.eqb c2 "]" then Ok ([value], s2)
          else if Ascii.eqb c2 "," then
            '(more, rest) <- array_items n' (skip_ws s2) ;;
            Ok (value :: more, rest)
          else Raise JSONDecodeError
      end
  end.

(** [JSONDecoder.decode]: white space around one value, nothing else. *)
Definition decode (s : string) : result A :=
  '(obj, rest) <- scan_once (S (2 * String.length s)) (skip_ws s) ;;
  match skip_ws rest with
  | "" => Ok obj
  | _ => Raise JSONDecodeError
  end.
End Scanner.

(** [json.loads(s, object_hook=hook)]. *)
Definition json_loads (object_hook : value -> result value) (s : string) : result value :=
  decode (py_builder object_hook) s.

(** The hook applied to a syntax tree in the order of the scan: the
    members of an object first, then the object itself. *)
Fixpoint hooked (object_hook : value -> result value) (t : raw) : result value :=
  match t with
  | RNull => Ok VNone
  | RBool b => Ok (VBool b)
  | RInt z => Ok (VInt z)
  | RStr s => Ok (VStr s)
  | RArr items =>
      values <- mapM (hooked object_hook) items ;;
      Ok (VList values)
  | RObj members =>
      pairs <- mapM (fun m => v <- hooked object_hook (snd m) ;; Ok (fst m, v)) members ;;
      object_hook (VDict (dict_of_pairs pairs))
  end.

(** ** The [json] encoder

    [json.dump(obj, fp, indent=2, default=...)] writes the chunks of
    [iterencode] one after the other; what matters of a run is the text
    written and how the generator ended. *)

Definition writer : Type := string * result unit.

Definition emit (s : string) : writer := (s, Ok tt).

Definition and_then (a b : writer) : writer :=
  match a with
  | (s, Ok _) => (s ++ fst b, snd b)
  | _ => a
  end.

Definition hex_digit (n : N) : ascii :=
  if (n <? 10)%N then ascii_of_N (48 + n) else ascii_of_N (87 + n).

(** One character of [encode_basestring_ascii]. *)
Definition escape_char (c : ascii) : string :=
  let n := N_of_ascii c in
  if Ascii.eqb c "034" then String "\" (String "034" "")
  else if Ascii.eqb c "\" then "\\"
  else if (n =? 8)%N then "\b"
  else if (n =? 12)%N then "\f"
  else if (n =? 10)%N then "\n"
  else if (n =? 13)%N then "\r"
  else if (n =? 9)%N then "\t"
  else if ((32 <=? n) && (n <=? 126))%N then String c ""
  else "\u00" ++ String (hex_digit (n / 16)) (String (hex_digit (n mod 16)) "").

Fixpoint escape_chars (s : string) : string :=
  match s with
  | "" => ""
  | String c r => escape_char c ++ escape_chars r
  end.

Definition encode_basestring_ascii (s : string) : string :=
  String "034" (escape_chars s ++ String "034" "").

Fixpoint spaces (n : nat) : string :=
  match n with O => "" | S n' => String " " (spaces n') end.

(** [newline_indent] at a nesting level, for [indent=2]. *)
Definition newline_indent (level : nat) : string :=
  String "010" (spaces (2 * level)).

(** The loop of [_iterencode_list] over the items, [enc] writing one
    item. *)
Fixpoint write_items (enc : value -> writer) (level : nat) (first : bool)
    (l : list value) : writer :=
  match l with
  | [] => emit ""
  | v :: l' =>
      and_then
        (emit (if first then newline_indent (S level)
               else "," ++ newline_indent (S level)))
        (and_then (enc v) (write_items enc level false l'))
  end.

(** The loop of [_iterencode_dict] over the items of the mapping. *)
Fixpoint write_members (enc : value -> writer) (level : nat) (first : bool)
    (l : dict) : writer :=
  match l with
  | [] => emit ""
  | (key, v) :: l' =>
      and_then
        (emit ((if first then "" else "," ++ newline_indent (S level))
               ++ encode_basestring_ascii key ++ ": "))
        (and_then (enc v) (write_members enc level false l'))
  end.

Section Encoder.
Variable default : value -> result value.

(** [_iterencode] with [_iterencode_list] and [_iterencode_dict]; [n]
    bounds the depth of the calls. *)
Fixpoint iterencode (n : nat) (o : value) (level : nat) {struct n} : writer :=
  match n with
  | O => ("", Unmodelled)
  | S n' =>
      match o with
      | VStr s => emit (encode_basestring_ascii s)
      | VNone => emit "null"
      | VBool true => emit "true"
      | VBool false => emit "false"
      | VInt z => emit (str_of_int z)
      | VList [] => emit "[]"
      | VList lst =>
          and_then (emit "[")
            (and_then
               (write_items (fun v => iterencode n' v (S level)) level true lst)
               (emit (newline_indent level ++ "]")))
      | VDict [] => emit "{}"
      | VDict dct =>
          and_then (emit ("{" ++ newline_indent (S level)))
            (and_then
               (write_members (fun v => iterencode n' v (S level)) level true dct)
               (emit (newline_indent level ++ "}")))
      | _ =>
          match default o with
          | Ok o' => iterencode n' o' level
          | Raise e => ("", Raise e)
          | Unmodelled => ("", Unmodelled)
          end
      end
  end.
End Encoder.

(** The depth of the calls [iterencode] makes on a value when [default]
    is [json_serial]. *)
Fixpoint encode_depth (o : value) : nat :=
  match o with
  | VList l => S (fold_right (fun v n => Nat.max (encode_depth v) n) O l)
  | VDict d => S (fold_right (fun kv n => Nat.max (encode_depth (snd kv)) n) O d)
  | VNdarray l => S (S (fold_right (fun v n => Nat.max (encode_depth v) n) O l))
  | VStl _ v => S (encode_depth v)
  | VDatetime _ | VDate _ | VTimedelta _ => 3%nat
  | VNumpyInt _ _ => 2%nat
  | _ => 1%nat
  end.

(** ** The file store *)

Inductive unreadable := NoPermission | Directory | BadEncoding.

(** What a path that exists leads to: a text file, or something
    [read_text] fails on. *)
Inductive node :=
| File (text : string)
| Unreadable (why : unreadable).

Definition fs : Type := string -> option node.

Definition exists_ (store : fs) (path : string) : bool :=
  match store path with Some _ => true | None => false end.

Definition read_text (store : fs) (path : string) : result string :=
  match store path with
  | Some (File text) => Ok text
  | Some (Unreadable NoPermission) => Raise (OSError PermissionError)
  | Some (Unreadable Directory) => Raise (OSError IsADirectoryError)
  | Some (Unreadable BadEncoding) => Raise UnicodeDecodeError
  | None => Raise (OSError FileNotFoundError)
  end.

Definition write_text (path text : string) (store : fs) : fs :=
  fun q => if String.eqb q path then Some (File text) else store q.

(** ** [dict.update] and [sorted] *)

Definition hashable (v : value) : result bool :=
  match v with
  | VNone | VBool _ | VInt _ | VStr _ | VDatetime _ | VDate _ | VTimedelta _ => Ok true
  | VList _ | VDict _ => Ok false
  | _ => Unmodelled
  end.

(** One element of [d.update(iterable)]: a sequence of exactly two items,
    the first of which becomes the key. *)
Definition update_element (d : dict) (element : value) : result dict :=
  match element with
  | VStr (String k (String v "")) => Ok (dict_set (String k "") (VStr (String v "")) d)
  | VStr _ => Raise ValueError
  | VList [k; v] =>
      match k with
      | VStr key => Ok (dict_set key v d)
      | _ => h <- hashable k ;; if h then Unmodelled else Raise (TypeError None)
      end
  | VList _ => Raise ValueError
  | VDict [(k1, _); (k2, _)] => Ok (dict_set k1 (VStr k2) d)
  | VDict _ => Raise ValueError
  | VNone | VBool _ | VInt _ => Raise (TypeError None)
  | _ => Unmodelled
  end.

Fixpoint update_elements (d : dict) (elements : list value) : result dict :=
  match elements with
  | [] => Ok d
  | e :: rest => d' <- update_element d e ;; update_elements d' rest
  end.

(** [file_data.update(in_data)]: [update] is a method of mappings; its
    argument is a mapping or an iterable of key/value pairs. *)
Definition py_update (file_data in_data : value) : result value :=
  match file_data with
  | VDict d =>
      match in_data with
      | VDict other => Ok (VDict (dict_update d other))
      | VList elements => d' <- update_elements d elements ;; Ok (VDict d')
      | VStr s => d' <- update_elements d (map (fun c => VStr (String c "")) (list_ascii_of_string s)) ;;
                  Ok (VDict d')
      | VNone | VBool _ | VInt _ => Raise (TypeError None)
      | _ => Unmodelled
      end
  | VNone | VBool _ | VInt _ | VStr _ | VList _ => Raise AttributeError
  | _ => Unmodelled
  end.

(** [a < b] on sort keys: within [str], and within [int] and [bool]. *)
Definition py_lt (a b : value) : result bool :=
  let as_int := fun v =>
    match v with
    | VInt z => Some z
    | VBool true => Some 1
    | VBool false => Some 0
    | _ => None
    end in
  match a, b with
  | VStr x, VStr y => Ok (String.ltb x y)
  | VStr _, (VNone | VBool _ | VInt _ | VList _ | VDict _)
  | (VNone | VBool _ | VInt _ | VList _ | VDict _), VStr _ => Raise (TypeError None)
  | _, _ =>
      match as_int a, as_int b with
      | Some x, Some y => Ok (x <? y)
      | Some _, None =>
          match b with
          | VNone | VList _ | VDict _ => Raise (TypeError None)
          | _ => Unmodelled
          end
      | None, Some _ =>
          match a with
          | VNone | VList _ | VDict _ => Raise (TypeError None)
          | _ => Unmodelled
          end
      | None, None =>
          match a, b with
          | VNone, VNone | VDict _, VDict _ => Raise (TypeError None)
          | _, _ => Unmodelled
          end
      end
  end.

Section Sorted.
Context {A : Type}.

(** Insertion behind the elements that are not greater. *)
Fixpoint insert_keyed (x : value * A) (l : list (value * A)) : result (list (value * A)) :=
  match l with
  | [] => Ok [x]
  | y :: l' =>
      lt <- py_lt (fst x) (fst y) ;;
      if lt then Ok (x :: y :: l')
      else l'' <- insert_keyed x l' ;; Ok (y :: l'')
  end.

(** [sorted(xs, key=key)]: the keys are computed first; the order is the
    stable ascending one. *)
Definition sorted (key : A -> result value) (xs : list A) : result (list A) :=
  keyed <- mapM (fun x => k <- key x ;; Ok (k, x)) xs ;;
  ordered <- fold_left (fun acc x => l <- acc ;; insert_keyed x l) keyed (Ok []) ;;
  Ok (map snd ordered).
End Sorted.

(** The [sort_fn] argument of [save_data]. *)
Inductive sort_arg :=
| SortNone
| SortNotCallable
| SortKey (f : value -> result value).

Section Mixin.
Variable dateutil_parse : string -> result datetime.

(** The chunks [json.dump] and [json.dumps] get from the encoder made
    with [indent=2] and [default=self.json_serial]: the text, and how
    the generator ends. *)
Definition encoded (in_obj : value) : writer :=
  iterencode (json_serial dateutil_parse) (encode_depth in_obj) in_obj 0.

(** [to_json_str]. *)
Definition to_json_str (in_obj : value) : result string :=
  _ <- snd (encoded in_obj) ;; Ok (fst (encoded in_obj)).

(** [from_json_str]. *)
Definition from_json_str (in_str : string) : result value :=
  match in_str with
  | "" => Raise ValueError
  | _ => json_loads (json_deserial dateutil_parse) in_str
  end.

(** [dump_to_json_file]: the file is opened for writing, which empties
    it, then the chunks are written. When the encoder raises, [close] is
    not reached; the file is left with what had been written, which the
    runtime flushes when it disposes of the file object. *)
Definition dump_to_json_file (store : fs) (in_obj : value) (in_file : string)
    : result unit * fs :=
  match store in_file with
  | Some (Unreadable _) => (Unmodelled, store)
  | _ =>
      (snd (encoded in_obj), write_text in_file (fst (encoded in_obj)) store)
  end.

(** [load_json_file]. *)
Definition load_json_file (store : fs) (in_filepath : string) : result value :=
  if negb (exists_ store in_filepath) then Ok (VDict [])
  else
    match (text <- read_text store in_filepath ;; from_json_str text) with
    | Ok v => Ok v
    | Raise err =>
        if isinstance_OSError err || isinstance_ValueError err
        then Raise (JSONDeserializeError err)
        else Raise err
    | Unmodelled => Unmodelled
    end.

(** [update_json_file]; the creation of the parent directories is not
    recorded in the store. *)
Definition update_json_file (store : fs) (in_filepath : string) (in_data : value)
    : result unit * fs :=
  match load_json_file store in_filepath with
  | Ok file_data =>
      match py_update file_data in_data with
      | Ok merged => dump_to_json_file store merged in_filepath
      | Raise e => (Raise e, store)
      | Unmodelled => (Unmodelled, store)
      end
  | Raise e => (Raise e, store)
  | Unmodelled => (Unmodelled, store)
  end.

(** ** [SimpleJSON] *)

Definition load_data (store : fs) (file : string) : result value :=
  all_data <- load_json_file store file ;;
  match all_data with
  | VDict _ | VList _ => Ok all_data
  | VNone | VBool _ | VInt _ | VStr _ => Raise AttributeError
  | _ => Unmodelled
  end.

Definition save_data (store : fs) (file : string) (data : value) (sort_fn : sort_arg)
    : result unit * fs :=
  match sort_fn with
  | SortNotCallable => (Raise (TypeError None), store)
  | SortNone => update_json_file store file data
  | SortKey f =>
      match data with
      | VDict d =>
          match sorted (fun k => f (VStr k)) (map fst d) with
          | Ok key_list =>
              let sorted_data :=
                dict_of_pairs
                  (map (fun k => (k, match dict_get k d with Some v => v | None => VNone end))
                       key_list) in
              update_json_file store file (VDict sorted_data)
          | Raise e => (Raise e, store)
          | Unmodelled => (Unmodelled, store)
          end
      | VList l =>
          match sorted f l with
          | Ok sorted_data => update_json_file store file (VList sorted_data)
          | Raise e => (Raise e, store)
          | Unmodelled => (Unmodelled, store)
          end
      | _ => (Raise (TypeError None), store)
      end
  end.
End Mixin.

(** ** [_set_kwargs] *)

Section SetKwargs.
Context {V : Type}.

(** [k in kwargs]. *)
Definition has_key (k : string) (kwargs : list (string * V)) : bool :=
  match assoc_get String.eqb k kwargs with Some _ => true | None => false end.

(** [_set_kwargs]: the loop over [default_kwargs.items()]. The caller's
    [kwargs] are updated in place; [warned] collects the keys a
    [UserWarning] is issued for. With [override] the caller's value of a
    key stays; without it the default replaces it. *)
Fixpoint _set_kwargs (kwargs : list (string * V)) (warned : list string)
    (default_kwargs : list (string * V)) (override : bool)
    : list (string * V) * list string :=
  match default_kwargs with
  | [] => (kwargs, warned)
  | (dkw_arg, dkw_val) :: rest =>
      if has_key dkw_arg kwargs then
        if override then _set_kwargs kwargs warned rest override
        else _set_kwargs (assoc_set String.eqb dkw_arg dkw_val kwargs)
                         (warned ++ [dkw_arg])%list rest override
      else _set_kwargs (assoc_set String.eqb dkw_arg dkw_val kwargs) warned rest override
  end.
End SetKwargs.

(** ** [get_list] *)

(** The [return_type] argument: the class that is called to make the
    container; [ReturnOther] is a class that is no [dict], [list] or
    [set]. *)
Inductive return_type :=
| ReturnDict
| ReturnList
| ReturnSet
| ReturnOther (qualname : string).

(** The container being filled; a [set] is given by its elements in the
    order they came in. *)
Inductive container :=
| CDict (d : dict)
| CList (l : list value)
| CSet (elements : list value)
| COther (qualname : string).

Definition new_container (t : return_type) : container :=
  match t with
  | ReturnDict => CDict []
  | ReturnList => CList []
  | ReturnSet => CSet []
  | ReturnOther q => COther q
  end.

Definition date_eqb (a b : date) : bool :=
  (d_year a =? d_year b) && (d_month a =? d_month b) && (d_day a =? d_day b).

Definition datetime_eqb (a b : datetime) : bool :=
  (year a =? year b) && (month a =? month b) && (day a =? day b)
  && (hour a =? hour b) && (minute a =? minute b) && (second a =? second b)
  && (microsecond a =? microsecond b).

Definition timedelta_eqb (a b : timedelta) : bool :=
  (days a =? days b) && (seconds a =? seconds b) && (microseconds a =? microseconds b).

(** [a == b] between hashable values: a [bool] compares as the [int] it
    is. *)
Definition py_eq (a b : value) : bool :=
  match a, b with
  | VNone, VNone => true
  | VStr x, VStr y => String.eqb x y
  | VInt x, VInt y => x =? y
  | VInt x, VBool y | VBool y, VInt x => x =? (if y then 1 else 0)
  | VBool x, VBool y => Bool.eqb x y
  | VDatetime x, VDatetime y => datetime_eqb x y
  | VDate x, VDate y => date_eqb x y
  | VTimedelta x, VTimedelta y => timedelta_eqb x y
  | _, _ => false
  end.

(** What [get_list] returns for a [return_mode]. *)
Inductive get_list_result :=
| Found (rv : container)
| NotFound (not_found_rv : list value)
| FoundAndNot (rv : container) (not_found_rv : list value).

(** [key_mangler(ele)] when a mangler is given. *)
Definition mangled (key_mangler : option (value -> result value)) (ele : value)
    : result value :=
  match key_mangler with
  | Some f => f ele
  | None => Ok ele
  end.

(** One round of the loop of [get_list] over a mapping loaded from a
    file, whose keys are strings: a key that is no string is not found,
    one that cannot be hashed is a [TypeError]. *)
Definition get_list_element (cur_data : dict)
    (key_mangler : option (value -> result value))
    (state : container * list value) (ele : value) : result (container * list value) :=
  let (rv, not_found_rv) := state in
  ele <- mangled key_mangler ele ;;
  match ele with
  | VStr k =>
      match dict_get k cur_data with
      | Some got_data =>
          match rv with
          | CDict d => Ok (CDict (dict_set k got_data d), not_found_rv)
          | CList l => Ok (CList (l ++ [got_data])%list, not_found_rv)
          | CSet elements =>
              h <- hashable got_data ;;
              if h then
                Ok (CSet (if existsb (py_eq got_data) elements then elements
                          else (elements ++ [got_data])%list), not_found_rv)
              else Raise (TypeError None)
          | COther _ => Raise (TypeError None)
          end
      | None => Ok (rv, (not_found_rv ++ [ele])%list)
      end
  | _ =>
      h <- hashable ele ;;
      if h then Ok (rv, (not_found_rv ++ [ele])%list) else Raise (TypeError None)
  end.

Fixpoint get_list_loop (cur_data : dict) (key_mangler : option (value -> result value))
    (state : container * list value) (in_list : list value)
    : result (container * list value) :=
  match in_list with
  | [] => Ok state
  | ele :: rest =>
      state' <- get_list_element cur_data key_mangler state ele ;;
      get_list_loop cur_data key_mangler state' rest
  end.

Section Queries.
Variable dateutil_parse : string -> result datetime.

(** [get_list] of a [SimpleJSON], whose [load_data] reads the file; a
    file that holds a sequence is left outside the model. *)
Definition get_list (store : fs) (file : string) (in_list : list value)
    (key_mangler : option (value -> result value)) (return_type : return_type)
    (return_mode : Z) : result get_list_result :=
  cur_data <- load_data dateutil_parse store file ;;
  match cur_data with
  | VDict d =>
      '(rv, not_found_rv) <-
        get_list_loop d key_mangler (new_container return_type, []) in_list ;;
      if return_mode =? 0 then Ok (Found rv)
      else if return_mode =? 1 then Ok (NotFound not_found_rv)
      else Ok (FoundAndNot rv not_found_rv)
  | _ => Unmodelled
  end.
End Queries.

(** ** [root_convert.py]: the names of what is converted *)

(** [s.replace(old, new)]: the occurrences of [old] from the left, none
    overlapping another; [skip] counts the characters of an occurrence
    that are still to be passed. *)
Fixpoint replace_from (old new : string) (skip : nat) (s : string) : string :=
  match s with
  | "" => match old with "" => new | _ => "" end
  | String c r =>
      match skip with
      | S k => replace_from old new k r
      | O =>
          if String.prefix old s then
            match old with
            | "" => new ++ String c (replace_from old new 0 r)
            | String _ old' => new ++ replace_from old new (String.length old') r
            end
          else String c (replace_from old new 0 r)
      end
  end.

Definition replace (old new s : string) : string := replace_from old new 0 s.

(** [convert_to_parquet]: the text of [c_name], the name under which the
    object of a key is written:
    [key_name.replace(";1", "").replace(";", "_")]. *)
Definition c_name_of_key (key_name : string) : string :=
  replace ";" "_" (replace ";1" "" key_name).

(** [make_duckdb] and the other builders: the name of the table of a
    file, [ff.name.split(".")[0]]. *)
Definition t_name (name : string) : string := hd "" (split "." name).

(** ** Vocabulary of the statements *)

(** Encode with a handler, then decode what it wrote. *)
Definition round_trip (h : JSONSerializer) (v : value) : result value :=
  r <- serialize h v ;; deserialize h (VStr r).

Fixpoint all_chars (p : ascii -> bool) (s : string) : bool :=
  match s with
  | "" => true
  | String c r => p c && all_chars p r
  end.

(** A JSON text written with apostrophes in place of double quotes. *)
Fixpoint dq (s : string) : string :=
  match s with
  | "" => ""
  | String c r => String (if Ascii.eqb c "'" then "034"%char else c) (dq r)
  end.

Definition no_files : fs := fun _ => None.

(** A store with one text file. *)
Definition one_file (path text : string) : fs := write_text path text no_files.

(** *** A parser to run examples with

    [isoparse] reads the two layouts [isoformat] writes, as
    [dateutil.parser.parse] does, and leaves every other text aside. *)

Definition digit_value (c : ascii) : option Z :=
  if isdigit c then Some (Z.of_N (N_of_ascii c) - 48) else None.

Fixpoint fixed_digits (n : nat) (acc : Z) (s : string) : option (Z * string) :=
  match n with
  | O => Some (acc, s)
  | S n' =>
      match s with
      | String c r =>
          match digit_value c with
          | Some d => fixed_digits n' (10 * acc + d) r
          | None => None
          end
      | "" => None
      end
  end.

Definition expect (c : ascii) (s : string) : option string :=
  match s with
  | String c' r => if Ascii.eqb c c' then Some r else None
  | "" => None
  end.

Definition days_in_month (y m : Z) : Z :=
  if m =? 2 then
    if (y mod 4 =? 0) && (negb (y mod 100 =? 0) || (y mod 400 =? 0)) then 29 else 28
  else if (m =? 4) || (m =? 6) || (m =? 9) || (m =? 11) then 30
  else 31.

Definition option_bind {A B} (m : option A) (f : A -> option B) : option B :=
  match m with Some a => f a | None => None end.

Definition iso_date (s : string) : option (date * string) :=
  option_bind (fixed_digits 4 0 s) (fun '(y, s1) =>
  option_bind (expect "-" s1) (fun s2 =>
  option_bind (fixed_digits 2 0 s2) (fun '(m, s3) =>
  option_bind (expect "-" s3) (fun s4 =>
  option_bind (fixed_digits 2 0 s4) (fun '(d, s5) =>
  if (1 <=? y) && (1 <=? m) && (m <=? 12) && (1 <=? d) && (d <=? days_in_month y m)
  then Some (mk_date y m d, s5) else None))))).

Definition iso_time (s : string) : option (Z * Z * Z * Z) :=
  option_bind (fixed_digits 2 0 s) (fun '(h, s1) =>
  option_bind (expect ":" s1) (fun s2 =>
  option_bind (fixed_digits 2 0 s2) (fun '(mi, s3) =>
  option_bind (expect ":" s3) (fun s4 =>
  option_bind (fixed_digits 2 0 s4) (fun '(se, s5) =>
  if (h <=? 23) && (mi <=? 59) && (se <=? 59) then
    match s5 with
    | "" => Some (h, mi, se, 0)
    | _ =>
        option_bind (expect "." s5) (fun s6 =>
        match fixed_digits 6 0 s6 with
        | Some (us, "") => Some (h, mi, se, us)
        | _ => None
        end)
    end
  else None))))).

Definition isoparse (s : string) : result datetime :=
  match iso_date s with
  | Some (d, "") => Ok (mk_datetime (d_year d) (d_month d) (d_day d) 0 0 0 0)
  | Some (d, rest) =>
      match option_bind (expect "T" rest) iso_time with
      | Some (h, mi, se, us) =>
          Ok (mk_datetime (d_year d) (d_month d) (d_day d) h mi se us)
      | None => Unmodelled
      end
  | None => Unmodelled
  end.

(** *** Documents and the decode hook *)

(** The value of a syntax tree when no hook is given. *)
Fixpoint plain (t : raw) : value :=
  match t with
  | RNull => VNone
  | RBool b => VBool b
  | RInt z => VInt z
  | RStr s => VStr s
  | RArr items => VList (map plain items)
  | RObj members => VDict (dict_of_pairs (map (fun m => (fst m, plain (snd m))) members))
  end.

(** No object of the tree has a member named [__type__]. *)
Fixpoint quiet (t : raw) : bool :=
  match t with
  | RArr items => forallb quiet items
  | RObj members =>
      forallb (fun m => negb (String.eqb (fst m) "__type__") && quiet (snd m)) members
  | _ => true
  end.

(** A value the loop of [json_deserial] steps over. *)
Definition inert (v : value) : bool :=
  match v with
  | VDict inner => negb (dict_contains "__type__" inner)
  | _ => true
  end.

(** The two-member mapping [json_serial] writes for a serializer. *)
Definition envelope (tag payload : string) : raw :=
  RObj [("__type__", RStr tag); ("repr", RStr payload)].


(** No object of the tree is the value of a member of another object:
    the objects are the whole document or items of arrays. *)
Definition is_object (t : raw) : bool :=
  match t with RObj _ => true | _ => false end.

Fixpoint flat (t : raw) : bool :=
  match t with
  | RArr items => forallb flat items
  | RObj members =>
      forallb (fun m => negb (is_object (snd m)) && flat (snd m)) members
  | _ => true
  end.




(** What [json_deserial] does with a mapping that has the key
    [__type__]: the body of its [if]. *)
Definition open_envelope (dateutil_parse : string -> result datetime) (inner : dict)
    : result value :=
  '(recover_type, inner1) <- dict_pop "__type__" inner ;;
  '(recover_repr, _) <- dict_pop "repr" inner1 ;;
  recover dateutil_parse recover_type recover_repr.

(** *** Trees to encode *)

(** No float and no frame in the tree: every object in it is modelled. *)
Fixpoint modelled (v : value) : bool :=
  match v with
  | VList l | VNdarray l => forallb modelled l
  | VDict d => forallb (fun kv => modelled (snd kv)) d
  | VStl _ v' => modelled v'
  | VOpaque (O_other _) => true
  | VOpaque _ => false
  | _ => true
  end.

(** Some object in the tree is of a class outside the registry. *)
Fixpoint has_unregistered (v : value) : bool :=
  match v with
  | VList l | VNdarray l => existsb has_unregistered l
  | VDict d => existsb (fun kv => has_unregistered (snd kv)) d
  | VStl _ v' => has_unregistered v'
  | VOpaque (O_other _) => true
  | _ => false
  end.


(** One member of an object, its value seen by the hook. *)
Definition hooked_member (object_hook : value -> result value) (m : string * raw)
    : result (string * value) :=
  v <- hooked object_hook (snd m) ;; Ok (fst m, v).

(** What [load_json_file] does with the outcome of [from_json_str]: its
    [except (OSError, ValueError)]. *)
Definition reraised (r : result value) : result value :=
  match r with
  | Ok v => Ok v
  | Raise err =>
      if isinstance_OSError err || isinstance_ValueError err
      then Raise (JSONDeserializeError err)
      else Raise err
  | Unmodelled => Unmodelled
  end.

(** How a run of the encoder ends on a tree: with the [KeyError] of the
    registry when the tree has an object of an unregistered class, and
    well otherwise. *)
Definition ends_as (v : value) (r : result unit) : Prop :=
  if has_unregistered v
  then exists q, r = Raise (KeyError (KeyOfType (T_other q)))
  else r = Ok tt.


(** *** Sorting strings *)

(** Insertion behind the strings that are not greater, and the sort it
    gives: what [sorted] does on strings with the identity as key. *)
Fixpoint insert_str (x : string) (ys : list string) : list string :=
  match ys with
  | [] => [x]
  | y :: ys' => if String.ltb x y then x :: y :: ys' else y :: insert_str x ys'
  end.

Definition sort_strs (xs : list string) : list string :=
  fold_left (fun acc x => insert_str x acc) xs [].

(** A string with itself as sort key. *)
Definition keyed_str (s : string) : value * value := (VStr s, VStr s).

(** The order [sorted] gives: no element is greater than the next. *)
Fixpoint ascending (ys : list string) : Prop :=
  match ys with
  | [] => True
  | y :: ys' =>
      match ys' with
      | [] => True
      | y' :: _ => String.ltb y' y = false
      end /\ ascending ys'
  end.


(** *** Reading back what was written *)

(** What may follow a value in what the encoder writes: a comma, a new
    line, or the end. *)
Definition follows (rest : string) : bool :=
  match rest with
  | "" => true
  | String c _ => Ascii.eqb c "," || Ascii.eqb c "010"
  end.

(** The syntax tree of the text written for a native value. *)
Fixpoint raw_of (v : value) : raw :=
  match v with
  | VBool b => RBool b
  | VInt z => RInt z
  | VStr s => RStr s
  | VList l => RArr (map raw_of l)
  | VDict d => RObj (map (fun kv => (fst kv, raw_of (snd kv))) d)
  | _ => RNull
  end.

(** Values the encoder writes without calling [default]. *)
Fixpoint json_native (v : value) : bool :=
  match v with
  | VNone | VBool _ | VInt _ | VStr _ => true
  | VList l => forallb json_native l
  | VDict d => forallb (fun kv => json_native (snd kv)) d
  | _ => false
  end.

(** What follows the first item of an array, and the first member of an
    object, in the text written at a nesting level. *)
Fixpoint items_text (enc : value -> writer) (level : nat) (l : list value)
    (rest : string) : string :=
  match l with
  | [] => newline_indent level ++ String "]" rest
  | v :: l' =>
      String "," (newline_indent (S level) ++ fst (enc v) ++ items_text enc level l' rest)
  end.

Definition member_text (enc : value -> writer) (key : string) (v : value)
    (tail : string) : string :=
  escape_chars key ++ String "034" (String ":" (String " " (fst (enc v) ++ tail))).

Fixpoint members_text (enc : value -> writer) (level : nat) (d : dict)
    (rest : string) : string :=
  match d with
  | [] => newline_indent level ++ String "}" rest
  | (key, v) :: d' =>
      String "," (newline_indent (S level)
                  ++ String "034" (member_text enc key v (members_text enc level d' rest)))
  end.

(** What the scan of one written value has to give for the scan of the
    array or object around it to go through. *)
Definition reads_back (enc : value -> writer) (v : value) : Prop :=
  (exists c r, fst (enc v) = String c r /\ is_ws c = false /\ Ascii.eqb c "]" = false)
  /\ forall rest m,
       follows rest = true ->
       (2 * String.length (fst (enc v) ++ rest) < m)%nat ->
       scan_once raw_builder m (fst (enc v) ++ rest) = Ok (raw_of v, rest).

(** Keys that are all different. *)
Fixpoint distinct (keys : list string) : bool :=
  match keys with
  | [] => true
  | k :: keys' => negb (existsb (String.eqb k) keys') && distinct keys'
  end.

(** Native values whose mappings have distinct keys, none of them
    [__type__]: the documents without envelopes. *)
Fixpoint ordinary (v : value) : bool :=
  match v with
  | VNone | VBool _ | VInt _ | VStr _ => true
  | VList l => forallb ordinary l
  | VDict d =>
      distinct (map fst d)
      && forallb (fun kv => negb (String.eqb (fst kv) "__type__") && ordinary (snd kv)) d
  | _ => false
  end.


(** *** Objects that come back *)

(** [timedelta_valid], decided. *)
Definition timedelta_validb (td : timedelta) : bool :=
  (Z.abs (days td) <=? 999999999)
  && (0 <=? seconds td) && (seconds td <? 86400)
  && (0 <=? microseconds td) && (microseconds td <? 1000000).

(** The native value the encoder writes in place of a value: an
    envelope for a duration and for a [datetime]. *)
Fixpoint written_as (v : value) : value :=
  match v with
  | VList l => VList (map written_as l)
  | VDict d => VDict (map (fun kv => (fst kv, written_as (snd kv))) d)
  | VTimedelta td =>
      VDict [("__type__", VStr "timedelta");
             ("repr", VStr (str_of_int (days td) ++ "," ++ str_of_int (seconds td)
                            ++ "," ++ str_of_int (microseconds td)))]
  | VDatetime dt =>
      VDict [("__type__", VStr "datetime"); ("repr", VStr (datetime_isoformat dt))]
  | _ => v
  end.

Section Storable.
Variable dateutil_parse : string -> result datetime.

(** Objects that come back as they were when held under a key: a
    duration, and a [datetime] whose text the parser reads as that
    [datetime]. *)
Definition restorable (v : value) : bool :=
  match v with
  | VTimedelta td => timedelta_validb td
  | VDatetime dt =>
      match dateutil_parse (datetime_isoformat dt) with
      | Ok dt' => datetime_eqb dt' dt
      | _ => false
      end
  | _ => false
  end.

(** Trees of native values in which such objects are held under keys
    of mappings only; the keys of a mapping are distinct and none is
    [__type__]. *)
Fixpoint storable (v : value) : bool :=
  match v with
  | VNone | VBool _ | VInt _ | VStr _ => true
  | VList l => forallb storable l
  | VDict d =>
      distinct (map fst d)
      && forallb (fun kv => negb (String.eqb (fst kv) "__type__")
                            && (storable (snd kv) || restorable (snd kv))) d
  | _ => false
  end.

(** What the hook of the mapping around it finds in place of a value. *)
Definition seen (v : value) : value :=
  if restorable v then written_as v else v.
End Storable.

(** *** Queries, names and texts *)

(** The values of the keys that are there, in the order asked. *)
Definition values_found (d : dict) (keys : list string) : list value :=
  flat_map (fun k => match dict_get k d with Some v => [v] | None => [] end) keys.

(** The keys that are not there, in the order asked. *)
Definition keys_missing (d : dict) (keys : list string) : list value :=
  map VStr (filter (fun k => negb (dict_contains k d)) keys).

(** The character does not occur in the string. *)
Definition no_char (c : ascii) (s : string) : bool :=
  all_chars (fun c' => negb (Ascii.eqb c' c)) s.

(** A printable ASCII character or a line feed. *)
Definition ascii_text (c : ascii) : bool :=
  let n := N_of_ascii c in ((n =? 10) || ((32 <=? n) && (n <=? 126)))%N.


(** * Properties *)

(** ** Strings and integers *)

Lemma split_no_sep sep s :
  all_chars (fun c => negb (Ascii.eqb c sep)) s = true -> split sep s = [s].
Proof.
  induction s as [|c r IH]; simpl; [reflexivity|].
  intros H. apply andb_prop in H as [Hc Hr].
  apply negb_true_iff in Hc. rewrite Hc, (IH Hr). reflexivity.
Qed.

Lemma split_app sep a b :
  all_chars (fun c => negb (Ascii.eqb c sep)) a = true ->
  split sep (a ++ String sep b) = a :: split sep b.
Proof.
  induction a as [|c r IH]; simpl.
  - intros _. rewrite Ascii.eqb_refl. reflexivity.
  - intros H. apply andb_prop in H as [Hc Hr].
    apply negb_true_iff in Hc. rewrite Hc, (IH Hr). reflexivity.
Qed.

Lemma all_chars_impl (p q : ascii -> bool) s :
  (forall c, p c = true -> q c = true) -> all_chars p s = true -> all_chars q s = true.
Proof.
  intros Hpq. induction s as [|c r IH]; simpl; [reflexivity|].
  intros H. apply andb_prop in H as [Hc Hr].
  rewrite (Hpq _ Hc), (IH Hr). reflexivity.
Qed.

Lemma digits_of_uint u : all_chars isdigit (NilEmpty.string_of_uint u) = true.
Proof. induction u; simpl; auto. Qed.

Lemma isdigit_cases c : isdigit c = true ->
  isspace c = false /\ Ascii.eqb c "," = false /\ Ascii.eqb c "_" = false
  /\ Ascii.eqb c "+" = false /\ Ascii.eqb c "-" = false.
Proof.
  destruct c as [[] [] [] [] [] [] [] []]; vm_compute; intros H;
    try discriminate H; repeat split.
Qed.

Lemma rstrip_no_space s : all_chars (fun c => negb (isspace c)) s = true -> rstrip s = s.
Proof.
  induction s as [|c r IH]; simpl; [reflexivity|].
  intros H. apply andb_prop in H as [Hc Hr].
  apply negb_true_iff in Hc. rewrite (IH Hr), Hc. destruct r; reflexivity.
Qed.

Lemma lstrip_no_space s : all_chars (fun c => negb (isspace c)) s = true -> lstrip s = s.
Proof.
  destruct s as [|c r]; simpl; [reflexivity|].
  intros H. apply andb_prop in H as [Hc _].
  apply negb_true_iff in Hc. rewrite Hc. reflexivity.
Qed.

Lemma int_digits_all b ds :
  all_chars isdigit ds = true -> ds <> "" -> int_digits b ds = Some ds.
Proof.
  revert b. induction ds as [|c r IH]; intros b H Hne; [congruence|].
  simpl in *. apply andb_prop in H as [Hc Hr]. rewrite Hc.
  destruct r as [|c' r'].
  - reflexivity.
  - rewrite (IH true Hr); [reflexivity | discriminate].
Qed.

Lemma string_of_uint_nonempty u : u <> Decimal.Nil -> NilEmpty.string_of_uint u <> "".
Proof. destruct u; simpl; congruence. Qed.

Lemma nat_of_digits_pos p :
  nat_of_digits (NilEmpty.string_of_uint (Pos.to_uint p)) = Ok (Zpos p).
Proof.
  unfold nat_of_digits.
  rewrite int_digits_all.
  - rewrite NilEmpty.usu. unfold N.of_uint.
    rewrite DecimalPos.Unsigned.of_to. reflexivity.
  - apply digits_of_uint.
  - apply string_of_uint_nonempty, DecimalPos.Unsigned.to_uint_nonnil.
Qed.

Lemma str_of_int_chars z :
  all_chars (fun c => isdigit c || Ascii.eqb c "-") (str_of_int z) = true.
Proof.
  assert (D : forall u, all_chars (fun c => isdigit c || Ascii.eqb c "-")
                          (NilEmpty.string_of_uint u) = true).
  { intros u. apply all_chars_impl with (p := isdigit); [|apply digits_of_uint].
    intros c ->. reflexivity. }
  destruct z; simpl; auto.
Qed.

Lemma str_of_int_no_comma z :
  all_chars (fun c => negb (Ascii.eqb c ",")) (str_of_int z) = true.
Proof.
  eapply all_chars_impl; [|apply str_of_int_chars].
  intros c H. apply orb_prop in H as [H|H].
  - apply isdigit_cases in H as (_ & -> & _). reflexivity.
  - apply Ascii.eqb_eq in H. subst c. reflexivity.
Qed.

Lemma str_of_int_no_space z :
  all_chars (fun c => negb (isspace c)) (str_of_int z) = true.
Proof.
  eapply all_chars_impl; [|apply str_of_int_chars].
  intros c H. apply orb_prop in H as [H|H].
  - apply isdigit_cases in H as (-> & _). reflexivity.
  - apply Ascii.eqb_eq in H. subst c. reflexivity.
Qed.

Lemma first_digit_of_pos p :
  exists c r, NilEmpty.string_of_uint (Pos.to_uint p) = String c r /\ isdigit c = true.
Proof.
  pose proof (digits_of_uint (Pos.to_uint p)) as D.
  pose proof (@string_of_uint_nonempty _ (DecimalPos.Unsigned.to_uint_nonnil p)) as N.
  destruct (NilEmpty.string_of_uint (Pos.to_uint p)) as [|c r]; [congruence|].
  simpl in D. apply andb_prop in D as [Dc _]. eauto.
Qed.

(** [int(str(z)) == z] for every integer. *)
Lemma int_of_str_of_int z : int_of_str (str_of_int z) = Ok z.
Proof.
  unfold int_of_str, strip.
  rewrite lstrip_no_space, rstrip_no_space by apply str_of_int_no_space.
  destruct z as [|p|p]; simpl.
  - reflexivity.
  - pose proof (nat_of_digits_pos p) as E.
    destruct (first_digit_of_pos p) as (c & r & Heq & Hc).
    rewrite Heq in E |- *.
    apply isdigit_cases in Hc as (_ & _ & _ & -> & ->). exact E.
  - rewrite nat_of_digits_pos. reflexivity.
Qed.

(** ** The duration handler *)

(** A normalised duration passes through the constructor unchanged. *)
Lemma timedelta_init_valid td :
  timedelta_valid td ->
  timedelta_init (days td) (seconds td) (microseconds td) 0 0 0 0 = Ok td.
Proof.
  destruct td as [d s us]. unfold timedelta_valid, timedelta_init.
  cbn [days seconds microseconds]. intros (Hd & Hs & Hus).
  set (total := ((d + 7 * 0) * 86400 + s + 60 * 0 + 3600 * 0) * 1000000 + us + 1000 * 0).
  assert (E1 : total / 86400000000 = d)
    by (symmetry; apply Z.div_unique with (r := s * 1000000 + us); subst total; lia).
  assert (E2 : total mod 86400000000 = s * 1000000 + us)
    by (symmetry; apply Z.mod_unique with (q := d); subst total; lia).
  assert (E3 : total mod 1000000 = us)
    by (symmetry; apply Z.mod_unique with (q := d * 86400 + s); subst total; lia).
  assert (E4 : (s * 1000000 + us) / 1000000 = s)
    by (symmetry; apply Z.div_unique with (r := us); lia).
  rewrite E1, E2, E3, E4.
  destruct (999999999 <? Z.abs d) eqn:E; [apply Z.ltb_lt in E; lia|].
  reflexivity.
Qed.

(** X1. The duration handler is reversible on every [timedelta]. *)
Lemma timedelta_round_trip td :
  timedelta_valid td ->
  round_trip TimedeltaJSON (VTimedelta td) = Ok (VTimedelta td).
Proof.
  intros V. unfold round_trip. cbn [serialize deserialize TimedeltaJSON bind].
  change (?a ++ "," ++ ?b ++ "," ++ ?c) with (a ++ String "," (b ++ String "," c)).
  rewrite split_app by apply str_of_int_no_comma.
  rewrite split_app by apply str_of_int_no_comma.
  rewrite split_no_sep by apply str_of_int_no_comma.
  cbn [mapM]. rewrite !int_of_str_of_int. cbn [bind timedelta_call].
  rewrite (timedelta_init_valid td V). reflexivity.
Qed.




(** A field that is no integer literal is a [ValueError], whatever the
    number of fields. *)
Lemma timedelta_deserialize_bad_field r e :
  mapM int_of_str (split "," r) = Raise e ->
  deserialize TimedeltaJSON (VStr r) = Raise e.
Proof. intros H. cbn [deserialize TimedeltaJSON]. rewrite H. reflexivity. Qed.

(** ** The date and time handler *)

(** C1 fails on [date]: whatever text the parser accepts, what the
    handler gives back is a [datetime], never the [date] that was
    written. *)
Theorem datetime_handler_loses_date
    (dateutil_parse : string -> result datetime) (d : date) :
  round_trip (DatetimeJSON dateutil_parse) (VDate d) <> Ok (VDate d).
Proof.
  unfold round_trip. cbn [serialize deserialize DatetimeJSON bind].
  destruct (dateutil_parse (date_isoformat d)); cbn [bind]; discriminate.
Qed.

Example date_round_trip_example :
  round_trip (DatetimeJSON isoparse) (VDate (mk_date 2020 1 5))
  = Ok (VDatetime (mk_datetime 2020 1 5 0 0 0 0)).
Proof. reflexivity. Qed.

(** A date saved under a key is a [datetime] when the file is loaded. *)
Example saved_date_loads_as_datetime :
  load_json_file isoparse
    (snd (save_data isoparse no_files "data.json"
            (VDict [("day", VDate (mk_date 2020 1 5))]) SortNone))
    "data.json"
  = Ok (VDict [("day", VDatetime (mk_datetime 2020 1 5 0 0 0 0))]).
Proof. vm_compute. reflexivity. Qed.

Example datetime_round_trip_example :
  round_trip (DatetimeJSON isoparse) (VDatetime (mk_datetime 2020 1 5 13 7 9 45))
  = Ok (VDatetime (mk_datetime 2020 1 5 13 7 9 45)).
Proof. reflexivity. Qed.

(** ** The decoder and the decode hook *)

Section Lift.
Variable h : value -> result value.

Ltac split_scrutinee H :=
  match type of H with
  | context [match ?x with _ => _ end] =>
      match x with
      | context [match _ with _ => _ end] => fail 1
      | _ => destruct x eqn:?
      end
  | context [if ?b then _ else _] => destruct b eqn:?
  end; try discriminate H.

Lemma scan_atom_hooked s t rest :
  scan_atom raw_builder s = Ok (t, rest) ->
  scan_atom (py_builder h) s = (v <- hooked h t ;; Ok (v, rest)).
Proof.
  unfold scan_atom, bind. intros H.
  repeat split_scrutinee H; injection H as <- <-; reflexivity.
Qed.

Lemma scan_once_S {A} (B : builder A) n s :
  scan_once B (S n) s =
  match s with
  | "" => Raise JSONDecodeError
  | String c r =>
      if Ascii.eqb c "034" then
        '(str, rest) <- scanstring r ;; Ok (b_str B str, rest)
      else if Ascii.eqb c "{" then
        match skip_ws r with
        | "" => Raise JSONDecodeError
        | String c1 r1 =>
            if Ascii.eqb c1 "}" then v <- b_obj B [] ;; Ok (v, r1)
            else if Ascii.eqb c1 "034" then
              '(pairs, rest) <- object_members B n r1 ;;
              v <- b_obj B pairs ;; Ok (v, rest)
            else Raise JSONDecodeError
        end
      else if Ascii.eqb c "[" then
        match skip_ws r with
        | "" => Raise JSONDecodeError
        | String c1 r1 =>
            if Ascii.eqb c1 "]" then Ok (b_arr B [], r1)
            else
              '(values, rest) <- array_items B n (String c1 r1) ;;
              Ok (b_arr B values, rest)
        end
      else scan_atom B s
  end.
Proof. reflexivity. Qed.

Lemma object_members_S {A} (B : builder A) n s :
  object_members B (S n) s =
  ('(key, s1) <- scanstring s ;;
   match skip_ws s1 with
   | "" => Raise JSONDecodeError
   | String c2 s2 =>
       if Ascii.eqb c2 ":" then
         '(value, s3) <- scan_once B n (skip_ws s2) ;;
         match skip_ws s3 with
         | "" => Raise JSONDecodeError
         | String c4 s4 =>
             if Ascii.eqb c4 "}" then Ok ([(key, value)], s4)
             else if Ascii.eqb c4 "," then
               match skip_ws s4 with
               | "" => Raise JSONDecodeError
               | String c5 s5 =>
                   if Ascii.eqb c5 "034" then
                     '(more, rest) <- object_members B n s5 ;;
                     Ok ((key, value) :: more, rest)
                   else Raise JSONDecodeError
               end
             else Raise JSONDecodeError
         end
       else Raise JSONDecodeError
   end).
Proof. reflexivity. Qed.

Lemma array_items_S {A} (B : builder A) n s :
  array_items B (S n) s =
  ('(value, s1) <- scan_once B n s ;;
   match skip_ws s1 with
   | "" => Raise JSONDecodeError
   | String c2 s2 =>
       if Ascii.eqb c2 "]" then Ok ([value], s2)
       else if Ascii.eqb c2 "," then
         '(more, rest) <- array_items B n (skip_ws s2) ;;
         Ok (value :: more, rest)
       else Raise JSONDecodeError
   end).
Proof. reflexivity. Qed.

Lemma scan_hooked n :
  (forall s t rest, scan_once raw_builder n s = Ok (t, rest) ->
     scan_once (py_builder h) n s = (v <- hooked h t ;; Ok (v, rest)))
  /\ (forall s ms rest, object_members raw_builder n s = Ok (ms, rest) ->
     object_members (py_builder h) n s = (ps <- mapM (hooked_member h) ms ;; Ok (ps, rest)))
  /\ (forall s ts rest, array_items raw_builder n s = Ok (ts, rest) ->
     array_items (py_builder h) n s = (vs <- mapM (hooked h) ts ;; Ok (vs, rest))).
Proof.
  induction n as [|n (IHs & IHo & IHa)]; (split; [|split]); intros s ? rest H;
    try discriminate H.
  - (* scan_once *)
    rewrite scan_once_S in H. rewrite scan_once_S.
    destruct s as [|c r]; [discriminate H|].
    destruct (Ascii.eqb c "034").
    { unfold bind in H |- *. destruct (scanstring r) as [[str rest']| |]; try discriminate H.
      injection H as <- <-. reflexivity. }
    destruct (Ascii.eqb c "{").
    { destruct (skip_ws r) as [|c1 r1]; [discriminate H|].
      destruct (Ascii.eqb c1 "}").
      { cbv [bind b_obj raw_builder] in H. injection H as <- <-. reflexivity. }
      destruct (Ascii.eqb c1 "034"); [|discriminate H].
      destruct (object_members raw_builder n r1) as [[ms rest']| |] eqn:E;
        try discriminate H.
      cbv [bind b_obj raw_builder] in H. injection H as <- <-.
      rewrite (IHo _ _ _ E). cbn [hooked]. fold (hooked_member h).
      destruct (mapM (hooked_member h) ms); reflexivity. }
    destruct (Ascii.eqb c "[").
    { destruct (skip_ws r) as [|c1 r1]; [discriminate H|].
      destruct (Ascii.eqb c1 "]").
      { injection H as <- <-. reflexivity. }
      destruct (array_items raw_builder n (String c1 r1)) as [[ts rest']| |] eqn:E;
        try discriminate H.
      cbv [bind b_arr raw_builder] in H. injection H as <- <-.
      rewrite (IHa _ _ _ E). cbn [hooked].
      destruct (mapM (hooked h) ts); reflexivity. }
    apply scan_atom_hooked, H.
  - (* object_members *)
    rewrite object_members_S in H. rewrite object_members_S.
    destruct (scanstring s) as [[key s1]| |]; try discriminate H. cbn [bind] in H |- *.
    destruct (skip_ws s1) as [|c2 s2]; [discriminate H|].
    destruct (Ascii.eqb c2 ":"); [|discriminate H].
    destruct (scan_once raw_builder n (skip_ws s2)) as [[t s3]| |] eqn:E;
      try discriminate H.
    rewrite (IHs _ _ _ E). cbn [bind] in H.
    destruct (skip_ws s3) as [|c4 s4] eqn:W3; [discriminate H|].
    destruct (Ascii.eqb c4 "}") eqn:C4.
    { injection H as <- <-. cbn [mapM]. unfold hooked_member at 1. cbn [fst snd].
      destruct (hooked h t) as [v| |]; cbn [bind]; [|reflexivity..].
      rewrite W3, C4. reflexivity. }
    destruct (Ascii.eqb c4 ",") eqn:C4'; [|discriminate H].
    destruct (skip_ws s4) as [|c5 s5] eqn:W4; [discriminate H|].
    destruct (Ascii.eqb c5 "034") eqn:C5; [|discriminate H].
    destruct (object_members raw_builder n s5) as [[more rest']| |] eqn:E';
      try discriminate H.
    cbn [bind] in H. injection H as <- <-.
    cbn [mapM]. unfold hooked_member at 1. cbn [fst snd].
    destruct (hooked h t) as [v| |]; cbn [bind]; [|reflexivity..].
    rewrite W3, C4, C4', W4, C5, (IHo _ _ _ E').
    destruct (mapM (hooked_member h) more); reflexivity.
  - (* array_items *)
    rewrite array_items_S in H. rewrite array_items_S.
    destruct (scan_once raw_builder n s) as [[t s1]| |] eqn:E; try discriminate H.
    rewrite (IHs _ _ _ E). cbn [bind] in H.
    destruct (skip_ws s1) as [|c2 s2] eqn:W1; [discriminate H|].
    destruct (Ascii.eqb c2 "]") eqn:C2.
    { injection H as <- <-. cbn [mapM].
      destruct (hooked h t) as [v| |]; cbn [bind]; [|reflexivity..].
      rewrite W1, C2. reflexivity. }
    destruct (Ascii.eqb c2 ",") eqn:C2'; [|discriminate H].
    destruct (array_items raw_builder n (skip_ws s2)) as [[more rest']| |] eqn:E';
      try discriminate H.
    cbn [bind] in H. injection H as <- <-.
    cbn [mapM].
    destruct (hooked h t) as [v| |]; cbn [bind]; [|reflexivity..].
    rewrite W1, C2, C2', (IHa _ _ _ E').
    destruct (mapM (hooked h) more); reflexivity.
Qed.

Lemma decode_hooked s t :
  decode raw_builder s = Ok t -> json_loads h s = hooked h t.
Proof.
  unfold json_loads, decode. intros H.
  destruct (scan_once raw_builder (S (2 * String.length s)) (skip_ws s))
    as [[t' rest]| |] eqn:E; try discriminate H.
  rewrite (proj1 (scan_hooked _) _ _ _ E). cbn [bind] in H |- *.
  destruct (skip_ws rest) eqn:W; [|discriminate H].
  injection H as <-.
  destruct (hooked h t') as [v| |]; cbn [bind]; [|reflexivity..].
  rewrite W. reflexivity.
Qed.
End Lift.

(** ** The depth given to the scanner *)

Lemma skip_ws_length s : (String.length (skip_ws s) <= String.length s)%nat.
Proof.
  induction s as [|c r IH]; simpl; [lia|].
  destruct (is_ws c); simpl; lia.
Qed.

Lemma skip_ws_cons s c r :
  skip_ws s = String c r -> (String.length r < String.length s)%nat.
Proof.
  intros H. pose proof (skip_ws_length s) as L. rewrite H in L. simpl in L. lia.
Qed.

Lemma scanstring_length s : forall t rest,
  scanstring s = Ok (t, rest) -> (String.length rest < String.length s)%nat.
Proof.
  induction s as [s IH] using (well_founded_induction
                                 (Wf_nat.well_founded_ltof _ String.length)).
  unfold Wf_nat.ltof in IH. intros t rest H.
  destruct s as [|c r]; [discriminate H|]. cbn [scanstring] in H.
  destruct (Ascii.eqb c "034"); [injection H as <- <-; simpl; lia|].
  destruct (Ascii.eqb c "\").
  - destruct r as [|e r']; [discriminate H|].
    destruct (Ascii.eqb e "u").
    + destruct r' as [|h1 [|h2 [|h3 [|h4 r'']]]]; try discriminate H.
      destruct (hex4 h1 h2 h3 h4); [|discriminate H].
      destruct (_ <? _)%N; [|discriminate H].
      destruct (scanstring r'') as [[t' rest']| |] eqn:E; try discriminate H.
      injection H as <- <-. apply IH in E; simpl in *; lia.
    + destruct (backslash e); [|discriminate H].
      destruct (scanstring r') as [[t' rest']| |] eqn:E; try discriminate H.
      injection H as <- <-. apply IH in E; simpl in *; lia.
  - destruct (_ <? _)%N; [discriminate H|].
    destruct (scanstring r) as [[t' rest']| |] eqn:E; try discriminate H.
    injection H as <- <-. apply IH in E; simpl in *; lia.
Qed.

Lemma starts_with_length p : forall s rest,
  starts_with p s = Some rest ->
  String.length s = (String.length p + String.length rest)%nat.
Proof.
  induction p as [|a p IH]; intros s rest H; simpl in H.
  - injection H as <-. reflexivity.
  - destruct s as [|b s]; [discriminate H|].
    destruct (Ascii.eqb a b); [|discriminate H].
    simpl. rewrite (IH _ _ H). reflexivity.
Qed.

Lemma span_digits_length s :
  (String.length (snd (span_digits s)) <= String.length s)%nat.
Proof.
  induction s as [|c r IH]; simpl; [lia|].
  destruct (isdigit c); [|simpl; lia].
  destruct (span_digits r); simpl in *. lia.
Qed.

Lemma match_number_length s num rest :
  match_number s = Some (num, rest) -> (String.length rest < String.length s)%nat.
Proof.
  unfold match_number.
  set (body := match s with
               | String c r => if Ascii.eqb c "-" then r else s
               | "" => s
               end).
  assert (L : (String.length body <= String.length s)%nat).
  { subst body. destruct s as [|c r]; [simpl; lia|].
    destruct (Ascii.eqb c "-"); simpl; lia. }
  clearbody body. cbv zeta. intros H.
  destruct body as [|c r]; [discriminate H|].
  destruct (Ascii.eqb c "0"); [injection H as _ <-; simpl in L; lia|].
  destruct (isdigit c) eqn:D; [|discriminate H].
  pose proof (span_digits_length r) as SL.
  cbn [span_digits] in H. rewrite D in H.
  destruct (span_digits r) as [ds rest']. injection H as _ <-.
  simpl in *. lia.
Qed.

Lemma scan_atom_length {A} (B : builder A) s v rest :
  scan_atom B s = Ok (v, rest) -> (String.length rest < String.length s)%nat.
Proof.
  unfold scan_atom. intros H.
  destruct (starts_with "null" s) as [r|] eqn:E1.
  { injection H as _ <-. apply starts_with_length in E1. simpl in E1. lia. }
  destruct (starts_with "true" s) as [r|] eqn:E2.
  { injection H as _ <-. apply starts_with_length in E2. simpl in E2. lia. }
  destruct (starts_with "false" s) as [r|] eqn:E3.
  { injection H as _ <-. apply starts_with_length in E3. simpl in E3. lia. }
  destruct (match_number s) as [[num r]|] eqn:E4.
  { apply match_number_length in E4. destruct num; try discriminate H.
    injection H as _ <-. exact E4. }
  destruct (starts_with "NaN" s), (starts_with "Infinity" s),
    (starts_with "-Infinity" s); discriminate H.
Qed.

Section Fuel.
Context {A : Type} (B : builder A).

(** What the scanner returns is shorter than what it was given. *)
Lemma scan_length n :
  (forall s v rest, scan_once B n s = Ok (v, rest) ->
     (String.length rest < String.length s)%nat)
  /\ (forall s ms rest, object_members B n s = Ok (ms, rest) ->
     (String.length rest < String.length s)%nat)
  /\ (forall s vs rest, array_items B n s = Ok (vs, rest) ->
     (String.length rest < String.length s)%nat).
Proof.
  induction n as [|n (IHs & IHo & IHa)]; (split; [|split]); intros s ? rest H;
    try discriminate H.
  - rewrite scan_once_S in H.
    destruct s as [|c r]; [discriminate H|].
    destruct (Ascii.eqb c "034").
    { destruct (scanstring r) as [[str rest']| |] eqn:E; try discriminate H.
      injection H as _ <-. apply scanstring_length in E. simpl. lia. }
    destruct (Ascii.eqb c "{").
    { destruct (skip_ws r) as [|c1 r1] eqn:W; [discriminate H|].
      apply skip_ws_cons in W.
      destruct (Ascii.eqb c1 "}").
      { destruct (b_obj B []); try discriminate H. injection H as _ <-. simpl. lia. }
      destruct (Ascii.eqb c1 "034"); [|discriminate H].
      destruct (object_members B n r1) as [[ms rest']| |] eqn:E; try discriminate H.
      cbn [bind] in H. destruct (b_obj B ms); try discriminate H.
      injection H as _ <-. apply IHo in E. simpl. lia. }
    destruct (Ascii.eqb c "[").
    { destruct (skip_ws r) as [|c1 r1] eqn:W; [discriminate H|].
      pose proof (skip_ws_length r) as WL. rewrite W in WL.
      destruct (Ascii.eqb c1 "]").
      { injection H as _ <-. simpl in *. lia. }
      destruct (array_items B n (String c1 r1)) as [[vs rest']| |] eqn:E;
        try discriminate H.
      injection H as _ <-. apply IHa in E. simpl in *. lia. }
    apply scan_atom_length in H. exact H.
  - rewrite object_members_S in H.
    destruct (scanstring s) as [[key s1]| |] eqn:E0; try discriminate H.
    apply scanstring_length in E0. cbn [bind] in H.
    destruct (skip_ws s1) as [|c2 s2] eqn:W1; [discriminate H|].
    apply skip_ws_cons in W1.
    destruct (Ascii.eqb c2 ":"); [|discriminate H].
    pose proof (skip_ws_length s2) as W2.
    destruct (scan_once B n (skip_ws s2)) as [[v s3]| |] eqn:E; try discriminate H.
    apply IHs in E. cbn [bind] in H.
    destruct (skip_ws s3) as [|c4 s4] eqn:W3; [discriminate H|].
    apply skip_ws_cons in W3.
    destruct (Ascii.eqb c4 "}"); [injection H as _ <-; lia|].
    destruct (Ascii.eqb c4 ","); [|discriminate H].
    destruct (skip_ws s4) as [|c5 s5] eqn:W4; [discriminate H|].
    apply skip_ws_cons in W4.
    destruct (Ascii.eqb c5 "034"); [|discriminate H].
    destruct (object_members B n s5) as [[more rest']| |] eqn:E'; try discriminate H.
    injection H as _ <-. apply IHo in E'. lia.
  - rewrite array_items_S in H.
    destruct (scan_once B n s) as [[v s1]| |] eqn:E; try discriminate H.
    apply IHs in E. cbn [bind] in H.
    destruct (skip_ws s1) as [|c2 s2] eqn:W1; [discriminate H|].
    apply skip_ws_cons in W1.
    destruct (Ascii.eqb c2 "]"); [injection H as _ <-; lia|].
    destruct (Ascii.eqb c2 ","); [|discriminate H].
    pose proof (skip_ws_length s2) as W2.
    destruct (array_items B n (skip_ws s2)) as [[more rest']| |] eqn:E';
      try discriminate H.
    injection H as _ <-. apply IHa in E'. lia.
Qed.

(** The depth [decode] gives the scanner is enough: with more, the scan
    is the same. *)
Lemma scan_depth n :
  (forall s m, (2 * String.length s < n)%nat -> (n <= m)%nat ->
     scan_once B m s = scan_once B n s)
  /\ (forall s m, (2 * String.length s < n)%nat -> (n <= m)%nat ->
     object_members B m s = object_members B n s)
  /\ (forall s m, (2 * String.length s + 1 < n)%nat -> (n <= m)%nat ->
     array_items B m s = array_items B n s).
Proof.
  induction n as [|n (IHs & IHo & IHa)]; (split; [|split]); intros s m L M; try lia;
    (destruct m as [|m]; [lia|]).
  - rewrite !scan_once_S.
    destruct s as [|c r]; [reflexivity|]. cbn [String.length] in L.
    destruct (Ascii.eqb c "034"); [reflexivity|].
    destruct (Ascii.eqb c "{").
    { destruct (skip_ws r) as [|c1 r1] eqn:W; [reflexivity|].
      apply skip_ws_cons in W.
      destruct (Ascii.eqb c1 "}"); [reflexivity|].
      destruct (Ascii.eqb c1 "034"); [|reflexivity].
      rewrite (IHo r1 m) by lia. reflexivity. }
    destruct (Ascii.eqb c "["); [|reflexivity].
    destruct (skip_ws r) as [|c1 r1] eqn:W; [reflexivity|].
    pose proof (skip_ws_length r) as WL. rewrite W in WL.
    destruct (Ascii.eqb c1 "]"); [reflexivity|].
    rewrite (IHa (String c1 r1) m) by (cbn [String.length] in *; lia). reflexivity.
  - rewrite !object_members_S.
    destruct (scanstring s) as [[key s1]| |] eqn:E0; try reflexivity.
    apply scanstring_length in E0. cbn [bind].
    destruct (skip_ws s1) as [|c2 s2] eqn:W1; [reflexivity|].
    apply skip_ws_cons in W1.
    destruct (Ascii.eqb c2 ":"); [|reflexivity].
    pose proof (skip_ws_length s2) as W2.
    rewrite (IHs (skip_ws s2) m) by lia.
    destruct (scan_once B n (skip_ws s2)) as [[v s3]| |] eqn:E; try reflexivity.
    apply (proj1 (scan_length n)) in E. cbn [bind].
    destruct (skip_ws s3) as [|c4 s4] eqn:W3; [reflexivity|].
    apply skip_ws_cons in W3.
    destruct (Ascii.eqb c4 "}"); [reflexivity|].
    destruct (Ascii.eqb c4 ","); [|reflexivity].
    destruct (skip_ws s4) as [|c5 s5] eqn:W4; [reflexivity|].
    apply skip_ws_cons in W4.
    destruct (Ascii.eqb c5 "034"); [|reflexivity].
    rewrite (IHo s5 m) by lia. reflexivity.
  - rewrite !array_items_S.
    rewrite (IHs s m) by lia.
    destruct (scan_once B n s) as [[v s1]| |] eqn:E; try reflexivity.
    apply (proj1 (scan_length n)) in E. cbn [bind].
    destruct (skip_ws s1) as [|c2 s2] eqn:W1; [reflexivity|].
    apply skip_ws_cons in W1.
    destruct (Ascii.eqb c2 "]"); [reflexivity|].
    destruct (Ascii.eqb c2 ","); [|reflexivity].
    pose proof (skip_ws_length s2) as W2.
    rewrite (IHa (skip_ws s2) m) by lia. reflexivity.
Qed.

(** [decode] does not depend on the depth it starts from. *)
Lemma decode_depth s m :
  (S (2 * String.length s) <= m)%nat ->
  decode B s = ('(obj, rest) <- scan_once B m (skip_ws s) ;;
                match skip_ws rest with
                | "" => Ok obj
                | _ => Raise JSONDecodeError
                end).
Proof.
  intros L. unfold decode.
  rewrite (proj1 (scan_depth (S (2 * String.length s))) (skip_ws s) m); [reflexivity| |exact L].
  pose proof (skip_ws_length s). lia.
Qed.
End Fuel.

(** ** Mappings *)

Lemma dict_get_set k k' v d :
  dict_get k (dict_set k' v d) = if String.eqb k k' then Some v else dict_get k d.
Proof.
  unfold dict_get, dict_set. induction d as [|[k0 v0] d IH]; simpl.
  - reflexivity.
  - destruct (String.eqb k' k0) eqn:E0; simpl.
    + apply String.eqb_eq in E0. subst k0.
      destruct (String.eqb k k'); reflexivity.
    + destruct (String.eqb k k0) eqn:E1.
      * apply String.eqb_eq in E1. subst k0.
        rewrite String.eqb_sym, E0. reflexivity.
      * exact IH.
Qed.

Lemma In_dict_set kv k v d :
  In kv (dict_set k v d) -> kv = (k, v) \/ In kv d.
Proof.
  unfold dict_set. induction d as [|[k0 v0] d IH]; simpl.
  - intros [<-|[]]. now left.
  - destruct (String.eqb k k0) eqn:E; simpl.
    + apply String.eqb_eq in E. subst k0. intros [<-|H]; auto.
    + intros [<-|H]; auto. destruct (IH H); auto.
Qed.

Lemma In_fold_set kv pairs d :
  In kv (fold_left (fun d kv => dict_set (fst kv) (snd kv) d) pairs d) ->
  In kv pairs \/ In kv d.
Proof.
  revert d. induction pairs as [|[k v] pairs IH]; simpl; intros d H; auto.
  destruct (IH _ H) as [H'|H']; auto.
  destruct (In_dict_set _ _ _ _ H') as [->|H'']; auto.
Qed.

Lemma In_dict_of_pairs kv pairs : In kv (dict_of_pairs pairs) -> In kv pairs.
Proof. intros H. destruct (In_fold_set _ _ _ H) as [H'|[]]. exact H'. Qed.

Lemma dict_get_fold_other k pairs d :
  ~ In k (map fst pairs) ->
  dict_get k (fold_left (fun d kv => dict_set (fst kv) (snd kv) d) pairs d) = dict_get k d.
Proof.
  revert d. induction pairs as [|[k0 v0] pairs IH]; simpl; intros d H; [reflexivity|].
  rewrite IH by tauto. rewrite dict_get_set.
  destruct (String.eqb k k0) eqn:E; [|reflexivity].
  apply String.eqb_eq in E. subst k0. tauto.
Qed.


Lemma dict_get_In k v d : dict_get k d = Some v -> In (k, v) d.
Proof.
  unfold dict_get. induction d as [|[k0 v0] d IH]; simpl; [discriminate|].
  destruct (String.eqb k k0) eqn:E.
  - apply String.eqb_eq in E. subst k0. intros [= <-]. now left.
  - intros H. right. exact (IH H).
Qed.

Lemma dict_get_del_other k k' d :
  String.eqb k k' = false ->
  dict_get k (assoc_del String.eqb k' d) = dict_get k d.
Proof.
  intros N. unfold dict_get. induction d as [|[k0 v0] d IH]; simpl; [reflexivity|].
  destruct (String.eqb k' k0) eqn:E; simpl.
  - apply String.eqb_eq in E. subst k0. rewrite N. reflexivity.
  - destruct (String.eqb k k0); [reflexivity | exact IH].
Qed.


Section Hook.
Variable dateutil_parse : string -> result datetime.
Local Abbreviation hook := (json_deserial dateutil_parse).

Lemma items_inert items obj :
  forallb (fun kv => inert (snd kv)) items = true ->
  json_deserial_items dateutil_parse items obj = Ok obj.
Proof.
  induction items as [|[k v] items IH]; simpl; [reflexivity|].
  intros H. apply andb_prop in H as [Hv Hr].
  destruct v; try exact (IH Hr).
  simpl in Hv. apply negb_true_iff in Hv. rewrite Hv. exact (IH Hr).
Qed.

Lemma items_cons_mapping k inner rest obj :
  json_deserial_items dateutil_parse ((k, VDict inner) :: rest) obj =
  if dict_contains "__type__" inner then
    x <- open_envelope dateutil_parse inner ;;
    json_deserial_items dateutil_parse rest (dict_set k x obj)
  else json_deserial_items dateutil_parse rest obj.
Proof.
  simpl. destruct (dict_contains "__type__" inner); [|reflexivity].
  unfold open_envelope, bind.
  destruct (dict_pop "__type__" inner) as [[ty inner1]| |]; try reflexivity.
  destruct (dict_pop "repr" inner1) as [[rp inner2]| |]; reflexivity.
Qed.

End Hook.

(** Induction on syntax trees, through the lists they hold. *)
Lemma raw_induction (P : raw -> Prop) :
  P RNull -> (forall b, P (RBool b)) -> (forall z, P (RInt z)) -> (forall s, P (RStr s)) ->
  (forall items, Forall P items -> P (RArr items)) ->
  (forall members, Forall (fun m => P (snd m)) members -> P (RObj members)) ->
  forall t, P t.
Proof.
  intros HN HB HI HS HA HO.
  fix IH 1. intros [|b|z|s|items|members].
  - exact HN.
  - apply HB.
  - apply HI.
  - apply HS.
  - apply HA. induction items as [|t items IHl]; constructor; [apply IH | exact IHl].
  - apply HO. induction members as [|[k t] members IHl]; constructor;
      [apply IH | exact IHl].
Qed.

Lemma mapM_ok {A B} (f : A -> result B) (g : A -> B) l :
  Forall (fun a => f a = Ok (g a)) l -> mapM f l = Ok (map g l).
Proof.
  induction 1 as [|a l Ha _ IH]; simpl; [reflexivity|].
  rewrite Ha, IH. reflexivity.
Qed.


Section Hook.
Variable dateutil_parse : string -> result datetime.
Local Abbreviation hook := (json_deserial dateutil_parse).

(** Where no member is named [__type__] the hook changes nothing. *)
Lemma quiet_hooked t :
  quiet t = true -> hooked hook t = Ok (plain t) /\ inert (plain t) = true.
Proof.
  induction t as [|b|z|s|items IH|members IH] using raw_induction;
    intros Q; try (split; reflexivity).
  - split; [|reflexivity]. cbn [hooked plain].
    rewrite (mapM_ok (hooked hook) plain); [reflexivity|].
    cbn [quiet] in Q. rewrite forallb_forall in Q. rewrite Forall_forall in IH |- *.
    intros t Ht. exact (proj1 (IH t Ht (Q t Ht))).
  - cbn [quiet] in Q. rewrite forallb_forall in Q. rewrite Forall_forall in IH.
    assert (Hkeys : ~ In "__type__" (map fst members)).
    { intros H. apply in_map_iff in H as ([k t] & Hk & Hin). simpl in Hk. subst k.
      specialize (Q _ Hin). simpl in Q. discriminate Q. }
    assert (Hget : dict_contains "__type__"
                     (dict_of_pairs (map (fun m => (fst m, plain (snd m))) members)) = false).
    { unfold dict_contains, dict_of_pairs. rewrite dict_get_fold_other; [reflexivity|].
      rewrite map_map. simpl. exact Hkeys. }
    split.
    + cbn [hooked plain].
      rewrite (mapM_ok _ (fun m => (fst m, plain (snd m)))).
      * cbn [bind]. unfold hook, json_deserial. rewrite items_inert; [reflexivity|].
        apply forallb_forall. intros [k v] Hin. apply In_dict_of_pairs in Hin.
        apply in_map_iff in Hin as ([k' t] & E & Hin). injection E as <- <-.
        simpl. specialize (Q _ Hin). apply andb_prop in Q as [_ Q].
        exact (proj2 (IH (k', t) Hin Q)).
      * apply Forall_forall. intros m Hin.
        specialize (Q _ Hin). apply andb_prop in Q as [_ Q].
        destruct (IH _ Hin Q) as [-> _]. reflexivity.
    + cbn [plain inert]. rewrite Hget. reflexivity.
Qed.



End Hook.


Section Load.
Variable dateutil_parse : string -> result datetime.
Local Abbreviation hook := (json_deserial dateutil_parse).


(** Loading a file that holds a JSON text is the hook run over its
    syntax tree. *)
Lemma load_decoded store file text t :
  store file = Some (File text) ->
  decode raw_builder text = Ok t ->
  load_json_file dateutil_parse store file = reraised (hooked hook t).
Proof.
  intros Hf Hd. unfold load_json_file, exists_, read_text. rewrite Hf.
  cbn [negb bind]. unfold from_json_str.
  destruct text as [|c text']; [discriminate Hd|].
  rewrite (decode_hooked hook _ _ Hd). reflexivity.
Qed.





(** The hook of an object looks at the values of its members only: where
    no object is the value of a member, no hook finds anything to decode,
    whatever the keys are. *)
Lemma flat_hooked t : flat t = true -> hooked hook t = Ok (plain t).
Proof.
  induction t as [|b|z|s|items IH|members IH] using raw_induction;
    intros F; try reflexivity.
  - cbn [hooked plain]. rewrite (mapM_ok (hooked hook) plain); [reflexivity|].
    cbn [flat] in F. rewrite forallb_forall in F. rewrite Forall_forall in IH |- *.
    intros t Ht. exact (IH t Ht (F t Ht)).
  - cbn [flat] in F. rewrite forallb_forall in F. rewrite Forall_forall in IH.
    cbn [hooked plain].
    rewrite (mapM_ok _ (fun m => (fst m, plain (snd m)))).
    + cbn [bind]. unfold json_deserial. rewrite items_inert; [reflexivity|].
      apply forallb_forall. intros [k v] Hin. apply In_dict_of_pairs in Hin.
      apply in_map_iff in Hin as ([k' t] & E & Hin). injection E as <- <-.
      specialize (F _ Hin). cbn [snd] in F |- *.
      apply andb_true_iff in F as [F _]. destruct t; try discriminate F; reflexivity.
    + apply Forall_forall. intros [k t] Hin. cbn [fst snd].
      specialize (F _ Hin). cbn [snd] in F. apply andb_true_iff in F as [_ F].
      pose proof (IH (k, t) Hin F) as E. cbn [snd] in E. rewrite E. reflexivity.
Qed.

(** C6 fails for every envelope that is not the value of a member of an
    object: the whole document, or an item of an array. No hook looks at
    it, so the document is loaded as it stands, each envelope as an
    ordinary mapping, whatever its tag. *)
Theorem envelope_not_decoded store file text t :
  store file = Some (File text) ->
  decode raw_builder text = Ok t ->
  flat t = true ->
  load_json_file dateutil_parse store file = Ok (plain t).
Proof.
  intros Hf Hd F. rewrite (load_decoded _ _ _ _ Hf Hd), (flat_hooked t F). reflexivity.
Qed.

(** The two places named by the claim. *)
Lemma envelope_passes_through store file text tag payload :
  store file = Some (File text) ->
  (decode raw_builder text = Ok (envelope tag payload) ->
   load_json_file dateutil_parse store file
   = Ok (VDict [("__type__", VStr tag); ("repr", VStr payload)]))
  /\ (decode raw_builder text = Ok (RArr [envelope tag payload]) ->
      load_json_file dateutil_parse store file
      = Ok (VList [VDict [("__type__", VStr tag); ("repr", VStr payload)]])).
Proof.
  intros Hf. split; intros Hd;
    rewrite (load_decoded _ _ _ _ Hf Hd); reflexivity.
Qed.

(** C9. Parsing the empty string raises [ValueError]. *)
Theorem from_json_str_empty : from_json_str dateutil_parse "" = Raise ValueError.
Proof. reflexivity. Qed.

End Load.

(** ** The encoder *)

Lemma snd_and_then_ok a b : snd a = Ok tt -> snd (and_then a b) = snd b.
Proof. destruct a as [s [[]| |]]; simpl; intros H; try discriminate H. reflexivity. Qed.

Lemma snd_and_then_raise a b e : snd a = Raise e -> snd (and_then a b) = Raise e.
Proof. destruct a as [s [[]| |]]; simpl; intros H; try discriminate H. exact H. Qed.

Section Encode.
Variable dateutil_parse : string -> result datetime.
Local Abbreviation default := (json_serial dateutil_parse).

Lemma write_items_ends (enc : value -> writer) level first l :
  Forall (fun v => ends_as v (snd (enc v))) l ->
  ends_as (VList l) (snd (write_items enc level first l)).
Proof.
  intros H. revert first. induction H as [|v l Hv _ IH]; intros first.
  - reflexivity.
  - cbn [write_items]. rewrite snd_and_then_ok by reflexivity.
    unfold ends_as in *. cbn [has_unregistered existsb] in *.
    destruct (has_unregistered v).
    + destruct Hv as [q Hv]. exists q. cbn [orb]. apply snd_and_then_raise, Hv.
    + cbn [orb]. rewrite snd_and_then_ok by exact Hv. apply IH.
Qed.

Lemma write_members_ends (enc : value -> writer) level first (d : dict) :
  Forall (fun kv => ends_as (snd kv) (snd (enc (snd kv)))) d ->
  ends_as (VDict d) (snd (write_members enc level first d)).
Proof.
  intros H. revert first. induction H as [|[k v] l Hv _ IH]; intros first.
  - reflexivity.
  - cbn [write_members]. rewrite snd_and_then_ok by reflexivity.
    unfold ends_as in *. cbn [has_unregistered existsb snd] in *.
    destruct (has_unregistered v).
    + destruct Hv as [q Hv]. exists q. cbn [orb]. apply snd_and_then_raise, Hv.
    + cbn [orb]. rewrite snd_and_then_ok by exact Hv. apply IH.
Qed.

Lemma depth_items n (l : list value) :
  (fold_right (fun v n => Nat.max (encode_depth v) n) O l <= n)%nat ->
  Forall (fun v => (encode_depth v <= n)%nat) l.
Proof.
  induction l as [|v l IH]; simpl; intros H; constructor; [lia | apply IH; lia].
Qed.

Lemma depth_members n (d : dict) :
  (fold_right (fun kv n => Nat.max (encode_depth (snd kv)) n) O d <= n)%nat ->
  Forall (fun kv => (encode_depth (snd kv) <= n)%nat) d.
Proof.
  induction d as [|v l IH]; simpl; intros H; constructor; [lia | apply IH; lia].
Qed.

Lemma iterencode_ends n : forall v level,
  (encode_depth v <= n)%nat -> modelled v = true ->
  ends_as v (snd (iterencode default n v level)).
Proof.
  induction n as [|n IH]; intros v level D M.
  - destruct v; simpl in D; lia.
  - destruct v as [|b|z|s|l|d|dt|dd|td|w z|l|k v'|o]; cbn [encode_depth] in D.
    + reflexivity.
    + destruct b; reflexivity.
    + reflexivity.
    + reflexivity.
    + (* list *)
      destruct l as [|v l]; [reflexivity|].
      cbn [iterencode]. rewrite snd_and_then_ok by reflexivity.
      set (items := v :: l) in *.
      assert (E : ends_as (VList items)
                    (snd (write_items (fun v => iterencode default n v (S level))
                                      level true items))).
      { apply write_items_ends.
        assert (Dl : Forall (fun v => (encode_depth v <= n)%nat) items)
          by (apply depth_items; lia).
        rewrite Forall_forall in Dl |- *. intros x Hx.
        apply IH; [exact (Dl _ Hx)|].
        cbn [modelled] in M. rewrite forallb_forall in M. exact (M _ Hx). }
      unfold ends_as in *. destruct (has_unregistered (VList items)).
      * destruct E as [q E]. exists q. apply snd_and_then_raise, E.
      * rewrite snd_and_then_ok by exact E. reflexivity.
    + (* dict *)
      destruct d as [|kv d]; [reflexivity|].
      cbn [iterencode]. rewrite snd_and_then_ok by reflexivity.
      set (items := kv :: d) in *.
      assert (E : ends_as (VDict items)
                    (snd (write_members (fun v => iterencode default n v (S level))
                                        level true items))).
      { apply write_members_ends.
        assert (Dl : Forall (fun kv => (encode_depth (snd kv) <= n)%nat) items)
          by (apply depth_members; lia).
        rewrite Forall_forall in Dl |- *. intros x Hx.
        apply IH; [exact (Dl _ Hx)|].
        cbn [modelled] in M. rewrite forallb_forall in M. exact (M _ Hx). }
      unfold ends_as in *. destruct (has_unregistered (VDict items)).
      * destruct E as [q E]. exists q. apply snd_and_then_raise, E.
      * rewrite snd_and_then_ok by exact E. reflexivity.
    + destruct n as [|[|n]]; try lia. reflexivity.
    + destruct n as [|[|n]]; try lia. reflexivity.
    + destruct n as [|[|n]]; try lia. reflexivity.
    + destruct n as [|n]; try lia. destruct w; reflexivity.
    + (* ndarray *)
      change (iterencode default (S n) (VNdarray l) level)
        with (iterencode default n (VList l) level).
      apply (IH (VList l) level); [cbn [encode_depth]; lia | exact M].
    + (* container *)
      assert (E : iterencode default (S n) (VStl k v') level
                  = iterencode default n v' level) by (destruct k; reflexivity).
      rewrite E. apply (IH v' level); [lia | exact M].
    + destruct o as [w| |q]; try discriminate M.
      exists q. reflexivity.
Qed.

(** The same with the depth [json.dump] starts from. *)
Lemma encoded_ends v :
  modelled v = true -> ends_as v (snd (encoded dateutil_parse v)).
Proof. intros M. apply iterencode_ends; [lia | exact M]. Qed.

Lemma write_items_ext (enc1 enc2 : value -> writer) level first l :
  Forall (fun v => enc1 v = enc2 v) l ->
  write_items enc1 level first l = write_items enc2 level first l.
Proof.
  intros H. revert first. induction H as [|v l Hv _ IH]; intros first; [reflexivity|].
  cbn [write_items]. rewrite Hv, IH. reflexivity.
Qed.

Lemma write_members_ext (enc1 enc2 : value -> writer) level first (d : dict) :
  Forall (fun kv => enc1 (snd kv) = enc2 (snd kv)) d ->
  write_members enc1 level first d = write_members enc2 level first d.
Proof.
  intros H. revert first. induction H as [|[k v] l Hv _ IH]; intros first; [reflexivity|].
  cbn [write_members]. cbn [snd] in Hv. rewrite Hv, IH. reflexivity.
Qed.

(** The depth given to the encoder is enough: more changes nothing. *)
Lemma iterencode_more n : forall v level m,
  (encode_depth v <= n)%nat -> (n <= m)%nat ->
  iterencode default m v level = iterencode default n v level.
Proof.
  induction n as [|n IH]; intros v level m D L.
  - destruct v; simpl in D; lia.
  - destruct m as [|m]; [lia|].
    destruct v as [|b|z|s|l|d|dt|dd|td|w z|l|k v'|o]; cbn [encode_depth] in D;
      try reflexivity.
    + destruct l as [|v l]; [reflexivity|].
      cbn [iterencode]. set (items := v :: l) in *.
      rewrite (write_items_ext (fun v => iterencode default m v (S level))
                               (fun v => iterencode default n v (S level)));
        [reflexivity|].
      assert (Dl : Forall (fun v => (encode_depth v <= n)%nat) items)
        by (apply depth_items; lia).
      rewrite Forall_forall in Dl |- *. intros x Hx.
      apply IH; [exact (Dl _ Hx) | lia].
    + destruct d as [|kv d]; [reflexivity|].
      cbn [iterencode]. set (items := kv :: d) in *.
      rewrite (write_members_ext (fun v => iterencode default m v (S level))
                                 (fun v => iterencode default n v (S level)));
        [reflexivity|].
      assert (Dl : Forall (fun kv => (encode_depth (snd kv) <= n)%nat) items)
        by (apply depth_members; lia).
      rewrite Forall_forall in Dl |- *. intros x Hx.
      apply IH; [exact (Dl _ Hx) | lia].
    + destruct n as [|[|n]]; try lia. destruct m as [|[|m]]; try lia. reflexivity.
    + destruct n as [|[|n]]; try lia. destruct m as [|[|m]]; try lia. reflexivity.
    + destruct n as [|[|n]]; try lia. destruct m as [|[|m]]; try lia. reflexivity.
    + destruct n as [|n]; try lia. destruct m as [|m]; try lia. destruct w; reflexivity.
    + change (iterencode default (S m) (VNdarray l) level)
        with (iterencode default m (VList l) level).
      change (iterencode default (S n) (VNdarray l) level)
        with (iterencode default n (VList l) level).
      apply IH; [cbn [encode_depth]; lia | lia].
    + assert (E : forall j, iterencode default (S j) (VStl k v') level
                  = iterencode default j v' level) by (destruct k; reflexivity).
      rewrite !E. apply IH; lia.
    + destruct o as [w| |q]; try reflexivity. destruct w; reflexivity.
Qed.
End Encode.

(** ** Saving *)

Lemma dict_get_none_keys k (d : dict) : dict_get k d = None -> ~ In k (map fst d).
Proof.
  unfold dict_get. induction d as [|[k0 v0] d IH]; simpl; [tauto|].
  destruct (String.eqb k k0) eqn:E; [discriminate|].
  intros H [->|Hin]; [rewrite String.eqb_refl in E; discriminate | exact (IH H Hin)].
Qed.

(** [update] gives every key of the new mapping its new value. *)
Lemma dict_update_new old new k v :
  NoDup (map fst new) -> In (k, v) new -> dict_get k (dict_update old new) = Some v.
Proof.
  intros N Hin. apply in_split in Hin as (pre & post & ->).
  unfold dict_update. rewrite fold_left_app. cbn [fold_left fst snd].
  rewrite dict_get_fold_other.
  - rewrite dict_get_set, String.eqb_refl. reflexivity.
  - rewrite map_app in N. apply NoDup_remove_2 in N. cbn [map fst] in N.
    intros H. apply N. apply in_or_app. now right.
Qed.

(** [update] leaves the other keys as they were. *)
Lemma dict_update_old old new k :
  dict_get k new = None -> dict_get k (dict_update old new) = dict_get k old.
Proof.
  intros H. unfold dict_update. apply dict_get_fold_other, dict_get_none_keys, H.
Qed.

Section Save.
Variable dateutil_parse : string -> result datetime.

Lemma loaded_not_unreadable store file v :
  load_json_file dateutil_parse store file = Ok v ->
  forall why, store file <> Some (Unreadable why).
Proof.
  unfold load_json_file, exists_, read_text. intros H why E. rewrite E in H.
  destruct why; discriminate H.
Qed.

(** Saving a mapping over a file that loads as a mapping: the merged
    mapping is handed to [dump_to_json_file]. *)
Lemma save_data_merge store file old new :
  load_json_file dateutil_parse store file = Ok (VDict old) ->
  save_data dateutil_parse store file (VDict new) SortNone
  = (snd (encoded dateutil_parse (VDict (dict_update old new))),
     write_text file (fst (encoded dateutil_parse (VDict (dict_update old new)))) store).
Proof.
  intros H. pose proof (loaded_not_unreadable _ _ _ H) as NU.
  unfold save_data, update_json_file. rewrite H. cbn [py_update].
  unfold dump_to_json_file.
  destruct (store file) as [[text|why]|]; try reflexivity.
  exfalso. exact (NU why eq_refl).
Qed.


End Save.

Example sorted_example :
  sorted (fun v => Ok v) [VStr "z"; VStr "a"; VStr "m"] = Ok [VStr "a"; VStr "m"; VStr "z"].
Proof. reflexivity. Qed.

Example merge_example :
  let store := one_file "data.json" (dq "{'a': 1, 'b': 2}") in
  let saved := save_data isoparse store "data.json"
                         (VDict [("b", VInt 3); ("c", VInt 4)]) SortNone in
  fst saved = Ok tt
  /\ load_json_file isoparse (snd saved) "data.json"
     = Ok (VDict [("a", VInt 1); ("b", VInt 3); ("c", VInt 4)]).
Proof. split; vm_compute; reflexivity. Qed.



(** ** The statements at work on documents *)




Lemma envelope_not_decoded_witness :
  load_json_file isoparse
    (one_file "data.json"
       (dq "[{'__type__': 'datetime', 'repr': '2020-01-05T00:00:00'}, {'__type__': 'nope', 'repr': 'x'}]"))
    "data.json"
  = Ok (VList [VDict [("__type__", VStr "datetime"); ("repr", VStr "2020-01-05T00:00:00")];
               VDict [("__type__", VStr "nope"); ("repr", VStr "x")]]).
Proof.
  refine (envelope_not_decoded isoparse _ "data.json" _
            (RArr [envelope "datetime" "2020-01-05T00:00:00"; envelope "nope" "x"])
            eq_refl _ eq_refl).
  vm_compute. reflexivity.
Defined.

(** What was saved as a time inside a list comes back as a mapping. *)
Example datetime_in_list_not_recovered :
  let saved := save_data isoparse no_files "data.json"
                 (VDict [("when", VList [VDatetime (mk_datetime 2020 1 5 0 0 0 0)])])
                 SortNone in
  fst saved = Ok tt
  /\ load_json_file isoparse (snd saved) "data.json"
     = Ok (VDict [("when", VList [VDict [("__type__", VStr "datetime");
                                         ("repr", VStr "2020-01-05T00:00:00")]])]).
Proof. split; vm_compute; reflexivity. Qed.

(** Under a key of a mapping it is recovered. *)
Example datetime_under_key_recovered :
  let saved := save_data isoparse no_files "data.json"
                 (VDict [("when", VDatetime (mk_datetime 2020 1 5 0 0 0 0))])
                 SortNone in
  fst saved = Ok tt
  /\ load_json_file isoparse (snd saved) "data.json"
     = Ok (VDict [("when", VDatetime (mk_datetime 2020 1 5 0 0 0 0))]).
Proof. split; vm_compute; reflexivity. Qed.

Example top_level_unknown_tag_loads :
  load_json_file isoparse
    (one_file "data.json" (dq "{'__type__': 'not_a_handler', 'repr': 'x'}")) "data.json"
  = Ok (VDict [("__type__", VStr "not_a_handler"); ("repr", VStr "x")]).
Proof. vm_compute. reflexivity. Qed.


(** ** Saving a sequence *)

Lemma insert_keyed_strs x ys :
  insert_keyed (keyed_str x) (map keyed_str ys) = Ok (map keyed_str (insert_str x ys)).
Proof.
  induction ys as [|y ys IH]; [reflexivity|].
  cbn [map insert_keyed insert_str]. cbn [keyed_str fst py_lt bind].
  destruct (String.ltb x y); [reflexivity|].
  fold (keyed_str x). rewrite IH. reflexivity.
Qed.

Lemma fold_insert_keyed_strs xs acc :
  fold_left (fun a x => l <- a ;; insert_keyed x l) (map keyed_str xs)
            (Ok (map keyed_str acc))
  = Ok (map keyed_str (fold_left (fun a x => insert_str x a) xs acc)).
Proof.
  revert acc. induction xs as [|x xs IH]; intros acc; [reflexivity|].
  cbn [map fold_left bind]. rewrite insert_keyed_strs. apply IH.
Qed.

(** [sorted] with the identity as key, on strings. *)
Lemma sorted_strs xs :
  sorted (fun v => Ok v) (map VStr xs) = Ok (map VStr (sort_strs xs)).
Proof.
  unfold sorted.
  assert (K : mapM (fun x : value => k <- Ok x ;; Ok (k, x)) (map VStr xs)
              = Ok (map keyed_str xs)).
  { induction xs as [|x xs IH]; [reflexivity|].
    cbn [map mapM]. rewrite IH. reflexivity. }
  rewrite K. cbn [bind].
  change (@Ok (list (value * value)) []) with (Ok (map keyed_str [])).
  rewrite (fold_insert_keyed_strs xs []). cbn [bind].
  rewrite map_map. reflexivity.
Qed.

Lemma insert_str_perm x ys : Permutation (x :: ys) (insert_str x ys).
Proof.
  induction ys as [|y ys IH]; cbn [insert_str]; [apply Permutation_refl|].
  destruct (String.ltb x y); [apply Permutation_refl|].
  apply perm_trans with (y :: x :: ys); [apply perm_swap | apply perm_skip, IH].
Qed.

Lemma sort_strs_perm xs : Permutation xs (sort_strs xs).
Proof.
  unfold sort_strs.
  assert (G : forall acc, Permutation (xs ++ acc)
                            (fold_left (fun a x => insert_str x a) xs acc)).
  { induction xs as [|x xs IH]; intros acc; [apply Permutation_refl|].
    cbn [fold_left]. eapply perm_trans; [|apply IH].
    eapply perm_trans; [apply (Permutation_middle xs acc x)|].
    apply Permutation_app_head, insert_str_perm. }
  specialize (G []). rewrite app_nil_r in G. exact G.
Qed.

Lemma ltb_asym x y : String.ltb x y = true -> String.ltb y x = false.
Proof.
  unfold String.ltb. rewrite (String.compare_antisym x y).
  destruct (String.compare y x); simpl; congruence.
Qed.

Lemma insert_str_head x ys :
  exists tl, insert_str x ys = x :: tl
             \/ (exists y ys', ys = y :: ys' /\ String.ltb x y = false
                                /\ insert_str x ys = y :: tl).
Proof.
  destruct ys as [|y ys]; cbn [insert_str]; [eexists; left; reflexivity|].
  destruct (String.ltb x y) eqn:E; eexists; [left; reflexivity|].
  right. exists y, ys. repeat split. exact E.
Qed.

Lemma insert_str_ascending x ys : ascending ys -> ascending (insert_str x ys).
Proof.
  induction ys as [|y ys IH]; intros A; [simpl; auto|].
  cbn [insert_str]. destruct (String.ltb x y) eqn:E.
  - split; [apply ltb_asym, E | exact A].
  - destruct A as [Ay A]. split; [|exact (IH A)].
    destruct (insert_str_head x ys) as (tl & [->|(y' & ys' & -> & _ & ->)]);
      [exact E | exact Ay].
Qed.

Lemma sort_strs_ascending xs : ascending (sort_strs xs).
Proof.
  unfold sort_strs.
  assert (G : forall acc, ascending acc ->
                          ascending (fold_left (fun a x => insert_str x a) xs acc)).
  { induction xs as [|x xs IH]; intros acc A; [exact A|].
    cbn [fold_left]. apply IH, insert_str_ascending, A. }
  apply G. exact I.
Qed.

Section SaveSequence.
Variable dateutil_parse : string -> result datetime.

(** C5 fails in the code. Saving a sequence of strings with the identity
    as sort key, no file being there: the elements are put in ascending
    order, then [dict.update] takes each of them for a key/value pair. A
    string whose length is not two is no pair, so the save raises
    [ValueError] and nothing is written. *)
Theorem save_sequence_fails store file xs :
  store file = None ->
  xs <> [] ->
  Forall (fun s => String.length s <> 2%nat) xs ->
  sorted (fun v => Ok v) (map VStr xs) = Ok (map VStr (sort_strs xs))
  /\ ascending (sort_strs xs)
  /\ save_data dateutil_parse store file (VList (map VStr xs)) (SortKey (fun v => Ok v))
     = (Raise ValueError, store).
Proof.
  intros Hf Hne Hlen. split; [apply sorted_strs|]. split; [apply sort_strs_ascending|].
  unfold save_data. rewrite sorted_strs.
  pose proof (sort_strs_perm xs) as P.
  destruct (sort_strs xs) as [|y ys].
  - apply Permutation_sym, Permutation_nil in P. contradiction.
  - assert (Hy : String.length y <> 2%nat).
    { rewrite Forall_forall in Hlen. apply Hlen.
      apply Permutation_in with (y :: ys); [apply Permutation_sym, P | now left]. }
    unfold update_json_file, load_json_file, exists_. rewrite Hf.
    cbn [negb py_update map update_elements].
    assert (E : update_element [] (VStr y) = Raise ValueError).
    { destruct y as [|a [|b [|c y']]]; try reflexivity. exfalso. apply Hy. reflexivity. }
    rewrite E. reflexivity.
Qed.
End SaveSequence.

Lemma save_sequence_fails_witness :
  sorted (fun v => Ok v) [VStr "z"; VStr "a"; VStr "m"]
  = Ok [VStr "a"; VStr "m"; VStr "z"]
  /\ ascending ["a"; "m"; "z"]
  /\ save_data isoparse no_files "data.json"
               (VList [VStr "z"; VStr "a"; VStr "m"]) (SortKey (fun v => Ok v))
     = (Raise ValueError, no_files).
Proof.
  refine (save_sequence_fails isoparse no_files "data.json" ["z"; "a"; "m"] eq_refl _ _).
  - discriminate.
  - repeat constructor; discriminate.
Defined.

(** ** What is written can be read back *)

Lemma append_assoc (a b c : string) : (a ++ b) ++ c = a ++ (b ++ c).
Proof. induction a as [|x a IH]; simpl; [reflexivity | rewrite IH; reflexivity]. Qed.

Lemma length_append (a b : string) :
  String.length (a ++ b) = (String.length a + String.length b)%nat.
Proof. induction a as [|x a IH]; simpl; [reflexivity | rewrite IH; reflexivity]. Qed.

Lemma scanstring_escape_char c tail :
  scanstring (escape_char c ++ tail)
  = ('(t, r) <- scanstring tail ;; Ok (String c t, r)).
Proof. destruct c as [[] [] [] [] [] [] [] []]; reflexivity. Qed.

(** [scanstring] undoes [encode_basestring_ascii]. *)
Lemma scanstring_escape s rest :
  scanstring (escape_chars s ++ String "034" rest) = Ok (s, rest).
Proof.
  induction s as [|c s IH]; [reflexivity|].
  cbn [escape_chars]. rewrite append_assoc, scanstring_escape_char, IH. reflexivity.
Qed.

Lemma follows_cases rest :
  follows rest = true ->
  float_tail rest = false
  /\ match rest with String c _ => isdigit c = false | "" => True end.
Proof.
  destruct rest as [|c r]; [simpl; auto|]. cbn [follows]. intros H.
  apply orb_prop in H as [H|H]; apply Ascii.eqb_eq in H; subst c;
    split; reflexivity.
Qed.

Lemma span_digits_app ds rest :
  all_chars isdigit ds = true ->
  match rest with String c _ => isdigit c = false | "" => True end ->
  span_digits (ds ++ rest) = (ds, rest).
Proof.
  intros D R. induction ds as [|c ds IH].
  - destruct rest as [|c r]; [reflexivity|]. simpl. rewrite R. reflexivity.
  - simpl in D. apply andb_prop in D as [Dc D]. simpl. rewrite Dc, (IH D).
    reflexivity.
Qed.

Lemma value_of_digits_pos p :
  value_of_digits (NilEmpty.string_of_uint (Pos.to_uint p)) = Zpos p.
Proof.
  unfold value_of_digits. rewrite NilEmpty.usu. unfold N.of_uint.
  rewrite DecimalPos.Unsigned.of_to. reflexivity.
Qed.

Lemma nzhead_not_D0 d x : Decimal.nzhead d <> Decimal.D0 x.
Proof. induction d; simpl; try discriminate. exact IHd. Qed.

(** The decimal digits of a positive number do not start with a zero. *)
Lemma first_digit_nonzero p r :
  NilEmpty.string_of_uint (Pos.to_uint p) <> String "0" r.
Proof.
  intros H.
  pose proof (DecimalPos.Unsigned.to_of (Pos.to_uint p)) as N.
  rewrite DecimalPos.Unsigned.of_to in N. cbn [N.to_uint] in N.
  pose proof (DecimalPos.Unsigned.to_uint_nonzero p) as NZ.
  destruct (Pos.to_uint p) as [|d|d|d|d|d|d|d|d|d|d] eqn:E; simpl in H;
    try discriminate H.
  unfold Decimal.unorm in N. cbn [Decimal.nzhead] in N.
  destruct (Decimal.nzhead d) eqn:Z; try discriminate N.
  - exact (NZ N).
  - exact (nzhead_not_D0 d _ Z).
Qed.

Lemma digit_or_minus c :
  isdigit c = true \/ c = "-"%char ->
  Ascii.eqb c "034" = false /\ Ascii.eqb c "{" = false /\ Ascii.eqb c "[" = false
  /\ Ascii.eqb "n" c = false /\ Ascii.eqb "t" c = false /\ Ascii.eqb "f" c = false
  /\ is_ws c = false /\ Ascii.eqb c "]" = false.
Proof.
  intros [H| ->]; [|repeat split].
  destruct c as [[] [] [] [] [] [] [] []]; try discriminate H; repeat split.
Qed.

Lemma str_of_int_head z :
  exists c r, str_of_int z = String c r /\ (isdigit c = true \/ c = "-"%char).
Proof.
  destruct z as [|p|p].
  - exists "0"%char, "". split; [reflexivity | left; reflexivity].
  - destruct (first_digit_of_pos p) as (c & r & E & D).
    exists c, r. split; [exact E | left; exact D].
  - eexists _, _. split; [reflexivity | right; reflexivity].
Qed.

Lemma match_number_str_of_int z rest :
  follows rest = true ->
  match_number (str_of_int z ++ rest) = Some (Ok z, rest).
Proof.
  intros F. apply follows_cases in F as [FT ND].
  assert (P : forall p (neg : bool),
    match NilEmpty.string_of_uint (Pos.to_uint p) ++ rest with
    | "" => None
    | String c r =>
        if Ascii.eqb c "0" then
          Some (if float_tail r then Unmodelled else Ok 0%Z, r)
        else if isdigit c then
          let (ds, rest0) := span_digits (NilEmpty.string_of_uint (Pos.to_uint p) ++ rest) in
          Some (if float_tail rest0 then Unmodelled
                else Ok (if neg then (- value_of_digits ds)%Z else value_of_digits ds),
                rest0)
        else None
    end = Some (Ok (if neg then Zneg p else Zpos p), rest)).
  { intros p neg.
    pose proof (first_digit_nonzero p) as NZ.
    destruct (first_digit_of_pos p) as (c & r & E & D).
    rewrite span_digits_app by (try apply digits_of_uint; exact ND).
    rewrite E in NZ |- *. cbn [append].
    destruct (Ascii.eqb c "0") eqn:C0.
    { apply Ascii.eqb_eq in C0. subst c. exfalso. exact (NZ r eq_refl). }
    rewrite D, FT. rewrite <- E, value_of_digits_pos. destruct neg; reflexivity. }
  unfold match_number. destruct z as [|p|p].
  - cbn. rewrite FT. reflexivity.
  - cbn [str_of_int].
    destruct (first_digit_of_pos p) as (c & r & E & D).
    pose proof (P p false) as P'. rewrite E in P' |- *. cbn [append] in P' |- *.
    assert (Cm : Ascii.eqb c "-" = false).
    { apply isdigit_cases in D. tauto. }
    rewrite Cm. exact P'.
  - cbn [str_of_int append]. rewrite Ascii.eqb_refl. exact (P p true).
Qed.

Lemma and_then_ok a b : snd a = Ok tt -> and_then a b = (fst a ++ fst b, snd b).
Proof. destruct a as [s [[]| |]]; simpl; intros H; try discriminate H. reflexivity. Qed.

Lemma skip_ws_spaces n s : skip_ws (spaces n ++ s) = skip_ws s.
Proof. induction n as [|n IH]; [reflexivity | exact IH]. Qed.

Lemma skip_ws_newline_indent level s : skip_ws (newline_indent level ++ s) = skip_ws s.
Proof. unfold newline_indent. cbn [append skip_ws is_ws]. apply skip_ws_spaces. Qed.

Lemma items_text_follows enc level l rest : follows (items_text enc level l rest) = true.
Proof. destruct l; reflexivity. Qed.

Lemma members_text_follows enc level d rest : follows (members_text enc level d rest) = true.
Proof. destruct d as [|[k v] d]; reflexivity. Qed.

Section Written.
Variable default : value -> result value.

(** A native value is written to the end. *)
Lemma write_items_ok (enc : value -> writer) level first l :
  Forall (fun v => snd (enc v) = Ok tt) l ->
  snd (write_items enc level first l) = Ok tt.
Proof.
  intros H. revert first. induction H as [|v l Hv _ IH]; intros first; [reflexivity|].
  cbn [write_items]. rewrite !and_then_ok by (try reflexivity; exact Hv). apply IH.
Qed.

Lemma write_members_ok (enc : value -> writer) level first (d : dict) :
  Forall (fun kv => snd (enc (snd kv)) = Ok tt) d ->
  snd (write_members enc level first d) = Ok tt.
Proof.
  intros H. revert first. induction H as [|[k v] l Hv _ IH]; intros first; [reflexivity|].
  cbn [write_members]. rewrite !and_then_ok by (try reflexivity; exact Hv). apply IH.
Qed.

Lemma native_written n : forall v level,
  (encode_depth v <= n)%nat -> json_native v = true ->
  snd (iterencode default n v level) = Ok tt.
Proof.
  induction n as [|n IH]; intros v level D N.
  - destruct v; simpl in D; lia.
  - destruct v as [|b|z|s|l|d|dt|dd|td|w z|l|k v'|o]; try discriminate N;
      cbn [encode_depth] in D; try reflexivity.
    + destruct b; reflexivity.
    + destruct l as [|v l]; [reflexivity|]. cbn [iterencode].
      rewrite !and_then_ok; try reflexivity.
      apply write_items_ok.
      assert (Dl : Forall (fun v => (encode_depth v <= n)%nat) (v :: l))
        by (apply depth_items; lia).
      rewrite Forall_forall in Dl |- *. intros x Hx.
      cbn [json_native] in N. rewrite forallb_forall in N.
      apply IH; [exact (Dl _ Hx) | exact (N _ Hx)].
    + destruct d as [|kv d]; [reflexivity|]. cbn [iterencode].
      rewrite !and_then_ok; try reflexivity.
      apply write_members_ok.
      assert (Dl : Forall (fun kv => (encode_depth (snd kv) <= n)%nat) (kv :: d))
        by (apply depth_members; lia).
      rewrite Forall_forall in Dl |- *. intros x Hx.
      cbn [json_native] in N. rewrite forallb_forall in N.
      apply IH; [exact (Dl _ Hx) | exact (N _ Hx)].
Qed.

(** The text of the items behind the first one. *)
Lemma write_items_text (enc : value -> writer) level l rest :
  Forall (fun v => snd (enc v) = Ok tt) l ->
  fst (write_items enc level false l) ++ newline_indent level ++ String "]" rest
  = items_text enc level l rest.
Proof.
  induction 1 as [|v l Hv Hl IH]; [reflexivity|].
  cbn [write_items items_text].
  rewrite !and_then_ok by (try reflexivity; exact Hv). cbn [fst emit].
  rewrite !append_assoc. cbn [append]. rewrite <- IH. reflexivity.
Qed.

Lemma write_members_text (enc : value -> writer) level (d : dict) rest :
  Forall (fun kv => snd (enc (snd kv)) = Ok tt) d ->
  fst (write_members enc level false d) ++ newline_indent level ++ String "}" rest
  = members_text enc level d rest.
Proof.
  induction 1 as [|[k v] l Hv Hl IH]; [reflexivity|].
  cbn [write_members members_text]. cbn [snd] in Hv.
  rewrite !and_then_ok by (try reflexivity; exact Hv). cbn [fst emit].
  unfold member_text, encode_basestring_ascii.
  rewrite !append_assoc. cbn [append]. rewrite !append_assoc. cbn [append].
  rewrite <- IH. reflexivity.
Qed.
End Written.

Lemma skip_ws_head c r : is_ws c = false -> skip_ws (String c r) = String c r.
Proof. intros H. cbn [skip_ws]. rewrite H. reflexivity. Qed.

Lemma scan_array_open m level X c r :
  X = String c r -> is_ws c = false -> Ascii.eqb c "]" = false ->
  scan_once raw_builder (S m) (String "[" (newline_indent level ++ X))
  = ('(values, rest) <- array_items raw_builder m X ;; Ok (RArr values, rest)).
Proof.
  intros -> W B. rewrite scan_once_S.
  change (Ascii.eqb "[" "034") with false. change (Ascii.eqb "[" "{") with false.
  change (Ascii.eqb "[" "[") with true. cbv iota.
  rewrite skip_ws_newline_indent, (skip_ws_head _ _ W), B. reflexivity.
Qed.

Lemma scan_object_open m level Y :
  scan_once raw_builder (S m) (String "{" (newline_indent level ++ String "034" Y))
  = ('(pairs, rest) <- object_members raw_builder m Y ;; Ok (RObj pairs, rest)).
Proof.
  rewrite scan_once_S.
  change (Ascii.eqb "{" "034") with false. change (Ascii.eqb "{" "{") with true.
  cbv iota. rewrite skip_ws_newline_indent.
  cbn [skip_ws is_ws]. change (Ascii.eqb "034" "}") with false.
  change (Ascii.eqb "034" "034") with true. cbv iota.
  destruct (object_members raw_builder m Y) as [[pairs rest]| |]; reflexivity.
Qed.

Section Scan.
Variable enc : value -> writer.
Variable level : nat.

Lemma reads_back_length v rest :
  reads_back enc v -> (1 <= String.length (fst (enc v) ++ rest))%nat.
Proof. intros [(c & r & -> & _) _]. simpl. lia. Qed.

Lemma array_written l : forall v rest m,
  reads_back enc v -> Forall (reads_back enc) l ->
  (2 * String.length (fst (enc v) ++ items_text enc level l rest) + 1 < m)%nat ->
  array_items raw_builder m (fst (enc v) ++ items_text enc level l rest)
  = Ok (raw_of v :: map raw_of l, rest).
Proof.
  induction l as [|v2 l IH]; intros v rest m Hv Hl L;
    (destruct m as [|m]; [lia|]); rewrite array_items_S;
    pose proof Hv as [_ Hscan];
    rewrite Hscan by (try apply items_text_follows; lia); cbn [bind].
  - cbn [items_text]. rewrite skip_ws_newline_indent. reflexivity.
  - cbn [items_text]. cbn [skip_ws is_ws].
    change (Ascii.eqb "," "]") with false. change (Ascii.eqb "," ",") with true.
    cbv iota. rewrite skip_ws_newline_indent.
    inversion Hl as [|? ? Hv2 Hl']; subst.
    pose proof Hv2 as [(c & r & Hc & W & _) _].
    assert (S2 : skip_ws (fst (enc v2) ++ items_text enc level l rest)
                 = fst (enc v2) ++ items_text enc level l rest).
    { rewrite Hc. cbn [append]. apply skip_ws_head, W. }
    rewrite S2, IH; [reflexivity | exact Hv2 | exact Hl' |].
    cbn [items_text] in L. rewrite length_append in L. cbn [String.length] in L.
    rewrite length_append in L. unfold newline_indent in L. cbn [String.length] in L.
    pose proof (reads_back_length v "" Hv) as L1. rewrite length_append in L1.
    simpl in L1. lia.
Qed.

Lemma object_written d : forall key v rest m,
  reads_back enc v -> Forall (fun kv => reads_back enc (snd kv)) d ->
  (2 * String.length (member_text enc key v (members_text enc level d rest)) < m)%nat ->
  object_members raw_builder m (member_text enc key v (members_text enc level d rest))
  = Ok ((key, raw_of v) :: map (fun kv => (fst kv, raw_of (snd kv))) d, rest).
Proof.
  induction d as [|[k2 v2] d IH]; intros key v rest m Hv Hd L;
    (destruct m as [|m]; [lia|]); rewrite object_members_S;
    unfold member_text in L |- *; rewrite scanstring_escape; cbn [bind];
    cbn [skip_ws is_ws]; change (Ascii.eqb ":" ":") with true; cbv iota;
    pose proof Hv as [(c & r & Hc & W & _) Hscan];
    rewrite length_append in L; cbn [String.length] in L.
  - assert (S1 : skip_ws (fst (enc v) ++ members_text enc level [] rest)
                 = fst (enc v) ++ members_text enc level [] rest).
    { rewrite Hc. cbn [append]. apply skip_ws_head, W. }
    rewrite S1, Hscan by (try apply members_text_follows; lia). cbn [bind].
    cbn [members_text]. rewrite skip_ws_newline_indent. reflexivity.
  - assert (S1 : skip_ws (fst (enc v) ++ members_text enc level ((k2, v2) :: d) rest)
                 = fst (enc v) ++ members_text enc level ((k2, v2) :: d) rest).
    { rewrite Hc. cbn [append]. apply skip_ws_head, W. }
    rewrite S1, Hscan by (try apply members_text_follows; lia). cbn [bind].
    cbn [members_text]. cbn [skip_ws is_ws].
    change (Ascii.eqb "," "}") with false. change (Ascii.eqb "," ",") with true.
    cbv iota. rewrite skip_ws_newline_indent. cbn [skip_ws is_ws].
    change (Ascii.eqb "034" "034") with true. cbv iota.
    inversion Hd as [|? ? Hv2 Hd']; subst. cbn [snd] in Hv2.
    rewrite IH; [reflexivity | exact Hv2 | exact Hd' |].
    cbn [members_text] in L. rewrite length_append in L. cbn [String.length] in L.
    rewrite length_append in L. cbn [String.length] in L. lia.
Qed.
End Scan.

Lemma append_nil_r (s : string) : s ++ "" = s.
Proof. induction s as [|c s IH]; simpl; [reflexivity | rewrite IH; reflexivity]. Qed.

Section Written.
Variable default : value -> result value.

Lemma scan_atom_int z rest :
  follows rest = true ->
  scan_atom raw_builder (str_of_int z ++ rest) = Ok (RInt z, rest).
Proof.
  intros F. unfold scan_atom. rewrite (match_number_str_of_int z rest F).
  destruct (str_of_int_head z) as (c & r & -> & D).
  apply digit_or_minus in D as (_ & _ & _ & Hn & Ht & Hf & _).
  cbn [append starts_with]. rewrite Hn, Ht, Hf. reflexivity.
Qed.

Lemma scan_once_atom m c r :
  Ascii.eqb c "034" = false -> Ascii.eqb c "{" = false -> Ascii.eqb c "[" = false ->
  scan_once raw_builder (S m) (String c r) = scan_atom raw_builder (String c r).
Proof. intros H1 H2 H3. rewrite scan_once_S, H1, H2, H3. reflexivity. Qed.

(** Scanning what the encoder wrote for a native value gives its syntax
    tree, and leaves what comes behind. *)
Lemma scan_written n : forall v level,
  (encode_depth v <= n)%nat -> json_native v = true ->
  reads_back (fun v => iterencode default n v level) v.
Proof.
  induction n as [|n IH]; intros v level D N.
  { destruct v; simpl in D; lia. }
  destruct v as [|b|z|s|l|d|dt|dd|td|w z|l|k v'|o]; try discriminate N;
    cbn [encode_depth] in D; unfold reads_back.
  - (* None *)
    split; [exists "n"%char, "ull"; repeat split|].
    intros rest m F L. destruct m as [|m]; [lia|]. reflexivity.
  - (* bool *)
    destruct b.
    + split; [exists "t"%char, "rue"; repeat split|].
      intros rest m F L. destruct m as [|m]; [lia|]. reflexivity.
    + split; [exists "f"%char, "alse"; repeat split|].
      intros rest m F L. destruct m as [|m]; [lia|]. reflexivity.
  - (* int *)
    cbn [iterencode emit fst].
    destruct (str_of_int_head z) as (c & r & E & Dg).
    pose proof (digit_or_minus c Dg) as (H1 & H2 & H3 & _ & _ & _ & W & B).
    split; [exists c, r; repeat split; assumption|].
    intros rest m F L. destruct m as [|m]; [lia|].
    pose proof (scan_atom_int z rest F) as A. rewrite E in A |- *. cbn [append] in A |- *.
    rewrite scan_once_atom by assumption. exact A.
  - (* str *)
    cbn [iterencode emit fst]. unfold encode_basestring_ascii.
    split; [eexists _, _; repeat split|].
    intros rest m F L. destruct m as [|m]; [lia|].
    cbn [append]. rewrite append_assoc. cbn [append].
    rewrite scan_once_S. change (Ascii.eqb "034" "034") with true. cbv iota.
    rewrite scanstring_escape. reflexivity.
  - (* list *)
    destruct l as [|v l].
    { split; [exists "["%char, "]"; repeat split|].
      intros rest m F L. destruct m as [|m]; [lia|]. reflexivity. }
    set (enc := fun v => iterencode default n v (S level)).
    assert (Dl : Forall (fun v => (encode_depth v <= n)%nat) (v :: l))
      by (apply depth_items; lia).
    cbn [json_native] in N. rewrite forallb_forall in N.
    assert (G : Forall (reads_back enc) (v :: l)).
    { rewrite Forall_forall in Dl |- *. intros x Hx.
      apply IH; [exact (Dl _ Hx) | exact (N _ Hx)]. }
    assert (O : Forall (fun v => snd (enc v) = Ok tt) (v :: l)).
    { rewrite Forall_forall in Dl |- *. intros x Hx.
      apply native_written; [exact (Dl _ Hx) | exact (N _ Hx)]. }
    inversion G as [|? ? Gv Gl]; subst. inversion O as [|? ? Ov Ol]; subst.
    assert (T : forall rest,
      fst (iterencode default (S n) (VList (v :: l)) level) ++ rest
      = String "[" (newline_indent (S level)
                    ++ fst (enc v) ++ items_text enc level l rest)).
    { intros rest. cbn [iterencode]. fold enc.
      rewrite (and_then_ok (emit "[")) by reflexivity.
      rewrite and_then_ok by (apply write_items_ok; exact O).
      cbn [write_items].
      rewrite (and_then_ok (emit _)) by reflexivity.
      rewrite and_then_ok by exact Ov.
      cbn [fst emit]. rewrite ?append_assoc. cbn [append]. rewrite ?append_assoc.
      rewrite <- (write_items_text enc level l rest Ol). reflexivity. }
    split.
    { pose proof (T "") as T0. rewrite append_nil_r in T0. rewrite T0.
      eexists _, _. repeat split. }
    intros rest m F L. rewrite T in L |- *. destruct m as [|m]; [lia|].
    pose proof Gv as [(c & r & Hc & W & B) Hs].
    rewrite (scan_array_open m (S level) _ c (r ++ items_text enc level l rest));
      [| rewrite Hc; reflexivity | exact W | exact B].
    rewrite (array_written enc level l v rest m); [reflexivity | exact Gv | exact Gl |].
    cbn [String.length] in L. rewrite length_append in L. lia.
  - (* dict *)
    destruct d as [|[key v] d].
    { split; [exists "{"%char, "}"; repeat split|].
      intros rest m F L. destruct m as [|m]; [lia|]. reflexivity. }
    set (enc := fun v => iterencode default n v (S level)).
    assert (Dl : Forall (fun kv => (encode_depth (snd kv) <= n)%nat) ((key, v) :: d))
      by (apply depth_members; lia).
    cbn [json_native] in N. rewrite forallb_forall in N.
    assert (G : Forall (fun kv => reads_back enc (snd kv)) ((key, v) :: d)).
    { rewrite Forall_forall in Dl |- *. intros x Hx.
      apply IH; [exact (Dl _ Hx) | exact (N _ Hx)]. }
    assert (O : Forall (fun kv => snd (enc (snd kv)) = Ok tt) ((key, v) :: d)).
    { rewrite Forall_forall in Dl |- *. intros x Hx.
      apply native_written; [exact (Dl _ Hx) | exact (N _ Hx)]. }
    inversion G as [|? ? Gv Gl]; subst. inversion O as [|? ? Ov Ol]; subst.
    cbn [snd] in Gv, Ov.
    assert (T : forall rest,
      fst (iterencode default (S n) (VDict ((key, v) :: d)) level) ++ rest
      = String "{" (newline_indent (S level)
                    ++ String "034"
                         (member_text enc key v (members_text enc level d rest)))).
    { intros rest. cbn [iterencode]. fold enc.
      rewrite (and_then_ok (emit _)) by reflexivity.
      rewrite and_then_ok by (apply write_members_ok; exact O).
      cbn [write_members].
      rewrite (and_then_ok (emit _)) by reflexivity.
      rewrite and_then_ok by exact Ov.
      cbn [fst emit]. unfold member_text, encode_basestring_ascii.
      rewrite ?append_assoc. cbn [append]. rewrite ?append_assoc. cbn [append].
      rewrite ?append_assoc. cbn [append].
      rewrite <- (write_members_text enc level d rest Ol). reflexivity. }
    split.
    { pose proof (T "") as T0. rewrite append_nil_r in T0. rewrite T0.
      eexists _, _. repeat split. }
    intros rest m F L. rewrite T in L |- *. destruct m as [|m]; [lia|].
    rewrite scan_object_open.
    rewrite (object_written enc level d key v rest m); [reflexivity | exact Gv | exact Gl |].
    cbn [String.length] in L. rewrite length_append in L. cbn [String.length] in L. lia.
Qed.

(** [decode] reads back what was written for a native value. *)
Lemma decode_written v :
  json_native v = true ->
  decode raw_builder (fst (iterencode default (encode_depth v) v 0)) = Ok (raw_of v).
Proof.
  intros N.
  destruct (scan_written (encode_depth v) v 0 (le_n _) N) as [(c & r & Hc & W & _) Hs].
  cbv beta in Hc, Hs. unfold decode. rewrite Hc, (skip_ws_head _ _ W), <- Hc.
  specialize (Hs "" (S (2 * String.length (fst (iterencode default (encode_depth v) v 0))))
                eq_refl).
  rewrite append_nil_r in Hs. rewrite Hs by lia. reflexivity.
Qed.
End Written.

(** Induction on values, through the lists they hold. *)
Lemma value_induction (P : value -> Prop) :
  P VNone -> (forall b, P (VBool b)) -> (forall z, P (VInt z)) -> (forall s, P (VStr s)) ->
  (forall l, Forall P l -> P (VList l)) ->
  (forall d, Forall (fun kv => P (snd kv)) d -> P (VDict d)) ->
  (forall dt, P (VDatetime dt)) -> (forall d, P (VDate d)) -> (forall td, P (VTimedelta td)) ->
  (forall w n, P (VNumpyInt w n)) ->
  (forall l, Forall P l -> P (VNdarray l)) ->
  (forall k v, P v -> P (VStl k v)) ->
  (forall o, P (VOpaque o)) ->
  forall v, P v.
Proof.
  intros H1 H2 H3 H4 H5 H6 H7 H8 H9 H10 H11 H12 H13.
  fix IH 1. intros [|b|z|s|l|d|dt|dd|td|w z|l|k v'|o].
  - exact H1.
  - apply H2.
  - apply H3.
  - apply H4.
  - apply H5. induction l as [|x l IHl]; constructor; [apply IH | exact IHl].
  - apply H6. induction d as [|[k x] d IHl]; constructor; [apply IH | exact IHl].
  - apply H7.
  - apply H8.
  - apply H9.
  - apply H10.
  - apply H11. induction l as [|x l IHl]; constructor; [apply IH | exact IHl].
  - apply H12, IH.
  - apply H13.
Qed.

Lemma dict_set_fresh k v (d : dict) :
  existsb (String.eqb k) (map fst d) = false -> dict_set k v d = (d ++ [(k, v)])%list.
Proof.
  unfold dict_set. induction d as [|[k0 v0] d IH]; simpl; [reflexivity|].
  intros H. apply orb_false_iff in H as [H0 H1]. rewrite H0, (IH H1). reflexivity.
Qed.

(** [dict(pairs)] of pairs with distinct keys is the pairs. *)
Lemma dict_of_pairs_distinct (d : dict) :
  distinct (map fst d) = true -> dict_of_pairs d = d.
Proof.
  unfold dict_of_pairs.
  assert (G : forall (acc : dict),
    distinct (map fst acc ++ map fst d) = true ->
    fold_left (fun d kv => dict_set (fst kv) (snd kv) d) d acc = (acc ++ d)%list).
  { induction d as [|[k v] d IH]; intros acc H; simpl.
    - rewrite app_nil_r. reflexivity.
    - assert (F : existsb (String.eqb k) (map fst acc) = false).
      { clear IH. induction acc as [|[k0 v0] acc IHa]; [reflexivity|].
        simpl in H |- *. apply andb_prop in H as [H0 H1].
        apply negb_true_iff in H0. rewrite existsb_app in H0.
        apply orb_false_iff in H0 as [_ H0]. simpl in H0.
        apply orb_false_iff in H0 as [H0 _].
        rewrite String.eqb_sym, H0. simpl. exact (IHa H1). }
      rewrite (dict_set_fresh _ _ _ F), IH.
      + rewrite <- app_assoc. reflexivity.
      + rewrite map_app, <- app_assoc. exact H. }
  intros H. exact (G [] H).
Qed.

Lemma ordinary_facts v :
  ordinary v = true ->
  json_native v = true /\ quiet (raw_of v) = true /\ plain (raw_of v) = v.
Proof.
  induction v as [|b|z|s|l IH|d IH|dt|dd|td|w n|l IH|k v' IH|o] using value_induction;
    intros O; try discriminate O; try (repeat split; reflexivity).
  - cbn [ordinary] in O. rewrite forallb_forall in O. rewrite Forall_forall in IH.
    cbn [json_native raw_of quiet plain]. repeat split.
    + apply forallb_forall. intros x Hx. apply (IH x Hx (O x Hx)).
    + apply forallb_forall. intros t Ht. apply in_map_iff in Ht as (x & <- & Hx).
      apply (IH x Hx (O x Hx)).
    + f_equal. rewrite map_map. rewrite <- (map_id l) at 2. apply map_ext_in.
      intros x Hx. apply (IH x Hx (O x Hx)).
  - cbn [ordinary] in O. apply andb_prop in O as [K O].
    rewrite forallb_forall in O. rewrite Forall_forall in IH.
    assert (Ox : forall x, In x d -> ordinary (snd x) = true).
    { intros x Hx. specialize (O x Hx). apply andb_prop in O as [_ O]. exact O. }
    cbn [json_native raw_of quiet plain]. repeat split.
    + apply forallb_forall. intros x Hx. apply (IH x Hx (Ox x Hx)).
    + apply forallb_forall. intros t Ht. apply in_map_iff in Ht as (x & <- & Hx).
      cbn [fst snd]. specialize (O x Hx). apply andb_prop in O as [O1 _].
      rewrite O1. apply (IH x Hx (Ox x Hx)).
    + f_equal. rewrite map_map. cbn [fst snd].
      assert (E : map (fun x : string * value => (fst x, plain (raw_of (snd x)))) d = d).
      { rewrite <- (map_id d) at 2. apply map_ext_in. intros [k x] Hx. cbn [fst snd].
        f_equal. apply (IH (k, x) Hx (Ox _ Hx)). }
      rewrite E. apply dict_of_pairs_distinct, K.
Qed.

Section Reload.
Variable dateutil_parse : string -> result datetime.

(** Loading the text written for an ordinary value gives the value. *)
Lemma load_written store file v :
  ordinary v = true ->
  load_json_file dateutil_parse
    (write_text file (fst (encoded dateutil_parse v)) store) file = Ok v.
Proof.
  intros O. destruct (ordinary_facts v O) as (N & Q & P).
  rewrite (load_decoded dateutil_parse _ file (fst (encoded dateutil_parse v)) (raw_of v)).
  - destruct (quiet_hooked dateutil_parse _ Q) as [-> _]. rewrite P. reflexivity.
  - unfold write_text. rewrite String.eqb_refl. reflexivity.
  - apply decode_written, N.
Qed.
End Reload.

Section Merge.
Variable dateutil_parse : string -> result datetime.

(** C4. Saving a mapping over a file that loads as a mapping writes the
    shallow merge: the text of [old] updated with [new], in which every
    key of [new] has its new value and every other key the value it had;
    and when the merge is an ordinary document, loading the file gives it
    back. The objects in the tree are of registered classes, so that the
    encoder ends well. *)
Theorem save_merges store file old new :
  load_json_file dateutil_parse store file = Ok (VDict old) ->
  NoDup (map fst new) ->
  modelled (VDict (dict_update old new)) = true ->
  has_unregistered (VDict (dict_update old new)) = false ->
  exists text,
    to_json_str dateutil_parse (VDict (dict_update old new)) = Ok text
    /\ save_data dateutil_parse store file (VDict new) SortNone
       = (Ok tt, write_text file text store)
    /\ (forall k v, dict_get k new = Some v ->
                    dict_get k (dict_update old new) = Some v)
    /\ (forall k, dict_get k new = None ->
                  dict_get k (dict_update old new) = dict_get k old)
    /\ (ordinary (VDict (dict_update old new)) = true ->
        load_json_file dateutil_parse (write_text file text store) file
        = Ok (VDict (dict_update old new))).
Proof.
  intros Hl N M U.
  pose proof (encoded_ends dateutil_parse _ M) as E.
  unfold ends_as in E. rewrite U in E.
  exists (fst (encoded dateutil_parse (VDict (dict_update old new)))).
  split; [|split; [|split; [|split]]].
  - unfold to_json_str. rewrite E. reflexivity.
  - rewrite (save_data_merge _ _ _ _ _ Hl), E. reflexivity.
  - intros k v H. apply dict_update_new; [exact N | apply dict_get_In, H].
  - intros k H. apply dict_update_old, H.
  - apply load_written.
Qed.
End Merge.

Lemma save_merges_witness :
  exists text,
    to_json_str isoparse (VDict [("a", VInt 1); ("b", VInt 3); ("c", VInt 4)]) = Ok text
    /\ save_data isoparse (one_file "data.json" (dq "{'a': 1, 'b': 2}")) "data.json"
                 (VDict [("b", VInt 3); ("c", VInt 4)]) SortNone
       = (Ok tt, write_text "data.json" text
                   (one_file "data.json" (dq "{'a': 1, 'b': 2}")))
    /\ (forall k v, dict_get k [("b", VInt 3); ("c", VInt 4)] = Some v ->
                    dict_get k [("a", VInt 1); ("b", VInt 3); ("c", VInt 4)] = Some v)
    /\ (forall k, dict_get k [("b", VInt 3); ("c", VInt 4)] = None ->
                  dict_get k [("a", VInt 1); ("b", VInt 3); ("c", VInt 4)]
                  = dict_get k [("a", VInt 1); ("b", VInt 2)])
    /\ (ordinary (VDict [("a", VInt 1); ("b", VInt 3); ("c", VInt 4)]) = true ->
        load_json_file isoparse
          (write_text "data.json" text (one_file "data.json" (dq "{'a': 1, 'b': 2}")))
          "data.json"
        = Ok (VDict [("a", VInt 1); ("b", VInt 3); ("c", VInt 4)])).
Proof.
  refine (save_merges isoparse (one_file "data.json" (dq "{'a': 1, 'b': 2}")) "data.json"
            [("a", VInt 1); ("b", VInt 2)] [("b", VInt 3); ("c", VInt 4)] _ _ _ _).
  - vm_compute. reflexivity.
  - repeat constructor; simpl; intuition discriminate.
  - reflexivity.
  - reflexivity.
Defined.

(** * Further properties

    More of what the code does: the handlers and the registry, loading
    and saving, [_set_kwargs], [get_list], and the names
    [root_convert.py] gives to what it writes. *)

(** ** The handlers and the registry *)

Lemma timedelta_round_trip_witness :
  round_trip TimedeltaJSON (VTimedelta (mk_timedelta (-3) 86399 999999))
  = Ok (VTimedelta (mk_timedelta (-3) 86399 999999)).
Proof.
  apply (timedelta_round_trip (mk_timedelta (-3) 86399 999999)).
  unfold timedelta_valid. simpl. lia.
Defined.

Section Registry.
Variable dateutil_parse : string -> result datetime.

(** X4. The only exception [json_serial] raises is the [KeyError] of the
    lookup in [types_to_names]: every name the table holds is a key of
    one of the two registries, so the last branch is never taken. *)
Theorem json_serial_raises_lookup_only obj e :
  json_serial dateutil_parse obj = Raise e ->
  e = KeyError (KeyOfType (type_of obj))
  /\ assoc_get pytype_eqb (type_of obj) (types_to_names dateutil_parse) = None.
Proof.
  destruct obj as [|b|z|s|l|d|dt|d|td|w n|l|k v|[w| |q]];
    try destruct w; try destruct k;
    cbv; intros H; try discriminate H; injection H as <-; split; reflexivity.
Qed.

(** X5. An object of a class claimed by a converter is written as the
    native value it converts to: no envelope, the class is not kept. *)
Theorem converted_written_as_native :
  (forall w n, encoded dateutil_parse (VNumpyInt w n) = encoded dateutil_parse (VInt n))
  /\ (forall l, encoded dateutil_parse (VNdarray l) = encoded dateutil_parse (VList l))
  /\ (forall k v, encoded dateutil_parse (VStl k v) = encoded dateutil_parse v).
Proof.
  split; [|split].
  - intros w n. destruct w; reflexivity.
  - intros l. reflexivity.
  - intros k v. destruct k; reflexivity.
Qed.
End Registry.

Lemma json_serial_raises_lookup_only_witness :
  KeyError (KeyOfType T_int) = KeyError (KeyOfType (type_of (VInt 5)))
  /\ assoc_get pytype_eqb (type_of (VInt 5)) (types_to_names isoparse) = None.
Proof.
  apply (json_serial_raises_lookup_only isoparse (VInt 5) (KeyError (KeyOfType T_int))).
  reflexivity.
Defined.

(** ** Loading *)

Lemma skip_ws_blank s : all_chars is_ws s = true -> skip_ws s = "".
Proof.
  induction s as [|c r IH]; simpl; [reflexivity|].
  intros H. apply andb_prop in H as [Hc Hr]. rewrite Hc. exact (IH Hr).
Qed.

(** With a hook that returns what it is given, the scan gives the plain
    value of the syntax tree. *)
Lemma hooked_plain t : hooked (fun o => Ok o) t = Ok (plain t).
Proof.
  induction t as [|b|z|s|items IH|members IH] using raw_induction; try reflexivity.
  - cbn [hooked plain]. rewrite (mapM_ok _ plain _ IH). reflexivity.
  - cbn [hooked plain].
    rewrite (mapM_ok _ (fun m => (fst m, plain (snd m)))); [reflexivity|].
    eapply Forall_impl; [|exact IH]. intros m E. cbv beta in E. rewrite E. reflexivity.
Qed.

Lemma dict_set_at k x (v : value) (pre post : dict) :
  ~ In k (map fst pre) ->
  dict_set k x (pre ++ (k, v) :: post)%list = (pre ++ (k, x) :: post)%list.
Proof.
  unfold dict_set. induction pre as [|[k0 v0] pre IH]; simpl; intros H.
  - rewrite String.eqb_refl. reflexivity.
  - destruct (String.eqb k k0) eqn:E.
    + apply String.eqb_eq in E. subst k0. exfalso. apply H. now left.
    + rewrite IH; [reflexivity|]. intros Hin. apply H. now right.
Qed.

Section Loading.
Variable dateutil_parse : string -> result datetime.
Local Abbreviation hook := (json_deserial dateutil_parse).

(** X8. A file that exists and holds white space only, or nothing: the
    empty text is refused by [from_json_str] itself, the blank one by
    the decoder; both come out wrapped. *)
Theorem load_blank_file store file text :
  store file = Some (File text) ->
  all_chars is_ws text = true ->
  load_json_file dateutil_parse store file
  = Raise (JSONDeserializeError
             (match text with "" => ValueError | _ => JSONDecodeError end)).
Proof.
  intros Hf Hb. unfold load_json_file, exists_, read_text. rewrite Hf.
  cbn [negb bind]. destruct text as [|c text']; [reflexivity|].
  unfold from_json_str, json_loads, decode.
  rewrite (skip_ws_blank _ Hb), scan_once_S. reflexivity.
Qed.

(** X7. On a text none of whose objects has a member named [__type__], the
    hook changes nothing: [from_json_str] gives what [json.loads] gives
    without a hook. *)
Theorem from_json_str_without_type_keys text t :
  decode raw_builder text = Ok t ->
  quiet t = true ->
  from_json_str dateutil_parse text = Ok (plain t)
  /\ from_json_str dateutil_parse text = json_loads (fun o => Ok o) text.
Proof.
  intros Hd Q.
  assert (E : from_json_str dateutil_parse text = Ok (plain t)).
  { unfold from_json_str. destruct text as [|c text']; [discriminate Hd|].
    rewrite (decode_hooked hook _ _ Hd). apply (quiet_hooked dateutil_parse t Q). }
  split; [exact E|].
  rewrite E, (decode_hooked _ _ _ Hd), hooked_plain. reflexivity.
Qed.

Lemma items_skip_inert pre rest obj :
  forallb (fun kv => inert (snd kv)) pre = true ->
  json_deserial_items dateutil_parse (pre ++ rest)%list obj
  = json_deserial_items dateutil_parse rest obj.
Proof.
  induction pre as [|[k v] pre IH]; simpl; [reflexivity|].
  intros H. apply andb_prop in H as [Hv Hr].
  destruct v; try exact (IH Hr).
  simpl in Hv. apply negb_true_iff in Hv. rewrite Hv. exact (IH Hr).
Qed.

(** X6. A mapping held under a key, with the members [__type__] and [repr]:
    when the tag names a serializer and the payload decodes, the key gets
    the decoded value; whatever else the mapping held is dropped. *)
Theorem json_deserial_recovers pre k inner post name payload s x :
  ~ In k (map fst pre) ->
  forallb (fun kv => inert (snd kv)) pre = true ->
  forallb (fun kv => inert (snd kv)) post = true ->
  dict_get "__type__" inner = Some (VStr name) ->
  dict_get "repr" inner = Some payload ->
  assoc_get String.eqb name (names_to_serializers dateutil_parse) = Some s ->
  deserialize s payload = Ok x ->
  json_deserial dateutil_parse (VDict (pre ++ (k, VDict inner) :: post))
  = Ok (VDict (pre ++ (k, x) :: post)).
Proof.
  intros Hk Hpre Hpost Ht Hr Hs Hx. unfold json_deserial.
  rewrite (items_skip_inert _ _ _ Hpre), items_cons_mapping.
  unfold dict_contains. rewrite Ht.
  unfold open_envelope, dict_pop. rewrite Ht. cbn [bind].
  rewrite dict_get_del_other by reflexivity. rewrite Hr. cbn [bind].
  unfold recover, serializer_named. rewrite Hs. cbn [bind]. rewrite Hx. cbn [bind].
  rewrite (items_inert _ _ _ Hpost). cbn [bind].
  rewrite (dict_set_at _ _ _ _ _ Hk). reflexivity.
Qed.
End Loading.

Lemma load_blank_file_witness :
  load_json_file isoparse (one_file "data.json" (String "010" "")) "data.json"
  = Raise (JSONDeserializeError JSONDecodeError).
Proof.
  exact (load_blank_file isoparse _ "data.json" (String "010" "") eq_refl eq_refl).
Defined.

Lemma from_json_str_without_type_keys_witness :
  from_json_str isoparse (dq "{'a': [1, {'b': null}]}")
  = Ok (VDict [("a", VList [VInt 1; VDict [("b", VNone)]])])
  /\ from_json_str isoparse (dq "{'a': [1, {'b': null}]}")
     = json_loads (fun o => Ok o) (dq "{'a': [1, {'b': null}]}").
Proof.
  refine (from_json_str_without_type_keys isoparse (dq "{'a': [1, {'b': null}]}")
            (RObj [("a", RArr [RInt 1; RObj [("b", RNull)]])]) _ eq_refl).
  vm_compute. reflexivity.
Defined.

Lemma json_deserial_recovers_witness :
  json_deserial isoparse
    (VDict [("n", VInt 1);
            ("t", VDict [("note", VStr "x"); ("repr", VStr "1,2,3");
                         ("__type__", VStr "timedelta")]);
            ("m", VDict [])])
  = Ok (VDict [("n", VInt 1); ("t", VTimedelta (mk_timedelta 1 2 3)); ("m", VDict [])]).
Proof.
  refine (json_deserial_recovers isoparse [("n", VInt 1)] "t"
            [("note", VStr "x"); ("repr", VStr "1,2,3"); ("__type__", VStr "timedelta")]
            [("m", VDict [])] "timedelta" (VStr "1,2,3") TimedeltaJSON
            (VTimedelta (mk_timedelta 1 2 3)) _ eq_refl eq_refl eq_refl eq_refl eq_refl eq_refl).
  simpl. intros [H|[]]. discriminate H.
Defined.


Section PayloadFault.
Variable dateutil_parse : string -> result datetime.
Local Abbreviation hook := (json_deserial dateutil_parse).


End PayloadFault.


(** ** Objects under keys come back *)

Lemma datetime_eqb_eq a b : datetime_eqb a b = true -> a = b.
Proof.
  destruct a as [a1 a2 a3 a4 a5 a6 a7], b as [b1 b2 b3 b4 b5 b6 b7].
  unfold datetime_eqb. cbn [year month day hour minute second microsecond].
  rewrite !andb_true_iff, !Z.eqb_eq. intros [[[[[[-> ->] ->] ->] ->] ->] ->]. reflexivity.
Qed.

Lemma timedelta_validb_valid td : timedelta_validb td = true -> timedelta_valid td.
Proof.
  unfold timedelta_validb, timedelta_valid.
  rewrite !andb_true_iff, !Z.leb_le, !Z.ltb_lt. tauto.
Qed.

Lemma timedelta_payload_decodes td :
  timedelta_valid td ->
  deserialize TimedeltaJSON
    (VStr (str_of_int (days td) ++ "," ++ str_of_int (seconds td)
           ++ "," ++ str_of_int (microseconds td)))
  = Ok (VTimedelta td).
Proof.
  intros V. cbn [deserialize TimedeltaJSON].
  change (?a ++ "," ++ ?b ++ "," ++ ?c) with (a ++ String "," (b ++ String "," c)).
  rewrite split_app by apply str_of_int_no_comma.
  rewrite split_app by apply str_of_int_no_comma.
  rewrite split_no_sep by apply str_of_int_no_comma.
  cbn [mapM]. rewrite !int_of_str_of_int. cbn [bind timedelta_call].
  rewrite (timedelta_init_valid td V). reflexivity.
Qed.

Lemma fold_max_map (f g : value -> nat) (l : list value) :
  Forall (fun v => (f v <= g v)%nat) l ->
  (fold_right (fun v n => Nat.max (f v) n) O l
   <= fold_right (fun v n => Nat.max (g v) n) O l)%nat.
Proof. induction 1; simpl; lia. Qed.

Lemma written_as_depth v : (encode_depth (written_as v) <= encode_depth v)%nat.
Proof.
  induction v as [|b|z|s|l IH|d IH|dt|dd|td|w n|l IH|k v' IH|o] using value_induction;
    try (cbn; lia).
  - cbn [written_as encode_depth]. apply le_n_S.
    induction IH as [|x l Hx Hl IHl]; simpl; [lia|]. simpl in IHl. lia.
  - cbn [written_as encode_depth]. apply le_n_S.
    induction IH as [|x l Hx Hl IHl]; simpl; [lia|]. simpl in IHl. lia.
Qed.

Section RoundTrip.
Variable dateutil_parse : string -> result datetime.
Local Abbreviation hook := (json_deserial dateutil_parse).
Local Abbreviation default := (json_serial dateutil_parse).
Local Abbreviation keep := (fun v => storable dateutil_parse v || restorable dateutil_parse v).

Lemma written_as_native v : keep v = true -> json_native (written_as v) = true.
Proof.
  induction v as [|b|z|s|l IH|d IH|dt|dd|td|w n|l IH|k v' IH|o] using value_induction;
    cbn [storable restorable orb written_as json_native]; intros H;
    try reflexivity; try discriminate H.
  - rewrite orb_false_r in H. rewrite forallb_forall in H. rewrite Forall_forall in IH.
    apply forallb_forall. intros x Hx. apply in_map_iff in Hx as (y & <- & Hy).
    apply (IH y Hy). rewrite (H y Hy). reflexivity.
  - rewrite orb_false_r in H. apply andb_prop in H as [_ H].
    rewrite forallb_forall in H. rewrite Forall_forall in IH.
    apply forallb_forall. intros x Hx. apply in_map_iff in Hx as (y & <- & Hy).
    cbn [snd]. apply (IH y Hy). specialize (H y Hy). apply andb_prop in H as [_ H]. exact H.
Qed.

Lemma write_items_map (enc : value -> writer) (w : value -> value) level first l :
  write_items enc level first (map w l) = write_items (fun v => enc (w v)) level first l.
Proof.
  revert first. induction l as [|x l IH]; intros first; [reflexivity|].
  cbn [map write_items]. rewrite IH. reflexivity.
Qed.

Lemma write_members_map (enc : value -> writer) (w : value -> value) level first (d : dict) :
  write_members enc level first (map (fun kv => (fst kv, w (snd kv))) d)
  = write_members (fun v => enc (w v)) level first d.
Proof.
  revert first. induction d as [|[k x] d IH]; intros first; [reflexivity|].
  cbn [map write_members fst snd]. rewrite IH. reflexivity.
Qed.

Lemma iterencode_written_as v : forall n level,
  (encode_depth v <= n)%nat -> keep v = true ->
  iterencode default n v level = iterencode default n (written_as v) level.
Proof.
  induction v as [|b|z|s|l IH|d IH|dt|dd|td|w n0|l IH|k v' IH|o] using value_induction;
    intros n level Hn H; cbn [storable restorable orb] in H;
    try reflexivity; try discriminate H.
  - destruct n as [|n']; [reflexivity|].
    cbn [encode_depth] in Hn. apply le_S_n in Hn. apply depth_items in Hn.
    rewrite orb_false_r in H. rewrite forallb_forall in H.
    destruct l as [|x l]; [reflexivity|].
    cbn [written_as]. remember (x :: l) as lst eqn:E.
    assert (W : write_items (fun v => iterencode default n' v (S level)) level true
                  (map written_as lst)
                = write_items (fun v => iterencode default n' v (S level)) level true lst).
    { rewrite write_items_map. apply write_items_ext.
      rewrite Forall_forall in IH, Hn |- *. intros y Hy. symmetry.
      apply (IH y Hy); [apply Hn, Hy | rewrite (H y Hy); reflexivity]. }
    subst lst. cbn [map] in W |- *. cbn [iterencode]. cbn [map]. rewrite W. reflexivity.
  - destruct n as [|n']; [reflexivity|].
    cbn [encode_depth] in Hn. apply le_S_n in Hn. apply depth_members in Hn.
    rewrite orb_false_r in H. apply andb_prop in H as [_ H]. rewrite forallb_forall in H.
    destruct d as [|x d]; [reflexivity|].
    cbn [written_as]. remember (x :: d) as dct eqn:E.
    assert (W : write_members (fun v => iterencode default n' v (S level)) level true
                  (map (fun kv => (fst kv, written_as (snd kv))) dct)
                = write_members (fun v => iterencode default n' v (S level)) level true dct).
    { rewrite write_members_map. apply write_members_ext.
      rewrite Forall_forall in IH, Hn |- *. intros y Hy. symmetry.
      apply (IH y Hy); [apply Hn, Hy|].
      specialize (H y Hy). apply andb_prop in H as [_ H]. exact H. }
    subst dct. cbn [map] in W |- *. cbn [iterencode]. cbn [map]. rewrite W. reflexivity.
  - cbn [encode_depth] in Hn. destruct n as [|[|[|n']]]; try lia.
    change (iterencode default (S (S (S n'))) (VDatetime dt) level)
      with (iterencode default (S (S n')) (written_as (VDatetime dt)) level).
    rewrite (iterencode_more dateutil_parse 2 (written_as (VDatetime dt)) level (S (S n')))
      by (cbn; lia).
    rewrite (iterencode_more dateutil_parse 2 (written_as (VDatetime dt)) level
               (S (S (S n')))) by (cbn; lia).
    reflexivity.
  - cbn [encode_depth] in Hn. destruct n as [|[|[|n']]]; try lia.
    change (iterencode default (S (S (S n'))) (VTimedelta td) level)
      with (iterencode default (S (S n')) (written_as (VTimedelta td)) level).
    rewrite (iterencode_more dateutil_parse 2 (written_as (VTimedelta td)) level (S (S n')))
      by (cbn; lia).
    rewrite (iterencode_more dateutil_parse 2 (written_as (VTimedelta td)) level
               (S (S (S n')))) by (cbn; lia).
    reflexivity.
Qed.

(** The text written for a value is the text written for the native
    value that stands for it. *)
Lemma encoded_written_as v :
  keep v = true -> encoded dateutil_parse v = encoded dateutil_parse (written_as v).
Proof.
  intros H. unfold encoded.
  rewrite (iterencode_written_as v _ 0 (le_n _) H).
  apply iterencode_more; [apply le_n | apply written_as_depth].
Qed.

Lemma restorable_recovered k x rest obj :
  restorable dateutil_parse x = true ->
  json_deserial_items dateutil_parse ((k, seen dateutil_parse x) :: rest) obj
  = json_deserial_items dateutil_parse rest (dict_set k x obj).
Proof.
  intros R. unfold seen. rewrite R.
  destruct x; try discriminate R; cbn [written_as restorable] in *.
  - remember (datetime_isoformat dt) as iso eqn:Hiso.
    rewrite items_cons_mapping. cbn [dict_contains dict_get assoc_get String.eqb Ascii.eqb Bool.eqb].
    unfold open_envelope. cbn. unfold recover. cbn.
    destruct (dateutil_parse iso) as [dt'| |]; try discriminate R.
    apply datetime_eqb_eq in R. subst dt'. reflexivity.
  - rewrite items_cons_mapping. cbn [dict_contains dict_get assoc_get String.eqb Ascii.eqb Bool.eqb].
    unfold open_envelope.
    cbn [dict_pop dict_get assoc_get assoc_del String.eqb Ascii.eqb Bool.eqb bind].
    unfold recover. cbn [serializer_named names_to_serializers assoc_get String.eqb Ascii.eqb Bool.eqb bind].
    rewrite (timedelta_payload_decodes td (timedelta_validb_valid td R)). reflexivity.
Qed.

Lemma storable_inert v : storable dateutil_parse v = true -> inert v = true.
Proof.
  destruct v; try reflexivity. cbn [storable inert]. intros H.
  apply andb_prop in H as [_ H]. apply negb_true_iff. unfold dict_contains, dict_get.
  induction d as [|[k x] d IH]; [reflexivity|].
  cbn [forallb fst snd] in H. apply andb_prop in H as [Hk H].
  apply andb_prop in Hk as [Hk _]. apply negb_true_iff in Hk.
  cbn [assoc_get]. rewrite String.eqb_sym, Hk. exact (IH H).
Qed.

Lemma storable_skipped k x rest obj :
  storable dateutil_parse x = true ->
  json_deserial_items dateutil_parse ((k, seen dateutil_parse x) :: rest) obj
  = json_deserial_items dateutil_parse rest obj.
Proof.
  intros S. unfold seen.
  assert (R : restorable dateutil_parse x = false) by (destruct x; try reflexivity; discriminate S).
  rewrite R. pose proof (storable_inert x S) as I.
  destruct x; try reflexivity.
  rewrite items_cons_mapping. cbn [inert] in I. apply negb_true_iff in I. rewrite I. reflexivity.
Qed.

Lemma distinct_app_not_in k (pre post : list string) :
  distinct (pre ++ k :: post)%list = true -> ~ In k pre.
Proof.
  induction pre as [|p pre IH]; simpl; [tauto|].
  intros H. apply andb_prop in H as [Hp H]. apply negb_true_iff in Hp.
  intros [->|Hin]; [|exact (IH H Hin)].
  assert (T : existsb (String.eqb k) (pre ++ k :: post)%list = true).
  { apply existsb_exists. exists k. split; [apply in_elt | apply String.eqb_refl]. }
  congruence.
Qed.

(** The hook of a mapping puts back every object its members stand
    for. *)
Lemma items_restored (d : dict) : forall (pre : dict),
  distinct (map fst pre ++ map fst d)%list = true ->
  forallb (fun kv => keep (snd kv)) d = true ->
  json_deserial_items dateutil_parse (map (fun kv => (fst kv, seen dateutil_parse (snd kv))) d)
    (pre ++ map (fun kv => (fst kv, seen dateutil_parse (snd kv))) d)%list
  = Ok (pre ++ d)%list.
Proof.
  induction d as [|[k x] d IH]; intros pre D K; [reflexivity|].
  cbn [map fst snd forallb] in *. apply andb_prop in K as [Kx K].
  assert (E : (pre ++ (k, x) :: d = (pre ++ [(k, x)]) ++ d)%list)
    by (rewrite <- app_assoc; reflexivity).
  assert (D' : distinct (map fst (pre ++ [(k, x)]) ++ map fst d)%list = true).
  { rewrite map_app, <- app_assoc. exact D. }
  destruct (storable dateutil_parse x) eqn:S.
  - rewrite (storable_skipped _ _ _ _ S).
    unfold seen at 2.
    assert (R : restorable dateutil_parse x = false)
      by (destruct x; try reflexivity; discriminate S).
    rewrite R, E.
    change ((k, x) :: map (fun kv => (fst kv, seen dateutil_parse (snd kv))) d)%list
      with ([(k, x)] ++ map (fun kv => (fst kv, seen dateutil_parse (snd kv))) d)%list.
    rewrite app_assoc. apply (IH _ D' K).
  - cbn [orb] in Kx. rewrite (restorable_recovered _ _ _ _ Kx).
    rewrite dict_set_at.
    + rewrite E.
      change ((k, x) :: map (fun kv => (fst kv, seen dateutil_parse (snd kv))) d)%list
        with ([(k, x)] ++ map (fun kv => (fst kv, seen dateutil_parse (snd kv))) d)%list.
      rewrite app_assoc. apply (IH _ D' K).
    + apply (distinct_app_not_in _ _ _ D).
Qed.

Lemma mapM_map {A B C} (f : B -> result C) (h : A -> B) l :
  mapM f (map h l) = mapM (fun a => f (h a)) l.
Proof. induction l as [|a l IH]; [reflexivity|]. cbn [map mapM]. rewrite IH. reflexivity. Qed.

Lemma storable_seen v : storable dateutil_parse v = true -> seen dateutil_parse v = v.
Proof.
  intros S. unfold seen.
  assert (R : restorable dateutil_parse v = false)
    by (destruct v; try reflexivity; discriminate S).
  rewrite R. reflexivity.
Qed.

(** The scan of the text written for a value, hooks included: the value
    itself, or its envelope when it is an object, which only the mapping
    around it opens. *)
Lemma hooked_written_as v :
  keep v = true -> hooked hook (raw_of (written_as v)) = Ok (seen dateutil_parse v).
Proof.
  induction v as [|b|z|s|l IH|d IH|dt|dd|td|w n|l IH|k v' IH|o] using value_induction;
    intros H; cbn [storable restorable orb] in H;
    try reflexivity; try discriminate H.
  - rewrite orb_false_r in H.
    rewrite (storable_seen (VList l) H).
    cbn [storable] in H. rewrite forallb_forall in H. rewrite Forall_forall in IH.
    cbn [written_as raw_of hooked]. rewrite !mapM_map.
    rewrite (mapM_ok _ (fun x => x)).
    + rewrite map_id. reflexivity.
    + apply Forall_forall. intros x Hx.
      rewrite (IH x Hx) by (rewrite (H x Hx); reflexivity).
      rewrite (storable_seen x (H x Hx)). reflexivity.
  - rewrite orb_false_r in H.
    rewrite (storable_seen (VDict d) H).
    cbn [storable] in H. apply andb_prop in H as [D H].
    assert (K : forallb (fun kv => keep (snd kv)) d = true).
    { rewrite forallb_forall in H |- *. intros x Hx.
      specialize (H x Hx). apply andb_prop in H as [_ H]. exact H. }
    rewrite Forall_forall in IH.
    cbn [written_as raw_of hooked]. rewrite !mapM_map. cbn [fst snd].
    rewrite (mapM_ok _ (fun kv => (fst kv, seen dateutil_parse (snd kv)))).
    + cbn [bind].
      assert (Keys : map fst (map (fun kv : string * value => (fst kv, seen dateutil_parse (snd kv))) d)
                     = map fst d).
      { rewrite map_map. reflexivity. }
      rewrite dict_of_pairs_distinct by (rewrite Keys; exact D).
      unfold json_deserial.
      pose proof (items_restored d [] D K) as R. cbn [app] in R.
      rewrite R. reflexivity.
    + apply Forall_forall. intros x Hx.
      rewrite forallb_forall in K.
      rewrite (IH x Hx (K x Hx)). reflexivity.
  - unfold seen. cbn [restorable]. rewrite H.
    cbn [written_as]. remember (datetime_isoformat dt) as iso. reflexivity.
  - unfold seen. cbn [restorable]. rewrite H.
    cbn [written_as].
    remember (str_of_int (days td) ++ "," ++ str_of_int (seconds td)
              ++ "," ++ str_of_int (microseconds td)) as payload.
    reflexivity.
Qed.

(** The text written for such a tree: the encoder ends well, and the
    scan of the text with the hook gives the tree. *)
Lemma storable_read_back v :
  storable dateutil_parse v = true ->
  snd (encoded dateutil_parse v) = Ok tt
  /\ from_json_str dateutil_parse (fst (encoded dateutil_parse v)) = Ok v.
Proof.
  intros S.
  assert (K : keep v = true) by (rewrite S; reflexivity).
  pose proof (written_as_native v K) as N.
  rewrite (encoded_written_as v K). split.
  - unfold encoded. apply (native_written _ _ _ _ (le_n _) N).
  - pose proof (decode_written default _ N) as Hd.
    fold (encoded dateutil_parse (written_as v)) in Hd.
    unfold from_json_str.
    destruct (fst (encoded dateutil_parse (written_as v))) as [|c text'] eqn:E;
      [discriminate Hd|].
    rewrite (decode_hooked hook _ _ Hd), (hooked_written_as v K).
    rewrite (storable_seen v S). reflexivity.
Qed.

(** Loading the file that holds the text written for such a tree. *)
Lemma load_storable store file v :
  storable dateutil_parse v = true ->
  load_json_file dateutil_parse
    (write_text file (fst (encoded dateutil_parse v)) store) file = Ok v.
Proof.
  intros S. destruct (storable_read_back v S) as [_ R].
  unfold load_json_file, exists_, read_text, write_text.
  rewrite String.eqb_refl. cbn [negb bind]. rewrite R. reflexivity.
Qed.

(** X10. What [to_json_str] writes for such a tree, [from_json_str] reads
    back as the tree: the objects under keys come back as objects. *)
Theorem to_json_str_round_trip v :
  storable dateutil_parse v = true ->
  exists text,
    to_json_str dateutil_parse v = Ok text
    /\ from_json_str dateutil_parse text = Ok v.
Proof.
  intros S. destruct (storable_read_back v S) as [E R].
  exists (fst (encoded dateutil_parse v)). split; [|exact R].
  unfold to_json_str. rewrite E. reflexivity.
Qed.

(** X11. What [save_data] writes, [load_data] reads back: the merge of what
    the file held with the new mapping, objects under keys included. *)
Theorem save_data_load_data store file old new :
  load_json_file dateutil_parse store file = Ok (VDict old) ->
  storable dateutil_parse (VDict (dict_update old new)) = true ->
  let saved := save_data dateutil_parse store file (VDict new) SortNone in
  fst saved = Ok tt
  /\ load_data dateutil_parse (snd saved) file = Ok (VDict (dict_update old new)).
Proof.
  intros H S. cbv zeta. rewrite (save_data_merge _ _ _ _ _ H). cbn [fst snd].
  destruct (storable_read_back _ S) as [E _]. split; [exact E|].
  unfold load_data. rewrite (load_storable _ _ _ S). reflexivity.
Qed.
End RoundTrip.

Lemma to_json_str_round_trip_witness :
  exists text,
    to_json_str isoparse
      (VDict [("when", VDatetime (mk_datetime 2020 1 5 13 7 9 45));
              ("runs", VList [VDict [("took", VTimedelta (mk_timedelta 0 90 0))]; VInt 3]);
              ("note", VStr "a b")]) = Ok text
    /\ from_json_str isoparse text
       = Ok (VDict [("when", VDatetime (mk_datetime 2020 1 5 13 7 9 45));
                    ("runs", VList [VDict [("took", VTimedelta (mk_timedelta 0 90 0))]; VInt 3]);
                    ("note", VStr "a b")]).
Proof.
  apply (to_json_str_round_trip isoparse). vm_compute. reflexivity.
Defined.

Lemma save_data_load_data_witness :
  let saved := save_data isoparse (one_file "data.json" (dq "{'a': 1}")) "data.json"
                 (VDict [("took", VTimedelta (mk_timedelta 1 2 3))]) SortNone in
  fst saved = Ok tt
  /\ load_data isoparse (snd saved) "data.json"
     = Ok (VDict [("a", VInt 1); ("took", VTimedelta (mk_timedelta 1 2 3))]).
Proof.
  refine (save_data_load_data isoparse (one_file "data.json" (dq "{'a': 1}")) "data.json"
            [("a", VInt 1)] [("took", VTimedelta (mk_timedelta 1 2 3))] _ eq_refl).
  vm_compute. reflexivity.
Defined.

(** ** Durations *)

Lemma timedelta_init_normalised a b c d e f g td :
  timedelta_init a b c d e f g = Ok td -> timedelta_valid td.
Proof.
  unfold timedelta_init.
  set (total := ((a + 7 * g) * 86400 + b + 60 * e + 3600 * f) * 1000000 + c + 1000 * d).
  destruct (999999999 <? Z.abs (total / 86400000000)) eqn:E; [discriminate|].
  intros [= <-]. unfold timedelta_valid. cbn [days seconds microseconds].
  apply Z.ltb_ge in E.
  pose proof (Z.mod_pos_bound total 86400000000 ltac:(lia)) as M.
  pose proof (Z.mod_pos_bound total 1000000 ltac:(lia)) as U.
  split; [exact E|]. split; [|exact U]. split.
  - apply Z.div_pos; lia.
  - apply Z.div_lt_upper_bound; lia.
Qed.

(** X2. What [serialize] writes for a duration has three fields, the
    integers [days], [seconds] and [microseconds] in that order. *)
Theorem timedelta_serialize_fields td :
  exists r,
    serialize TimedeltaJSON (VTimedelta td) = Ok r
    /\ split "," r = [str_of_int (days td); str_of_int (seconds td);
                      str_of_int (microseconds td)]
    /\ mapM int_of_str (split "," r) = Ok [days td; seconds td; microseconds td].
Proof.
  eexists. split; [reflexivity|].
  change (?a ++ "," ++ ?b ++ "," ++ ?c) with (a ++ String "," (b ++ String "," c)).
  rewrite split_app by apply str_of_int_no_comma.
  rewrite split_app by apply str_of_int_no_comma.
  rewrite split_no_sep by apply str_of_int_no_comma.
  split; [reflexivity|]. cbn [mapM]. rewrite !int_of_str_of_int. reflexivity.
Qed.

(** X3. Whatever payload [deserialize] accepts, the duration it makes is
    normalised, and from then on the handler gives it back unchanged. *)
Theorem timedelta_decoded_is_normalised r v :
  deserialize TimedeltaJSON (VStr r) = Ok v ->
  exists td,
    v = VTimedelta td /\ timedelta_valid td
    /\ round_trip TimedeltaJSON v = Ok v.
Proof.
  cbn [deserialize TimedeltaJSON]. intros H.
  destruct (mapM int_of_str (split "," r)) as [args| |]; try discriminate H.
  cbn [bind] in H.
  destruct (timedelta_call args) as [td| |] eqn:C; try discriminate H.
  cbn [bind] in H. injection H as <-. exists td.
  assert (V : timedelta_valid td).
  { destruct args as [|a [|b [|c [|d [|e [|f [|g [|h rest]]]]]]]];
      cbn [timedelta_call] in C; try discriminate C;
      exact (timedelta_init_normalised _ _ _ _ _ _ _ _ C). }
  split; [reflexivity|]. split; [exact V|].
  unfold round_trip. cbn [serialize TimedeltaJSON bind].
  apply (timedelta_payload_decodes td V).
Qed.

Lemma timedelta_decoded_is_normalised_witness :
  exists td,
    VTimedelta (mk_timedelta 1 1 500000) = VTimedelta td /\ timedelta_valid td
    /\ round_trip TimedeltaJSON (VTimedelta (mk_timedelta 1 1 500000))
       = Ok (VTimedelta (mk_timedelta 1 1 500000)).
Proof.
  exact (timedelta_decoded_is_normalised " 0, 86400 ,1_500_000"
           (VTimedelta (mk_timedelta 1 1 500000)) eq_refl).
Defined.

(** ** The text that is written *)

Lemma all_chars_app p a b : all_chars p (a ++ b) = all_chars p a && all_chars p b.
Proof.
  induction a as [|c a IH]; simpl; [reflexivity|]. rewrite IH, andb_assoc. reflexivity.
Qed.

Lemma escape_char_ascii c : all_chars ascii_text (escape_char c) = true.
Proof. destruct c as [[] [] [] [] [] [] [] []]; vm_compute; reflexivity. Qed.

Lemma escape_chars_ascii s : all_chars ascii_text (escape_chars s) = true.
Proof.
  induction s as [|c s IH]; [reflexivity|].
  cbn [escape_chars]. rewrite all_chars_app, escape_char_ascii, IH. reflexivity.
Qed.

Lemma encode_basestring_ascii_text s :
  all_chars ascii_text (encode_basestring_ascii s) = true.
Proof.
  unfold encode_basestring_ascii. cbn [all_chars].
  rewrite all_chars_app, escape_chars_ascii. reflexivity.
Qed.

Lemma str_of_int_ascii z : all_chars ascii_text (str_of_int z) = true.
Proof.
  eapply all_chars_impl; [|apply str_of_int_chars].
  intros c H. apply orb_prop in H as [H|H].
  - unfold isdigit in H. unfold ascii_text.
    apply andb_prop in H as [H1 H2]. apply N.leb_le in H1, H2.
    apply orb_true_iff. right. apply andb_true_iff. split; apply N.leb_le; lia.
  - apply Ascii.eqb_eq in H. subst c. reflexivity.
Qed.

Lemma spaces_ascii n : all_chars ascii_text (spaces n) = true.
Proof. induction n as [|n IH]; [reflexivity|]. cbn [spaces all_chars]. rewrite IH. reflexivity. Qed.

Lemma newline_indent_ascii level : all_chars ascii_text (newline_indent level) = true.
Proof. unfold newline_indent. cbn [all_chars]. rewrite spaces_ascii. reflexivity. Qed.

Lemma and_then_ascii a b :
  all_chars ascii_text (fst a) = true -> all_chars ascii_text (fst b) = true ->
  all_chars ascii_text (fst (and_then a b)) = true.
Proof.
  intros Ha Hb. destruct a as [s [[]| |]]; cbn [and_then fst] in *; try exact Ha.
  rewrite all_chars_app, Ha, Hb. reflexivity.
Qed.

Lemma write_items_ascii (enc : value -> writer) level l : forall first,
  (forall v, all_chars ascii_text (fst (enc v)) = true) ->
  all_chars ascii_text (fst (write_items enc level first l)) = true.
Proof.
  induction l as [|v l IH]; intros first H; [reflexivity|].
  cbn [write_items]. apply and_then_ascii.
  - destruct first; cbn [emit fst]; [apply newline_indent_ascii|].
    cbn [append all_chars]. rewrite newline_indent_ascii. reflexivity.
  - apply and_then_ascii; [apply H | apply IH, H].
Qed.

Lemma write_members_ascii (enc : value -> writer) level (d : dict) : forall first,
  (forall v, all_chars ascii_text (fst (enc v)) = true) ->
  all_chars ascii_text (fst (write_members enc level first d)) = true.
Proof.
  induction d as [|[k v] d IH]; intros first H; [reflexivity|].
  cbn [write_members]. apply and_then_ascii.
  - cbn [emit fst].
    assert (T : all_chars ascii_text (encode_basestring_ascii k ++ ": ") = true)
      by (rewrite all_chars_app, encode_basestring_ascii_text; reflexivity).
    destruct first; [exact T|].
    rewrite all_chars_app, T. cbn [append all_chars].
    rewrite newline_indent_ascii. reflexivity.
  - apply and_then_ascii; [apply H | apply IH, H].
Qed.

Lemma iterencode_ascii (default : value -> result value) n : forall v level,
  all_chars ascii_text (fst (iterencode default n v level)) = true.
Proof.
  induction n as [|n IH]; intros v level; [reflexivity|].
  assert (D : forall o, all_chars ascii_text
                (fst match default o with
                     | Ok o' => iterencode default n o' level
                     | Raise e => ("", Raise e)
                     | Unmodelled => ("", Unmodelled)
                     end) = true).
  { intros o. destruct (default o); [apply IH | reflexivity..]. }
  destruct v; cbn [iterencode]; try apply D.
  - reflexivity.
  - destruct b; reflexivity.
  - apply str_of_int_ascii.
  - apply encode_basestring_ascii_text.
  - destruct l as [|x l]; [reflexivity|].
    apply and_then_ascii; [reflexivity|]. apply and_then_ascii.
    + apply write_items_ascii. intros v. apply IH.
    + cbn [emit fst]. rewrite all_chars_app, newline_indent_ascii. reflexivity.
  - destruct d as [|x d]; [reflexivity|].
    apply and_then_ascii.
    + cbn [emit fst append all_chars]. rewrite newline_indent_ascii. reflexivity.
    + apply and_then_ascii.
      * apply write_members_ascii. intros v. apply IH.
      * cbn [emit fst]. rewrite all_chars_app, newline_indent_ascii. reflexivity.
Qed.

Section Text.
Variable dateutil_parse : string -> result datetime.

(** X12. What is written is plain ASCII, whatever the strings in the data:
    printable characters and line feeds only, in the text [to_json_str]
    returns and in the file [dump_to_json_file] leaves, also when the
    encoder stops on the way. *)
Theorem written_text_is_ascii in_obj :
  (forall text, to_json_str dateutil_parse in_obj = Ok text ->
                all_chars ascii_text text = true)
  /\ (forall store in_file text,
        snd (dump_to_json_file dateutil_parse store in_obj in_file) in_file
        = Some (File text) ->
        all_chars ascii_text text = true).
Proof.
  split.
  - intros text H. unfold to_json_str in H.
    destruct (snd (encoded dateutil_parse in_obj)); try discriminate H.
    cbn [bind] in H. injection H as <-. apply iterencode_ascii.
  - intros store in_file text. unfold dump_to_json_file.
    destruct (store in_file) as [[t|why]|] eqn:E; cbn [snd].
    + unfold write_text. rewrite String.eqb_refl. intros [= <-]. apply iterencode_ascii.
    + rewrite E. discriminate.
    + unfold write_text. rewrite String.eqb_refl. intros [= <-]. apply iterencode_ascii.
Qed.
End Text.

Lemma written_text_is_ascii_witness :
  all_chars ascii_text
    (fst (encoded isoparse (VDict [(String "233" "k", VStr (String "127" (String "000" "")))])))
  = true.
Proof.
  apply (proj1 (written_text_is_ascii isoparse
                  (VDict [(String "233" "k", VStr (String "127" (String "000" "")))]))).
  vm_compute. reflexivity.
Defined.

(** ** Saving *)

(** *** Keys of a merge *)

Lemma dict_set_keys k v (d : dict) :
  map fst (dict_set k v d)
  = (map fst d ++ (if dict_contains k d then [] else [k]))%list.
Proof.
  unfold dict_set, dict_contains, dict_get.
  induction d as [|[k0 v0] d IH]; simpl; [reflexivity|].
  destruct (String.eqb k k0) eqn:E; simpl.
  - rewrite app_nil_r. reflexivity.
  - rewrite IH. reflexivity.
Qed.

Lemma dict_contains_set k k' v d :
  dict_contains k (dict_set k' v d) = String.eqb k k' || dict_contains k d.
Proof.
  unfold dict_contains. rewrite dict_get_set.
  destruct (String.eqb k k'); reflexivity.
Qed.

Lemma dict_update_keys old new :
  NoDup (map fst new) ->
  map fst (dict_update old new)
  = (map fst old ++ filter (fun k => negb (dict_contains k old)) (map fst new))%list.
Proof.
  unfold dict_update. revert old.
  induction new as [|[k v] new IH]; intros old N; simpl.
  - rewrite app_nil_r. reflexivity.
  - inversion N as [|? ? Hk N']; subst. rewrite (IH _ N'), dict_set_keys.
    rewrite <- app_assoc. f_equal.
    assert (F : filter (fun k0 => negb (dict_contains k0 (dict_set k v old))) (map fst new)
                = filter (fun k0 => negb (dict_contains k0 old)) (map fst new)).
    { apply filter_ext_in. intros k0 Hin. rewrite dict_contains_set.
      destruct (String.eqb k0 k) eqn:E; [|reflexivity].
      apply String.eqb_eq in E. subst k0. contradiction. }
    rewrite F. destruct (dict_contains k old); reflexivity.
Qed.

Lemma distinct_NoDup (keys : list string) : distinct keys = true <-> NoDup keys.
Proof.
  induction keys as [|k keys IH]; simpl.
  - split; [constructor | reflexivity].
  - rewrite andb_true_iff, negb_true_iff, IH. split.
    + intros [H N]. constructor; [|exact N]. intros Hin.
      assert (T : existsb (String.eqb k) keys = true).
      { apply existsb_exists. exists k. split; [exact Hin | apply String.eqb_refl]. }
      congruence.
    + intros N. inversion N as [|? ? Hk N']; subst. split; [|exact N'].
      destruct (existsb (String.eqb k) keys) eqn:E; [|reflexivity].
      apply existsb_exists in E as (k' & Hin & E). apply String.eqb_eq in E.
      subst k'. contradiction.
Qed.

Lemma dict_set_same k v (d : dict) : dict_get k d = Some v -> dict_set k v d = d.
Proof.
  unfold dict_get, dict_set. induction d as [|[k0 v0] d IH]; simpl; [discriminate|].
  destruct (String.eqb k k0) eqn:E.
  - intros [= ->]. reflexivity.
  - intros H. rewrite (IH H). reflexivity.
Qed.

Lemma dict_update_again old new :
  NoDup (map fst new) -> dict_update (dict_update old new) new = dict_update old new.
Proof.
  intros N.
  assert (G : forall (items m : dict),
    (forall k v, In (k, v) items -> dict_get k m = Some v) ->
    fold_left (fun d kv => dict_set (fst kv) (snd kv) d) items m = m).
  { induction items as [|[k v] items IH]; intros m H; simpl; [reflexivity|].
    rewrite (dict_set_same k v m) by (apply H; now left).
    apply IH. intros k' v' Hin. apply H. now right. }
  apply G. intros k v Hin. apply dict_update_new; assumption.
Qed.

Section Sorting.
Context {A : Type} (g : string -> A).

Lemma insert_keyed_by_str x ys :
  insert_keyed (VStr x, g x) (map (fun s => (VStr s, g s)) ys)
  = Ok (map (fun s => (VStr s, g s)) (insert_str x ys)).
Proof.
  induction ys as [|y ys IH]; [reflexivity|].
  cbn [map insert_keyed insert_str fst py_lt bind].
  destruct (String.ltb x y); [reflexivity|].
  rewrite IH. reflexivity.
Qed.

Lemma fold_insert_keyed_by_str xs acc :
  fold_left (fun a x => l <- a ;; insert_keyed x l) (map (fun s => (VStr s, g s)) xs)
            (Ok (map (fun s => (VStr s, g s)) acc))
  = Ok (map (fun s => (VStr s, g s)) (fold_left (fun a x => insert_str x a) xs acc)).
Proof.
  revert acc. induction xs as [|x xs IH]; intros acc; [reflexivity|].
  cbn [map fold_left bind]. rewrite insert_keyed_by_str. apply IH.
Qed.
End Sorting.

(** [sorted(keys, key=lambda k: k)] on the keys of a mapping. *)
Lemma sorted_keys xs :
  sorted (fun k => Ok (VStr k)) xs = Ok (sort_strs xs).
Proof.
  unfold sorted.
  assert (K : mapM (fun x : string => k <- Ok (VStr x) ;; Ok (k, x)) xs
              = Ok (map (fun s => (VStr s, s)) xs)).
  { induction xs as [|x xs IH]; [reflexivity|].
    cbn [map mapM]. rewrite IH. reflexivity. }
  rewrite K. cbn [bind].
  change (@Ok (list (value * string)) []) with (Ok (map (fun s => (VStr s, s)) [])).
  rewrite (fold_insert_keyed_by_str (fun s => s) xs []). cbn [bind].
  rewrite map_map. cbn [snd]. rewrite map_id. reflexivity.
Qed.

Lemma dict_get_keyed (f : string -> value) keys k :
  dict_get k (map (fun k0 => (k0, f k0)) keys)
  = if existsb (String.eqb k) keys then Some (f k) else None.
Proof.
  unfold dict_get. induction keys as [|k0 keys IH]; simpl; [reflexivity|].
  destruct (String.eqb k k0) eqn:E; simpl; [|exact IH].
  apply String.eqb_eq in E. subst k0. reflexivity.
Qed.

Section Saving.
Variable dateutil_parse : string -> result datetime.



(** X14. A file that cannot be loaded is never written to: whatever the
    data and the sort key, the save does not end well and the store is
    as it was; without a sort key it ends with the exception of the
    load. *)
Theorem save_data_unloadable store file data sort_fn e :
  load_json_file dateutil_parse store file = Raise e ->
  snd (save_data dateutil_parse store file data sort_fn) = store
  /\ fst (save_data dateutil_parse store file data sort_fn) <> Ok tt
  /\ (sort_fn = SortNone ->
      fst (save_data dateutil_parse store file data sort_fn) = Raise e).
Proof.
  intros H.
  assert (U : forall in_data,
            update_json_file dateutil_parse store file in_data = (Raise e, store)).
  { intros in_data. unfold update_json_file. rewrite H. reflexivity. }
  unfold save_data. destruct sort_fn as [| |f].
  - rewrite U. repeat split; discriminate.
  - repeat split; discriminate.
  - destruct data; try (repeat split; discriminate).
    + destruct (sorted f l); rewrite ?U; repeat split; discriminate.
    + destruct (sorted (fun k => f (VStr k)) (map fst d)); rewrite ?U;
        repeat split; discriminate.
Qed.

(** X15. A file whose top-level value is a sequence can be loaded, and can
    never be saved to: a list has no [update], so no save ends well and
    the file stays as it is. *)
Theorem save_over_sequence store file l data sort_fn :
  load_json_file dateutil_parse store file = Ok (VList l) ->
  load_data dateutil_parse store file = Ok (VList l)
  /\ snd (save_data dateutil_parse store file data sort_fn) = store
  /\ fst (save_data dateutil_parse store file data sort_fn) <> Ok tt
  /\ (sort_fn = SortNone ->
      fst (save_data dateutil_parse store file data sort_fn) = Raise AttributeError).
Proof.
  intros H.
  assert (U : forall in_data,
            update_json_file dateutil_parse store file in_data
            = (Raise AttributeError, store)).
  { intros in_data. unfold update_json_file. rewrite H. reflexivity. }
  split; [unfold load_data; rewrite H; reflexivity|].
  unfold save_data. destruct sort_fn as [| |f].
  - rewrite U. repeat split; discriminate.
  - repeat split; discriminate.
  - destruct data; try (repeat split; discriminate).
    + destruct (sorted f l0); rewrite ?U; repeat split; discriminate.
    + destruct (sorted (fun k => f (VStr k)) (map fst d)); rewrite ?U;
        repeat split; discriminate.
Qed.

(** X17. The keys of the file after a save: those it had, in the order they
    had, then the new ones in the order of the data. *)
Theorem save_data_key_order store file old new :
  load_json_file dateutil_parse store file = Ok (VDict old) ->
  NoDup (map fst new) ->
  exists merged,
    save_data dateutil_parse store file (VDict new) SortNone
    = (snd (encoded dateutil_parse (VDict merged)),
       write_text file (fst (encoded dateutil_parse (VDict merged))) store)
    /\ map fst merged
       = (map fst old ++ filter (fun k => negb (dict_contains k old)) (map fst new))%list.
Proof.
  intros H N. exists (dict_update old new). split.
  - apply save_data_merge, H.
  - apply dict_update_keys, N.
Qed.

(** X18. Saving a mapping with the identity as sort key where no file is:
    what is written is the mapping with its keys in ascending order,
    every key with the value it had. *)
Theorem save_data_sorted_mapping store file d :
  store file = None ->
  distinct (map fst d) = true ->
  exists sorted_data,
    save_data dateutil_parse store file (VDict d) (SortKey (fun v => Ok v))
    = (snd (encoded dateutil_parse (VDict sorted_data)),
       write_text file (fst (encoded dateutil_parse (VDict sorted_data))) store)
    /\ map fst sorted_data = sort_strs (map fst d)
    /\ ascending (map fst sorted_data)
    /\ forall k, dict_get k sorted_data = dict_get k d.
Proof.
  intros Hf D.
  pose (pairs := map (fun k => (k, match dict_get k d with Some v => v | None => VNone end))
                     (sort_strs (map fst d))).
  exists pairs.
  assert (K : map fst pairs = sort_strs (map fst d)).
  { unfold pairs. rewrite map_map. cbn [fst]. apply map_id. }
  assert (D' : distinct (map fst pairs) = true).
  { rewrite K. apply distinct_NoDup. apply Permutation_NoDup with (map fst d).
    - apply sort_strs_perm.
    - apply distinct_NoDup, D. }
  split; [|split; [exact K|split]].
  - unfold save_data. rewrite sorted_keys. fold pairs.
    rewrite (dict_of_pairs_distinct _ D').
    unfold update_json_file, load_json_file, exists_. rewrite Hf. cbn [negb py_update].
    change (dict_update [] pairs) with (dict_of_pairs pairs).
    rewrite (dict_of_pairs_distinct _ D').
    unfold dump_to_json_file. rewrite Hf. reflexivity.
  - rewrite K. apply sort_strs_ascending.
  - intros k. unfold pairs. rewrite dict_get_keyed.
    destruct (existsb (String.eqb k) (sort_strs (map fst d))) eqn:E.
    + apply existsb_exists in E as (k' & Hin & E). apply String.eqb_eq in E. subst k'.
      apply (Permutation_in _ (Permutation_sym (sort_strs_perm _))) in Hin.
      destruct (dict_get k d) eqn:G; [reflexivity|].
      exfalso. exact (dict_get_none_keys _ _ G Hin).
    + destruct (dict_get k d) eqn:G; [|reflexivity].
      exfalso. apply dict_get_In in G.
      assert (Hin : In k (sort_strs (map fst d))).
      { apply (Permutation_in _ (sort_strs_perm _)). apply in_map_iff.
        exists (k, v). split; [reflexivity | exact G]. }
      assert (T : existsb (String.eqb k) (sort_strs (map fst d)) = true).
      { apply existsb_exists. exists k. split; [exact Hin | apply String.eqb_refl]. }
      congruence.
Qed.

(** X19. Saving the same mapping a second time changes nothing: the second
    save ends well and leaves every path as the first left it. *)
Theorem save_data_twice store file old new :
  load_json_file dateutil_parse store file = Ok (VDict old) ->
  NoDup (map fst new) ->
  storable dateutil_parse (VDict (dict_update old new)) = true ->
  let once := save_data dateutil_parse store file (VDict new) SortNone in
  let twice := save_data dateutil_parse (snd once) file (VDict new) SortNone in
  fst once = Ok tt /\ fst twice = Ok tt /\ forall q, snd twice q = snd once q.
Proof.
  intros H N O. cbv zeta.
  rewrite (save_data_merge _ _ _ _ _ H). cbn [fst snd].
  rewrite (save_data_merge _ _ _ (dict_update old new) _ (load_storable _ _ _ _ O)).
  rewrite (dict_update_again _ _ N). cbn [fst snd].
  destruct (storable_read_back _ _ O) as [E _].
  split; [exact E|]. split; [exact E|].
  intros q. unfold write_text. destruct (String.eqb q file); reflexivity.
Qed.

(** X20. Two saves one after the other: the file loads as what it held,
    updated with the first mapping, then with the second. *)
Theorem save_data_then_save store file old a b :
  load_json_file dateutil_parse store file = Ok (VDict old) ->
  storable dateutil_parse (VDict (dict_update old a)) = true ->
  storable dateutil_parse (VDict (dict_update (dict_update old a) b)) = true ->
  let first := save_data dateutil_parse store file (VDict a) SortNone in
  let second := save_data dateutil_parse (snd first) file (VDict b) SortNone in
  fst first = Ok tt /\ fst second = Ok tt
  /\ load_json_file dateutil_parse (snd second) file
     = Ok (VDict (dict_update (dict_update old a) b)).
Proof.
  intros H Oa Ob. cbv zeta.
  rewrite (save_data_merge _ _ _ _ _ H). cbn [fst snd].
  rewrite (save_data_merge _ _ _ (dict_update old a) _ (load_storable _ _ _ _ Oa)).
  cbn [fst snd].
  split; [exact (proj1 (storable_read_back _ _ Oa))|].
  split; [exact (proj1 (storable_read_back _ _ Ob))|].
  apply load_storable, Ob.
Qed.
End Saving.


Lemma save_data_unloadable_witness :
  snd (save_data isoparse (one_file "data.json" (dq "{'a': ")) "data.json"
                 (VDict [("b", VInt 1)]) SortNone)
  = one_file "data.json" (dq "{'a': ")
  /\ fst (save_data isoparse (one_file "data.json" (dq "{'a': ")) "data.json"
                    (VDict [("b", VInt 1)]) SortNone) <> Ok tt
  /\ (SortNone = SortNone ->
      fst (save_data isoparse (one_file "data.json" (dq "{'a': ")) "data.json"
                     (VDict [("b", VInt 1)]) SortNone)
      = Raise (JSONDeserializeError JSONDecodeError)).
Proof.
  apply (save_data_unloadable isoparse (one_file "data.json" (dq "{'a': ")) "data.json"
           (VDict [("b", VInt 1)]) SortNone (JSONDeserializeError JSONDecodeError)).
  vm_compute. reflexivity.
Defined.

Lemma save_over_sequence_witness :
  load_data isoparse (one_file "data.json" "[1, 2]") "data.json" = Ok (VList [VInt 1; VInt 2])
  /\ snd (save_data isoparse (one_file "data.json" "[1, 2]") "data.json"
                    (VDict [("b", VInt 1)]) SortNone)
     = one_file "data.json" "[1, 2]"
  /\ fst (save_data isoparse (one_file "data.json" "[1, 2]") "data.json"
                    (VDict [("b", VInt 1)]) SortNone) <> Ok tt
  /\ (SortNone = SortNone ->
      fst (save_data isoparse (one_file "data.json" "[1, 2]") "data.json"
                     (VDict [("b", VInt 1)]) SortNone)
      = Raise AttributeError).
Proof.
  apply (save_over_sequence isoparse (one_file "data.json" "[1, 2]") "data.json"
           [VInt 1; VInt 2] (VDict [("b", VInt 1)]) SortNone).
  vm_compute. reflexivity.
Defined.

Lemma save_data_key_order_witness :
  exists merged,
    save_data isoparse (one_file "data.json" (dq "{'z': 1, 'b': 2}")) "data.json"
              (VDict [("a", VInt 3); ("b", VInt 4)]) SortNone
    = (snd (encoded isoparse (VDict merged)),
       write_text "data.json" (fst (encoded isoparse (VDict merged)))
                  (one_file "data.json" (dq "{'z': 1, 'b': 2}")))
    /\ map fst merged = ["z"; "b"; "a"].
Proof.
  refine (save_data_key_order isoparse (one_file "data.json" (dq "{'z': 1, 'b': 2}"))
            "data.json" [("z", VInt 1); ("b", VInt 2)] [("a", VInt 3); ("b", VInt 4)] _ _).
  - vm_compute. reflexivity.
  - repeat constructor; simpl; intuition discriminate.
Defined.

Lemma save_data_sorted_mapping_witness :
  exists sorted_data,
    save_data isoparse no_files "data.json"
              (VDict [("z", VInt 1); ("a", VInt 2); ("m", VInt 3)]) (SortKey (fun v => Ok v))
    = (snd (encoded isoparse (VDict sorted_data)),
       write_text "data.json" (fst (encoded isoparse (VDict sorted_data))) no_files)
    /\ map fst sorted_data = ["a"; "m"; "z"]
    /\ ascending (map fst sorted_data)
    /\ forall k, dict_get k sorted_data
                 = dict_get k [("z", VInt 1); ("a", VInt 2); ("m", VInt 3)].
Proof.
  exact (save_data_sorted_mapping isoparse no_files "data.json"
           [("z", VInt 1); ("a", VInt 2); ("m", VInt 3)] eq_refl eq_refl).
Defined.

Lemma save_data_twice_witness :
  let once := save_data isoparse (one_file "data.json" (dq "{'a': 1}")) "data.json"
                        (VDict [("took", VTimedelta (mk_timedelta 0 90 0))]) SortNone in
  let twice := save_data isoparse (snd once) "data.json"
                         (VDict [("took", VTimedelta (mk_timedelta 0 90 0))]) SortNone in
  fst once = Ok tt /\ fst twice = Ok tt /\ forall q, snd twice q = snd once q.
Proof.
  refine (save_data_twice isoparse (one_file "data.json" (dq "{'a': 1}")) "data.json"
            [("a", VInt 1)] [("took", VTimedelta (mk_timedelta 0 90 0))] _ _ eq_refl).
  - vm_compute. reflexivity.
  - repeat constructor; simpl; intuition.
Defined.

Lemma save_data_then_save_witness :
  let first := save_data isoparse (one_file "data.json" (dq "{'a': 1}")) "data.json"
                         (VDict [("b", VInt 2)]) SortNone in
  let second := save_data isoparse (snd first) "data.json"
                          (VDict [("a", VTimedelta (mk_timedelta 0 90 0)); ("c", VNone)])
                          SortNone in
  fst first = Ok tt /\ fst second = Ok tt
  /\ load_json_file isoparse (snd second) "data.json"
     = Ok (VDict [("a", VTimedelta (mk_timedelta 0 90 0)); ("b", VInt 2); ("c", VNone)]).
Proof.
  refine (save_data_then_save isoparse (one_file "data.json" (dq "{'a': 1}")) "data.json"
            [("a", VInt 1)] [("b", VInt 2)]
            [("a", VTimedelta (mk_timedelta 0 90 0)); ("c", VNone)] _ eq_refl eq_refl).
  vm_compute. reflexivity.
Defined.


(** ** Keyword arguments and queries *)

Section KwargsFacts.
Context {V : Type}.

Lemma assoc_get_set (k k' : string) (v : V) l :
  assoc_get String.eqb k (assoc_set String.eqb k' v l)
  = if String.eqb k k' then Some v else assoc_get String.eqb k l.
Proof.
  induction l as [|[k0 v0] l IH]; simpl.
  - destruct (String.eqb k k'); reflexivity.
  - destruct (String.eqb k' k0) eqn:E; simpl.
    + apply String.eqb_eq in E. subst k0. destruct (String.eqb k k'); reflexivity.
    + destruct (String.eqb k k0) eqn:E0.
      * apply String.eqb_eq in E0. subst k0. rewrite String.eqb_sym, E. reflexivity.
      * exact IH.
Qed.

Lemma assoc_get_not_in (k : string) (l : list (string * V)) :
  ~ In k (map fst l) -> assoc_get String.eqb k l = None.
Proof.
  induction l as [|[k0 v0] l IH]; simpl; [reflexivity|].
  intros H. destruct (String.eqb k k0) eqn:E.
  - apply String.eqb_eq in E. subst k0. exfalso. apply H. now left.
  - apply IH. intros Hin. apply H. now right.
Qed.

Lemma set_kwargs_replacing (default_kwargs : list (string * V)) :
  forall kwargs warned,
  NoDup (map fst default_kwargs) ->
  (forall k,
     assoc_get String.eqb k (fst (_set_kwargs kwargs warned default_kwargs false))
     = match assoc_get String.eqb k default_kwargs with
       | Some v => Some v
       | None => assoc_get String.eqb k kwargs
       end)
  /\ snd (_set_kwargs kwargs warned default_kwargs false)
     = (warned ++ filter (fun k => has_key k kwargs) (map fst default_kwargs))%list.
Proof.
  induction default_kwargs as [|[a v] rest IH]; intros kwargs warned N.
  - simpl. rewrite app_nil_r. split; reflexivity.
  - inversion N as [|? ? Ha N']; subst.
    assert (Step : _set_kwargs kwargs warned ((a, v) :: rest) false
                   = _set_kwargs (assoc_set String.eqb a v kwargs)
                       (warned ++ (if has_key a kwargs then [a] else [])) rest false).
    { cbn [_set_kwargs]. destruct (has_key a kwargs); [reflexivity|].
      rewrite app_nil_r. reflexivity. }
    rewrite Step. destruct (IH (assoc_set String.eqb a v kwargs)
                               (warned ++ (if has_key a kwargs then [a] else []))%list N')
      as [G W].
    split.
    + intros k. rewrite G. cbn [assoc_get]. rewrite assoc_get_set.
      destruct (String.eqb k a) eqn:E; [|reflexivity].
      apply String.eqb_eq in E. subst k. rewrite (assoc_get_not_in a rest Ha). reflexivity.
    + rewrite W. cbn [map fst filter]. rewrite <- app_assoc. f_equal.
      assert (F : filter (fun k => has_key k (assoc_set String.eqb a v kwargs)) (map fst rest)
                  = filter (fun k => has_key k kwargs) (map fst rest)).
      { apply filter_ext_in. intros k Hin. unfold has_key. rewrite assoc_get_set.
        destruct (String.eqb k a) eqn:E; [|reflexivity].
        apply String.eqb_eq in E. subst k. contradiction. }
      rewrite F. destruct (has_key a kwargs); reflexivity.
Qed.

(** X21. Without [override] every default replaces what the caller gave for
    its key, and a warning is issued for each key the caller gave. *)
Theorem set_kwargs_defaults_replace (kwargs default_kwargs : list (string * V)) :
  NoDup (map fst default_kwargs) ->
  (forall k,
     assoc_get String.eqb k (fst (_set_kwargs kwargs [] default_kwargs false))
     = match assoc_get String.eqb k default_kwargs with
       | Some v => Some v
       | None => assoc_get String.eqb k kwargs
       end)
  /\ snd (_set_kwargs kwargs [] default_kwargs false)
     = filter (fun k => has_key k kwargs) (map fst default_kwargs).
Proof. intros N. exact (set_kwargs_replacing default_kwargs kwargs [] N). Qed.

Lemma set_kwargs_keeping (default_kwargs : list (string * V)) :
  forall kwargs warned,
  (forall k,
     assoc_get String.eqb k (fst (_set_kwargs kwargs warned default_kwargs true))
     = match assoc_get String.eqb k kwargs with
       | Some v => Some v
       | None => assoc_get String.eqb k default_kwargs
       end)
  /\ snd (_set_kwargs kwargs warned default_kwargs true) = warned.
Proof.
  induction default_kwargs as [|[a v] rest IH]; intros kwargs warned.
  - simpl. split; [|reflexivity].
    intros k. destruct (assoc_get String.eqb k kwargs); reflexivity.
  - cbn [_set_kwargs]. unfold has_key.
    destruct (assoc_get String.eqb a kwargs) as [v0|] eqn:E.
    + destruct (IH kwargs warned) as [G W]. split; [|exact W].
      intros k. rewrite G. cbn [assoc_get].
      destruct (String.eqb k a) eqn:Ek; [|reflexivity].
      apply String.eqb_eq in Ek. subst k. rewrite E. reflexivity.
    + destruct (IH (assoc_set String.eqb a v kwargs) warned) as [G W]. split; [|exact W].
      intros k. rewrite G, assoc_get_set. cbn [assoc_get].
      destruct (String.eqb k a) eqn:Ek; [|reflexivity].
      apply String.eqb_eq in Ek. subst k. rewrite E. reflexivity.
Qed.

(** X22. With [override] the caller's keyword arguments stay as given, the
    defaults fill in the keys the caller left out, and no warning is
    issued. *)
Theorem set_kwargs_override_keeps (kwargs default_kwargs : list (string * V)) :
  (forall k,
     assoc_get String.eqb k (fst (_set_kwargs kwargs [] default_kwargs true))
     = match assoc_get String.eqb k kwargs with
       | Some v => Some v
       | None => assoc_get String.eqb k default_kwargs
       end)
  /\ snd (_set_kwargs kwargs [] default_kwargs true) = [].
Proof. exact (set_kwargs_keeping default_kwargs kwargs []). Qed.
End KwargsFacts.

Lemma set_kwargs_defaults_replace_witness :
  (forall k,
     assoc_get String.eqb k
       (fst (_set_kwargs [("indent", 4); ("sort_keys", 1)] []
                         [("indent", 2); ("default", 0)] false))
     = match assoc_get String.eqb k [("indent", 2); ("default", 0)] with
       | Some v => Some v
       | None => assoc_get String.eqb k [("indent", 4); ("sort_keys", 1)]
       end)
  /\ snd (_set_kwargs [("indent", 4); ("sort_keys", 1)] []
                      [("indent", 2); ("default", 0)] false)
     = ["indent"].
Proof.
  apply (set_kwargs_defaults_replace [("indent", 4); ("sort_keys", 1)]
           [("indent", 2); ("default", 0)]).
  repeat constructor; simpl; intuition discriminate.
Defined.

Section QueryFacts.
Variable dateutil_parse : string -> result datetime.

Lemma get_list_loop_list d key_mangler : forall in_list keys l not_found_rv,
  mapM (mangled key_mangler) in_list = Ok (map VStr keys) ->
  get_list_loop d key_mangler (CList l, not_found_rv) in_list
  = Ok (CList (l ++ values_found d keys), not_found_rv ++ keys_missing d keys)%list.
Proof.
  induction in_list as [|ele rest IH]; intros keys l nf H.
  - cbn [mapM] in H. injection H as H. destruct keys; [|discriminate H].
    cbn. rewrite !app_nil_r. reflexivity.
  - cbn [mapM] in H.
    destruct (mangled key_mangler ele) as [e'| |] eqn:M; try discriminate H.
    cbn [bind] in H.
    destruct (mapM (mangled key_mangler) rest) as [es| |] eqn:R; try discriminate H.
    cbn [bind] in H. injection H as H.
    destruct keys as [|k keys]; [discriminate H|].
    cbn [map] in H. injection H as -> ->.
    cbn [get_list_loop get_list_element]. rewrite M. cbn [bind].
    unfold values_found, keys_missing, dict_contains. cbn [flat_map filter].
    destruct (dict_get k d) as [got|]; cbn [bind negb].
    + rewrite (IH keys _ _ eq_refl). unfold values_found, keys_missing, dict_contains.
      rewrite <- app_assoc. reflexivity.
    + rewrite (IH keys _ _ eq_refl). unfold values_found, keys_missing, dict_contains.
      cbn [map]. rewrite <- app_assoc. reflexivity.
Qed.

Lemma load_data_mapping store file d :
  load_json_file dateutil_parse store file = Ok (VDict d) ->
  load_data dateutil_parse store file = Ok (VDict d).
Proof. intros H. unfold load_data. rewrite H. reflexivity. Qed.

(** X23. [get_list] with [return_type=list]: the values of the keys that are
    in the file, and the keys that are not, both in the order asked and
    as often as asked. *)
Theorem get_list_as_list store file d in_list key_mangler keys :
  load_json_file dateutil_parse store file = Ok (VDict d) ->
  mapM (mangled key_mangler) in_list = Ok (map VStr keys) ->
  get_list dateutil_parse store file in_list key_mangler ReturnList 2
  = Ok (FoundAndNot (CList (values_found d keys)) (keys_missing d keys)).
Proof.
  intros H M. unfold get_list. rewrite (load_data_mapping _ _ _ H). cbn [bind new_container].
  rewrite (get_list_loop_list d key_mangler in_list keys [] [] M). reflexivity.
Qed.

Lemma get_list_loop_dict d key_mangler : forall in_list keys rd not_found_rv,
  mapM (mangled key_mangler) in_list = Ok (map VStr keys) ->
  exists rd',
    get_list_loop d key_mangler (CDict rd, not_found_rv) in_list
    = Ok (CDict rd', not_found_rv ++ keys_missing d keys)%list
    /\ forall k, dict_get k rd'
                 = if existsb (String.eqb k) keys && dict_contains k d
                   then dict_get k d else dict_get k rd.
Proof.
  induction in_list as [|ele rest IH]; intros keys rd nf H.
  - cbn [mapM] in H. injection H as H. destruct keys; [|discriminate H].
    exists rd. cbn. rewrite app_nil_r. split; reflexivity.
  - cbn [mapM] in H.
    destruct (mangled key_mangler ele) as [e'| |] eqn:M; try discriminate H.
    cbn [bind] in H.
    destruct (mapM (mangled key_mangler) rest) as [es| |] eqn:R; try discriminate H.
    cbn [bind] in H. injection H as H.
    destruct keys as [|k keys]; [discriminate H|].
    cbn [map] in H. injection H as -> ->.
    cbn [get_list_loop get_list_element]. rewrite M. cbn [bind].
    unfold keys_missing, dict_contains. cbn [filter existsb].
    destruct (dict_get k d) as [got|] eqn:G; cbn [bind negb].
    + destruct (IH keys (dict_set k got rd) nf eq_refl) as (rd' & E & L).
      exists rd'. split; [exact E|].
      intros k0. rewrite L, dict_get_set. unfold dict_contains.
      destruct (String.eqb k0 k) eqn:E0; cbn [orb].
      * apply String.eqb_eq in E0. subst k0. rewrite G.
        destruct (existsb (String.eqb k) keys); reflexivity.
      * reflexivity.
    + destruct (IH keys rd (nf ++ [VStr k])%list eq_refl) as (rd' & E & L).
      exists rd'. split.
      * rewrite E. unfold keys_missing, dict_contains. cbn [map].
        rewrite <- app_assoc. reflexivity.
      * intros k0. rewrite L. unfold dict_contains.
        destruct (String.eqb k0 k) eqn:E0; cbn [orb]; [|reflexivity].
        apply String.eqb_eq in E0. subst k0. rewrite G.
        rewrite andb_false_r. reflexivity.
Qed.

(** X24. [get_list] with [return_type=dict]: the mapping returned holds the
    keys asked for that are in the file, each with the value the file
    has for it, and nothing else. *)
Theorem get_list_as_dict store file d in_list key_mangler keys :
  load_json_file dateutil_parse store file = Ok (VDict d) ->
  mapM (mangled key_mangler) in_list = Ok (map VStr keys) ->
  exists rv,
    get_list dateutil_parse store file in_list key_mangler ReturnDict 2
    = Ok (FoundAndNot (CDict rv) (keys_missing d keys))
    /\ forall k, dict_get k rv
                 = if existsb (String.eqb k) keys then dict_get k d else None.
Proof.
  intros H M. unfold get_list. rewrite (load_data_mapping _ _ _ H). cbn [bind new_container].
  destruct (get_list_loop_dict d key_mangler in_list keys [] [] M) as (rd & E & L).
  exists rd. rewrite E. split; [reflexivity|].
  intros k. rewrite L. unfold dict_contains.
  destruct (existsb (String.eqb k) keys); [|reflexivity].
  destruct (dict_get k d); reflexivity.
Qed.

Lemma get_list_loop_other d key_mangler q : forall in_list keys not_found_rv,
  mapM (mangled key_mangler) in_list = Ok (map VStr keys) ->
  get_list_loop d key_mangler (COther q, not_found_rv) in_list
  = if existsb (fun k => dict_contains k d) keys then Raise (TypeError None)
    else Ok (COther q, not_found_rv ++ map VStr keys)%list.
Proof.
  induction in_list as [|ele rest IH]; intros keys nf H.
  - cbn [mapM] in H. injection H as H. destruct keys; [|discriminate H].
    cbn. rewrite app_nil_r. reflexivity.
  - cbn [mapM] in H.
    destruct (mangled key_mangler ele) as [e'| |] eqn:M; try discriminate H.
    cbn [bind] in H.
    destruct (mapM (mangled key_mangler) rest) as [es| |] eqn:R; try discriminate H.
    cbn [bind] in H. injection H as H.
    destruct keys as [|k keys]; [discriminate H|].
    cbn [map] in H. injection H as -> ->.
    cbn [get_list_loop get_list_element]. rewrite M. cbn [bind existsb].
    unfold dict_contains at 1.
    destruct (dict_get k d) as [got|] eqn:G; cbn [bind orb]; [reflexivity|].
    rewrite (IH keys _ eq_refl). cbn [map]. rewrite <- app_assoc. reflexivity.
Qed.

(** X25. [get_list] with a [return_type] that is no mapping, list or set:
    the [TypeError] is raised when a key is found; when none of the keys
    is in the file, the call returns the empty container and the keys. *)
Theorem get_list_unknown_return_type store file d in_list key_mangler keys q :
  load_json_file dateutil_parse store file = Ok (VDict d) ->
  mapM (mangled key_mangler) in_list = Ok (map VStr keys) ->
  get_list dateutil_parse store file in_list key_mangler (ReturnOther q) 2
  = if existsb (fun k => dict_contains k d) keys then Raise (TypeError None)
    else Ok (FoundAndNot (COther q) (map VStr keys)).
Proof.
  intros H M. unfold get_list. rewrite (load_data_mapping _ _ _ H). cbn [bind new_container].
  rewrite (get_list_loop_other d key_mangler q in_list keys [] M).
  destruct (existsb (fun k => dict_contains k d) keys); reflexivity.
Qed.
Lemma get_list_loop_nothing key_mangler rv : forall in_list keys not_found_rv,
  mapM (mangled key_mangler) in_list = Ok (map VStr keys) ->
  get_list_loop [] key_mangler (rv, not_found_rv) in_list
  = Ok (rv, not_found_rv ++ map VStr keys)%list.
Proof.
  induction in_list as [|ele rest IH]; intros keys nf H.
  - cbn [mapM] in H. injection H as H. destruct keys; [|discriminate H].
    cbn. rewrite app_nil_r. reflexivity.
  - cbn [mapM] in H.
    destruct (mangled key_mangler ele) as [e'| |] eqn:M; try discriminate H.
    cbn [bind] in H.
    destruct (mapM (mangled key_mangler) rest) as [es| |] eqn:R; try discriminate H.
    cbn [bind] in H. injection H as H.
    destruct keys as [|k keys]; [discriminate H|].
    cbn [map] in H. injection H as -> ->.
    cbn [get_list_loop get_list_element]. rewrite M. cbn [bind dict_get assoc_get].
    rewrite (IH keys _ eq_refl). cbn [map]. rewrite <- app_assoc. reflexivity.
Qed.

(** X29. [get_list] where no file is: nothing is found and nothing is
    raised, whatever the return type; the container comes back empty and
    every key is returned as not found. *)
Theorem get_list_missing_file store file in_list key_mangler keys return_type :
  store file = None ->
  mapM (mangled key_mangler) in_list = Ok (map VStr keys) ->
  get_list dateutil_parse store file in_list key_mangler return_type 2
  = Ok (FoundAndNot (new_container return_type) (map VStr keys)).
Proof.
  intros Hf M. unfold get_list, load_data, load_json_file, exists_. rewrite Hf.
  cbn [negb bind].
  rewrite (get_list_loop_nothing key_mangler _ in_list keys [] M). reflexivity.
Qed.
End QueryFacts.

Lemma get_list_missing_file_witness :
  get_list isoparse no_files "data.json" [VStr "a"; VStr "b"] None
           (ReturnOther "builtins.tuple") 2
  = Ok (FoundAndNot (COther "builtins.tuple") [VStr "a"; VStr "b"]).
Proof.
  exact (get_list_missing_file isoparse no_files "data.json" [VStr "a"; VStr "b"] None
           ["a"; "b"] (ReturnOther "builtins.tuple") eq_refl eq_refl).
Defined.

Lemma get_list_as_list_witness :
  get_list isoparse (one_file "data.json" (dq "{'a': 1, 'b': [2]}")) "data.json"
           [VStr "b"; VStr "x"; VStr "a"; VStr "b"] None ReturnList 2
  = Ok (FoundAndNot (CList [VList [VInt 2]; VInt 1; VList [VInt 2]]) [VStr "x"]).
Proof.
  refine (get_list_as_list isoparse (one_file "data.json" (dq "{'a': 1, 'b': [2]}"))
            "data.json" [("a", VInt 1); ("b", VList [VInt 2])]
            [VStr "b"; VStr "x"; VStr "a"; VStr "b"] None ["b"; "x"; "a"; "b"] _ eq_refl).
  vm_compute. reflexivity.
Defined.

Lemma get_list_as_dict_witness :
  exists rv,
    get_list isoparse (one_file "data.json" (dq "{'a': 1, 'b': [2]}")) "data.json"
             [VStr "b"; VStr "x"] None ReturnDict 2
    = Ok (FoundAndNot (CDict rv) [VStr "x"])
    /\ forall k, dict_get k rv
                 = if existsb (String.eqb k) ["b"; "x"]
                   then dict_get k [("a", VInt 1); ("b", VList [VInt 2])] else None.
Proof.
  refine (get_list_as_dict isoparse (one_file "data.json" (dq "{'a': 1, 'b': [2]}"))
            "data.json" [("a", VInt 1); ("b", VList [VInt 2])]
            [VStr "b"; VStr "x"] None ["b"; "x"] _ eq_refl).
  vm_compute. reflexivity.
Defined.

Lemma get_list_unknown_return_type_witness :
  get_list isoparse (one_file "data.json" (dq "{'a': 1}")) "data.json"
           [VStr "x"; VStr "y"] None (ReturnOther "builtins.tuple") 2
  = Ok (FoundAndNot (COther "builtins.tuple") [VStr "x"; VStr "y"]).
Proof.
  refine (get_list_unknown_return_type isoparse (one_file "data.json" (dq "{'a': 1}"))
            "data.json" [("a", VInt 1)] [VStr "x"; VStr "y"] None ["x"; "y"]
            "builtins.tuple" _ eq_refl).
  vm_compute. reflexivity.
Defined.

(** ** Names of the converted objects *)

Lemma replace_semicolon s : no_char ";" (replace ";" "_" s) = true.
Proof.
  unfold replace, no_char. induction s as [|c s IH]; [reflexivity|].
  cbn [replace_from String.prefix String.length].
  destruct (Ascii.ascii_dec ";" c) as [E|E].
  - destruct s; cbn [String.prefix]; cbn; exact IH.
  - cbn. rewrite IH.
    assert (N : Ascii.eqb c ";" = false).
    { destruct (Ascii.eqb c ";") eqn:Q; [|reflexivity].
      apply Ascii.eqb_eq in Q. subst c. contradiction. }
    rewrite N. reflexivity.
Qed.

Lemma prefix_other c0 o c r : c <> c0 -> String.prefix (String c0 o) (String c r) = false.
Proof.
  intros N. cbn [String.prefix]. destruct (Ascii.ascii_dec c0 c) as [E|E]; [|reflexivity].
  subst c. contradiction.
Qed.

Lemma replace_from_clean c0 o new a b :
  no_char c0 a = true ->
  replace_from (String c0 o) new 0 (a ++ b) = a ++ replace_from (String c0 o) new 0 b.
Proof.
  unfold no_char. induction a as [|c a IH]; intros H; [reflexivity|].
  cbn [all_chars] in H. apply andb_prop in H as [Hc Ha].
  apply negb_true_iff in Hc.
  assert (N : c <> c0) by (intros ->; rewrite Ascii.eqb_refl in Hc; discriminate Hc).
  change (String c a ++ b) with (String c (a ++ b)).
  cbn [replace_from]. rewrite (prefix_other c0 o c (a ++ b) N), (IH Ha). reflexivity.
Qed.

Lemma replace_clean c0 o new s :
  no_char c0 s = true -> replace (String c0 o) new s = s.
Proof.
  intros H. unfold replace.
  rewrite <- (append_nil_r s) at 1. rewrite (replace_from_clean c0 o new s "" H).
  cbn [replace_from]. apply append_nil_r.
Qed.

Lemma prefix_same c o r : String.prefix (String c o) (String c r) = String.prefix o r.
Proof.
  cbn [String.prefix]. destruct (Ascii.ascii_dec c c) as [_|F]; [reflexivity | contradiction].
Qed.

Lemma replace_from_first c new b :
  replace_from (String c "") new 0 (String c b) = new ++ replace_from (String c "") new 0 b.
Proof.
  cbn [replace_from]. rewrite prefix_same. destruct b; reflexivity.
Qed.

Lemma replace_from_pair c d new b :
  replace_from (String c (String d "")) new 0 (String c (String d b))
  = new ++ replace_from (String c (String d "")) new 0 b.
Proof.
  cbn [replace_from]. rewrite !prefix_same. destruct b; reflexivity.
Qed.

(** X26. No name under which an object is written has a semicolon in it. *)
Theorem c_name_no_semicolon key_name :
  all_chars (fun c => negb (Ascii.eqb c ";")) (c_name_of_key key_name) = true.
Proof. apply replace_semicolon. Qed.

(** X27. The cycle number of a key. [;1] is taken out wherever it stands, so
    the cycles 10 to 19 lose their first digit and the separator: the
    key [h;12] is written under the name of the key [h2;1]. Any other
    cycle is set off by an underscore. *)
Theorem c_name_cycle name rest :
  no_char ";" name = true ->
  no_char ";" rest = true ->
  c_name_of_key (name ++ ";1" ++ rest) = name ++ rest
  /\ c_name_of_key (name ++ ";1" ++ rest) = c_name_of_key ((name ++ rest) ++ ";1")
  /\ (forall c, c <> "1"%char -> c <> ";"%char ->
        c_name_of_key (name ++ ";" ++ String c rest) = name ++ "_" ++ String c rest).
Proof.
  intros Hn Hr.
  assert (Hnr : no_char ";" (name ++ rest) = true).
  { unfold no_char. rewrite all_chars_app. unfold no_char in Hn, Hr. rewrite Hn, Hr.
    reflexivity. }
  assert (A : forall a b, no_char ";" a = true -> no_char ";" b = true ->
                          c_name_of_key (a ++ ";1" ++ b) = a ++ b).
  { intros a b Ha Hb. unfold c_name_of_key.
    assert (Hab : no_char ";" (a ++ b) = true).
    { unfold no_char. rewrite all_chars_app. unfold no_char in Ha, Hb. rewrite Ha, Hb.
      reflexivity. }
    unfold replace at 2. rewrite (replace_from_clean ";" "1" "" a _ Ha).
    change (";1" ++ b) with (String ";" (String "1" b)).
    rewrite replace_from_pair. fold (replace ";1" "" b).
    rewrite (replace_clean ";" "1" "" b Hb). apply replace_clean, Hab. }
  split; [apply A; assumption|]. split.
  - rewrite (A name rest Hn Hr).
    pose proof (A (name ++ rest) "" Hnr eq_refl) as E.
    rewrite !append_nil_r in E. symmetry. exact E.
  - intros c N1 Ns. unfold c_name_of_key.
    assert (Hc : no_char ";" (String c rest) = true).
    { unfold no_char. cbn [all_chars]. unfold no_char in Hr. rewrite Hr.
      destruct (Ascii.eqb c ";") eqn:Q; [|reflexivity].
      apply Ascii.eqb_eq in Q. contradiction. }
    unfold replace at 2. rewrite (replace_from_clean ";" "1" "" name _ Hn).
    assert (E : replace_from ";1" "" 0 (";" ++ String c rest) = ";" ++ String c rest).
    { change (";" ++ String c rest) with (String ";" (String c rest)).
      cbn [replace_from]. rewrite prefix_same, (prefix_other "1" "" c rest N1).
      f_equal. apply (replace_clean ";" "1" "" _ Hc). }
    rewrite E. unfold replace. rewrite (replace_from_clean ";" "" "_" name _ Hn).
    change (";" ++ String c rest) with (String ";" (String c rest)).
    rewrite replace_from_first. fold (replace ";" "_" (String c rest)).
    rewrite (replace_clean ";" "" "_" _ Hc). reflexivity.
Qed.

(** X28. The table of a file is named by what stands before the first dot of
    its name: the name the object was written under when that has no
    dot, and only its beginning when it has one. *)
Theorem t_name_cut a b :
  no_char "." a = true -> t_name (a ++ "." ++ b) = a /\ t_name a = a.
Proof.
  intros H. unfold t_name. split.
  - change (a ++ "." ++ b) with (a ++ String "." b). rewrite (split_app "." a b H). reflexivity.
  - rewrite (split_no_sep "." a H). reflexivity.
Qed.

Lemma c_name_cycle_witness :
  c_name_of_key ("h" ++ ";1" ++ "2") = "h" ++ "2"
  /\ c_name_of_key ("h" ++ ";1" ++ "2") = c_name_of_key (("h" ++ "2") ++ ";1")
  /\ (forall c, c <> "1"%char -> c <> ";"%char ->
        c_name_of_key ("h" ++ ";" ++ String c "2") = "h" ++ "_" ++ String c "2").
Proof. exact (c_name_cycle "h" "2" eq_refl eq_refl). Defined.

Lemma t_name_cut_witness :
  t_name ("h" ++ "." ++ "1.parquet") = "h" /\ t_name "h" = "h".
Proof. exact (t_name_cut "h" "1.parquet" eq_refl). Defined.
